(** * Warehouse master orchestrator (warehouse/warehouse.go)

    A shallow embedding of the scheduling layer of the warehouse service:
    the metadata tables [wh_uploads] and [wh_staging_files] with the queries
    the router issues on them, the process-wide registries
    ([inProgressMap], [inRecoveryMap], [lastExecMap], [activeWorkerCount]),
    the per-binding body of [mainLoop], the job loop and the admission loop
    of [handleUploadJobs], [setInterruptedDestinations] and [getNamespace].

    Conventions.
    - Go [int64] and [int] values are [Z]; arithmetic the source performs on
      them goes through [Int64.wrap].
    - Go maps are [gmap]; a read of an absent key yields the zero value.
    - A pointer [*UploadT] is a location in the [heap] of the [World];
      taking the address of a variable stores the variable in the heap.
    - SQL tables are lists of rows; [ORDER BY] is a stable insertion sort.
      Query failures of the database driver are not modelled.
    - A panic is the [Panicked] outcome of the monad [M].
    - External collaborators (clock, warehouse manager, [job.run]) are
      section variables. *)

From stdpp Require Import gmap strings list fin_maps sorting.
From Stdlib Require Import ZArith Lia Ascii Sorted.

Set Warnings "-register-all".
Local Open Scope Z_scope.

(** ** Machine integers *)

Module Int64.
Definition min_int : Z := - 2 ^ 63.
Definition max_int : Z := 2 ^ 63 - 1.
Definition modulus : Z := 2 ^ 64.

(** Two's-complement wrap-around of a mathematical integer. *)
Definition wrap (z : Z) : Z := (z + 2 ^ 63) mod modulus - 2 ^ 63.

Definition add (a b : Z) : Z := wrap (a + b).
Definition sub (a b : Z) : Z := wrap (a - b).
Definition mul (a b : Z) : Z := wrap (a * b).

Definition in_range (z : Z) : Prop := min_int <= z <= max_int.
End Int64.

(** ** strconv.ParseInt(s, 10, 64) *)

Module strconv.
Inductive NumError := ErrSyntax | ErrRange.

Definition maxUint64 : Z := 2 ^ 64 - 1.

Definition digit (c : ascii) : option Z :=
  let n := Z.of_nat (nat_of_ascii c) in
  if (48 <=? n) && (n <=? 57) then Some (n - 48) else None.

(** The digit loop of [ParseUint] for base 10 and bit size 64. *)
Fixpoint parseDigits (s : string) (n : Z) : Z * option NumError :=
  match s with
  | EmptyString => (n, None)
  | String c rest =>
      match digit c with
      | None => (0, Some ErrSyntax)
      | Some d =>
          if maxUint64 / 10 + 1 <=? n then (maxUint64, Some ErrRange)
          else
            let n1 := n * 10 + d in
            if maxUint64 <? n1 then (maxUint64, Some ErrRange)
            else parseDigits rest n1
      end
  end.

Definition ParseUint (s : string) : Z * option NumError :=
  match s with
  | EmptyString => (0, Some ErrSyntax)
  | _ => parseDigits s 0
  end.

Definition ParseInt (s : string) : Z * option NumError :=
  match s with
  | EmptyString => (0, Some ErrSyntax)
  | String c rest =>
      let '(neg, body) :=
        if Ascii.eqb c "+" then (false, rest)
        else if Ascii.eqb c "-" then (true, rest)
        else (false, s) in
      match ParseUint body with
      | (_, Some ErrSyntax) => (0, Some ErrSyntax)
      | (un, _) =>
          let cutoff := 2 ^ 63 in
          if negb neg && (cutoff <=? un) then (cutoff - 1, Some ErrRange)
          else if neg && (cutoff <? un) then (- cutoff, Some ErrRange)
          else ((if neg then - un else un), None)
      end
  end.
End strconv.

(** ** Time *)

(** A [time.Time] is the number of nanoseconds since the Unix epoch. *)
Definition Time : Type := Z.

(** The zero [time.Time] is January 1, year 1, 00:00:00 UTC. *)
Definition zeroTime : Time := -62135596800 * 1000000000.
Definition IsZero (t : Time) : bool := t =? zeroTime.
Definition Unix (t : Time) : Z := t / 1000000000.

(** [time.Duration] constants, in nanoseconds. *)
Definition Second : Z := 1000000000.
Definition Minute : Z := 60 * Second.
Definition Hour : Z := 60 * Minute.

(** ** Values of type [interface{}] as decoded from the backend config *)

Inductive Iface : Type :=
| INil
| IBool (b : bool)
| INumber (z : Z)
| IString (s : string)
| IList (l : list Iface)
| IMap (m : gmap string Iface).

(** ** Backend-config structures and bindings *)

Record SourceT := {
  Source_ID : string;
  Source_Name : string
}.

Record DestinationT := {
  Destination_ID : string;
  Destination_Name : string;
  Destination_Config : Iface;
  Destination_Enabled : bool;
  DestinationDefinition_Name : string
}.

Record WarehouseT := {
  Source : SourceT;
  Destination : DestinationT;
  Namespace : string;
  Type_ : string
}.

(** ** Upload states *)

(** Modelled from the spec: the status constants ([WaitingState],
    [ExportingDataState], [ExportingDataFailedState], [ExportedDataState],
    [AbortedState]) are declared outside warehouse.go.  The status column is
    a string; only the distinctness of the five constants matters. *)
Definition WaitingState : string := "waiting".
Definition ExportingDataState : string := "exporting_data".
Definition ExportingDataFailedState : string := "exporting_data_failed".
Definition ExportedDataState : string := "exported_data".
Definition AbortedState : string := "aborted".

(** ** Rows of the metadata tables *)

Record StagingFileRow := {
  sf_id : Z;
  sf_location : string;
  sf_source_id : string;
  sf_destination_id : string;
  sf_first_event_at : option Time;   (* nullable column *)
  sf_last_event_at : option Time
}.

Record UploadRow := {
  up_id : Z;
  up_source_id : string;
  up_namespace : string;
  up_destination_id : string;
  up_destination_type : string;
  up_start_staging_file_id : Z;
  up_end_staging_file_id : Z;
  up_start_load_file_id : Z;
  up_end_load_file_id : Z;
  up_status : string;
  up_schema : string;
  up_error : gmap string Z;             (* step -> attempt counter *)
  up_timings : list (string * Time);    (* ordered {state: timestamp} *)
  up_first_event_at : Time;
  up_last_event_at : Time;
  up_created_at : Time;
  up_updated_at : Time
}.

Record Database := {
  wh_uploads : list UploadRow;
  wh_staging_files : list StagingFileRow;
  wh_uploads_id_seq : Z                 (* next value of the id sequence *)
}.

(** ** In-memory structures of the router *)

Record StagingFileT := {
  StagingFile_ID : Z;
  StagingFile_Location : string;
  StagingFile_FirstEventAt : Time;
  StagingFile_LastEventAt : Time
}.

Record UploadT := {
  Upload_ID : Z;
  Upload_Namespace : string;
  Upload_SourceID : string;
  Upload_DestinationID : string;
  Upload_DestinationType : string;
  Upload_StartStagingFileID : Z;
  Upload_EndStagingFileID : Z;
  Upload_StartLoadFileID : Z;
  Upload_EndLoadFileID : Z;
  Upload_Status : string;
  Upload_Schema : string;
  Upload_Error : gmap string Z;
  Upload_FirstAttemptAt : Time;
  Upload_LastAttemptAt : Time;
  Upload_Attempts : Z
}.

(** The zero value of [UploadT] ([var upload UploadT]). *)
Definition zeroUpload : UploadT :=
  {| Upload_ID := 0; Upload_Namespace := EmptyString; Upload_SourceID := EmptyString;
     Upload_DestinationID := EmptyString; Upload_DestinationType := EmptyString;
     Upload_StartStagingFileID := 0; Upload_EndStagingFileID := 0;
     Upload_StartLoadFileID := 0; Upload_EndLoadFileID := 0;
     Upload_Status := EmptyString; Upload_Schema := EmptyString; Upload_Error := ∅;
     Upload_FirstAttemptAt := zeroTime; Upload_LastAttemptAt := zeroTime;
     Upload_Attempts := 0 |}.

(** A heap location holding an [UploadT]. *)
Definition loc : Type := nat.

Record UploadJobT := {
  upload : loc;                         (* upload *UploadT *)
  stagingFiles : list StagingFileT;
  warehouse : WarehouseT;
  whManager : string                    (* the driver selected by destType *)
}.

Record HandleT := {
  destType : string;
  warehouses : list WarehouseT;
  isEnabled : bool
}.

(** ** Configuration read by [loadConfig] *)

Record Config := {
  noOfWorkers : Z;
  stagingFilesBatchSize : Z;
  uploadFreqInS : Z;
  mainLoopSleep : Z;
  workerRetrySleep : Z;
  crashRecoverWarehouses : list string;
  minRetryAttempts : Z;
  retryTimeWindow : Z
}.

(** The values [loadConfig] installs when nothing is configured. *)
Definition loadConfig : Config :=
  {| noOfWorkers := 8;
     stagingFilesBatchSize := 240;
     uploadFreqInS := 1800;
     mainLoopSleep := 60 * Second;
     workerRetrySleep := 5 * Second;
     crashRecoverWarehouses := ["RS"%string];
     minRetryAttempts := 3;
     retryTimeWindow := 180 * Minute |}.

(** ** Observable operations, in the order the router performs them *)

Inductive Event :=
| EvCrashRecover (w : WarehouseT) (failed : bool)
| EvGetPendingUploads (w : WarehouseT)
| EvGetStagingFiles (w : WarehouseT) (startID endID : Z)
| EvGetPendingStagingFiles (w : WarehouseT)
| EvInitUpload (w : WarehouseT) (u : UploadT)
| EvSetLastExec (key : string) (t : Z)
| EvEnqueue (workerName : string) (jobs : list UploadJobT)
| EvRun (job : UploadJobT) (failed : bool)
| EvRecordDeliveryStatus (destID : string) (uploadID : Z)
| EvFailedUploads (destID : string) (n : Z)
| EvOnSuccessfulUpload (w : WarehouseT)
| EvLoadStagingFiles (destID : string) (n : Z).

(** ** Process state *)

Record World := {
  db : Database;
  heap : list UploadT;
  inProgressMap : gmap string bool;
  inRecoveryMap : gmap string bool;
  lastExecMap : gmap string Z;
  nowCalls : nat;                       (* readings of the clock so far *)
  trace : list Event
}.

Definition set_db (d : Database) (w : World) : World :=
  {| db := d; heap := heap w; inProgressMap := inProgressMap w;
     inRecoveryMap := inRecoveryMap w; lastExecMap := lastExecMap w;
     nowCalls := nowCalls w; trace := trace w |}.

Definition set_heap (h : list UploadT) (w : World) : World :=
  {| db := db w; heap := h; inProgressMap := inProgressMap w;
     inRecoveryMap := inRecoveryMap w; lastExecMap := lastExecMap w;
     nowCalls := nowCalls w; trace := trace w |}.

Definition set_inProgressMap (m : gmap string bool) (w : World) : World :=
  {| db := db w; heap := heap w; inProgressMap := m;
     inRecoveryMap := inRecoveryMap w; lastExecMap := lastExecMap w;
     nowCalls := nowCalls w; trace := trace w |}.

Definition set_inRecoveryMap (m : gmap string bool) (w : World) : World :=
  {| db := db w; heap := heap w; inProgressMap := inProgressMap w;
     inRecoveryMap := m; lastExecMap := lastExecMap w;
     nowCalls := nowCalls w; trace := trace w |}.

Definition set_lastExecMap (m : gmap string Z) (w : World) : World :=
  {| db := db w; heap := heap w; inProgressMap := inProgressMap w;
     inRecoveryMap := inRecoveryMap w; lastExecMap := m;
     nowCalls := nowCalls w; trace := trace w |}.

Definition set_nowCalls (n : nat) (w : World) : World :=
  {| db := db w; heap := heap w; inProgressMap := inProgressMap w;
     inRecoveryMap := inRecoveryMap w; lastExecMap := lastExecMap w;
     nowCalls := n; trace := trace w |}.

Definition set_trace (t : list Event) (w : World) : World :=
  {| db := db w; heap := heap w; inProgressMap := inProgressMap w;
     inRecoveryMap := inRecoveryMap w; lastExecMap := lastExecMap w;
     nowCalls := nowCalls w; trace := t |}.

(** ** The state-and-panic monad *)

Inductive Result (A : Type) : Type :=
| Ok (a : A) (w : World)
| Panicked (msg : string) (w : World)
| OutOfFuel (w : World).
Arguments Ok {A} a w.
Arguments Panicked {A} msg w.
Arguments OutOfFuel {A} w.

Definition M (A : Type) : Type := World → Result A.

#[global] Instance M_ret : MRet M := λ A a w, Ok a w.
#[global] Instance M_bind : MBind M := λ A B f c w,
  match c w with
  | Ok a w' => f a w'
  | Panicked msg w' => Panicked msg w'
  | OutOfFuel w' => OutOfFuel w'
  end.

Definition gets {A} (f : World → A) : M A := λ w, Ok (f w) w.
Definition modify (f : World → World) : M unit := λ w, Ok tt (f w).
Definition panic {A} (msg : string) : M A := λ w, Panicked msg w.
Definition outOfFuel {A} : M A := λ w, OutOfFuel w.
Definition emit (e : Event) : M unit :=
  modify (λ w, set_trace (trace w ++ [e]) w).

Definition final {A} (r : Result A) : World :=
  match r with Ok _ w | Panicked _ w | OutOfFuel w => w end.

(** Heap operations behind [&x], [*p = v] and [*p]. *)
Definition alloc (u : UploadT) : M loc :=
  λ w, Ok (length (heap w)) (set_heap (heap w ++ [u]) w).
Definition store (l : loc) (u : UploadT) : M unit :=
  modify (λ w, set_heap (<[l := u]> (heap w)) w).
Definition deref (h : list UploadT) (l : loc) : UploadT :=
  default zeroUpload (h !! l).

(** ** SQL helpers *)

(** [ORDER BY key ASC] as a stable insertion sort. *)
Fixpoint insert_by {A} (key : A → Z) (x : A) (l : list A) : list A :=
  match l with
  | [] => [x]
  | y :: l' => if key x <=? key y then x :: l else y :: insert_by key x l'
  end.

Definition order_by {A} (key : A → Z) (l : list A) : list A :=
  foldr (insert_by key) [] l.

(** Go slice expression [s[low:high]] on a slice whose capacity is not
    exceeded by [high]; out-of-range bounds panic. *)
Definition slice {A} (s : list A) (low high : Z) : M (list A) :=
  if (0 <=? low) && (low <=? high) && (high <=? Z.of_nat (length s))
  then mret (take (Z.to_nat (high - low)) (drop (Z.to_nat low) s))
  else panic "slice bounds out of range".

(** ** Keys of the registries *)

(** [fmt.Sprintf(`%s_%s`, warehouse.Destination.ID, warehouse.Namespace)] *)
Definition workerIdentifier (warehouse : WarehouseT) : string :=
  Destination_ID (Destination warehouse) +:+ "_" +:+ Namespace warehouse.

(** [fmt.Sprintf(`source:%s:destination:%s`, ...)] *)
Definition connectionString (warehouse : WarehouseT) : string :=
  "source:" +:+ Source_ID (Source warehouse) +:+
  ":destination:" +:+ Destination_ID (Destination warehouse).

Definition setDestInProgress (warehouse : WarehouseT) (starting : bool) : M unit :=
  modify (λ w,
    if starting
    then set_inProgressMap (<[connectionString warehouse := true]> (inProgressMap w)) w
    else set_inProgressMap (delete (connectionString warehouse) (inProgressMap w)) w).

Definition isDestInProgress (warehouse : WarehouseT) : M bool :=
  gets (λ w, default false (inProgressMap w !! connectionString warehouse)).

(** [misc.Contains] on a slice of strings. *)
Definition Contains (l : list string) (s : string) : bool :=
  existsb (String.eqb s) l.

(** ** Row predicates of the queries *)

Definition stagingFileOfPair (warehouse : WarehouseT) (r : StagingFileRow) : bool :=
  String.eqb (sf_source_id r) (Source_ID (Source warehouse)) &&
  String.eqb (sf_destination_id r) (Destination_ID (Destination warehouse)).

Definition uploadOfPair (dtype : string) (warehouse : WarehouseT) (r : UploadRow) : bool :=
  String.eqb (up_destination_type r) dtype &&
  String.eqb (up_source_id r) (Source_ID (Source warehouse)) &&
  String.eqb (up_destination_id r) (Destination_ID (Destination warehouse)).

Definition isTerminal (r : UploadRow) : bool :=
  String.eqb (up_status r) ExportedDataState || String.eqb (up_status r) AbortedState.

Definition isInterrupted (r : UploadRow) : bool :=
  String.eqb (up_status r) ExportingDataState ||
  String.eqb (up_status r) ExportingDataFailedState.

(** Modelled from the spec: [warehouseutils.TimingFromJSONString] and the
    [gjson] lookup are outside warehouse.go; per the spec they extract the
    first and last transition of the [timings] array and, from the [error]
    map, the attempt counter of the last state. *)
Definition TimingFromJSONString (t : option (string * Time)) : string * Time :=
  match t with
  | Some (status, at_) => (status, at_)
  | None => (EmptyString, zeroTime)
  end.

(** Modelled from the spec: the attempt counter recorded in the [error]
    column for the given state, zero when there is none
    ([gjson.Get(error, lastStatus + ".attempt").Int()]). *)
Definition attemptOf (error : gmap string Z) (lastStatus : string) : Z :=
  default 0 (error !! lastStatus).

Definition uploadOfRow (r : UploadRow) : UploadT :=
  let firstTiming := head (up_timings r) in
  let lastTiming := last (up_timings r) in
  let lastStatus := fst (TimingFromJSONString lastTiming) in
  {| Upload_ID := up_id r;
     Upload_Namespace := up_namespace r;
     Upload_SourceID := up_source_id r;
     Upload_DestinationID := up_destination_id r;
     Upload_DestinationType := up_destination_type r;
     Upload_StartStagingFileID := up_start_staging_file_id r;
     Upload_EndStagingFileID := up_end_staging_file_id r;
     Upload_StartLoadFileID := up_start_load_file_id r;
     Upload_EndLoadFileID := up_end_load_file_id r;
     Upload_Status := up_status r;
     Upload_Schema := up_schema r;
     Upload_Error := up_error r;
     Upload_FirstAttemptAt := snd (TimingFromJSONString firstTiming);
     Upload_LastAttemptAt := snd (TimingFromJSONString lastTiming);
     Upload_Attempts := attemptOf (up_error r) lastStatus |}.

(** Modelled from the spec: [warehouseutils.GetConfigValue] is outside
    warehouse.go; it reads a string setting of the destination config and
    yields the empty string when the setting is unset. *)
Definition GetConfigValue (key : string) (warehouse : WarehouseT) : string :=
  match Destination_Config (Destination warehouse) with
  | IMap m => match m !! key with Some (IString s) => s | _ => EmptyString end
  | _ => EmptyString
  end.

Section Router.

(** Installed configuration. *)
Variable cfg : Config.

(** [timeutil.Now()]: the n-th reading of the clock. *)
Variable clock : nat → Time.

(** [manager.New(destType)]; [None] is the error result. *)
Variable managerNew : string → option string.

(** [whManager.CrashRecover(warehouse)]: the driver works on the
    warehouse and the metadata database only. *)
Variable CrashRecover :
  string → WarehouseT → Database → Database * option string.

(** [job.run()]: the upload pipeline; it may update the upload record
    behind [job.upload] and the metadata database. *)
Variable run :
  UploadJobT → list UploadT → Database → list UploadT * Database * option string.

(** Helpers of [warehouseutils] and [strings] used by [getNamespace]. *)
Variable ToProviderCase : string → string → string.
Variable ToSafeNamespace : string → string → string.
Variable GetNamespace : SourceT → DestinationT → Database → string * bool.
Variable TrimSpace : string → string.

Definition Now : M Time :=
  λ w, Ok (clock (nowCalls w)) (set_nowCalls (S (nowCalls w)) w).

Definition newManager (dtype : string) : M string :=
  match managerNew dtype with
  | Some m => mret m
  | None => panic "manager.New"
  end.

(** *** getNamespace *)

Definition getNamespace (config : Iface) (source : SourceT)
    (destination : DestinationT) (dtype : string) : M string :=
  match config with
  | IMap configMap =>
      if String.eqb dtype "CLICKHOUSE" then
        match configMap !! "database"%string with
        | Some (IString database) => mret database
        | _ => panic "interface conversion: interface {} is not string"
        end
      else
        let fallback : M string :=
          d ← gets db;
          let '(namespace, exists_) := GetNamespace source destination d in
          if exists_ then mret namespace
          else mret (ToProviderCase dtype (ToSafeNamespace dtype (Source_Name source))) in
        match configMap !! "namespace"%string with
        | None | Some INil => fallback
        | Some (IString namespace) =>
            if negb (String.eqb (TrimSpace namespace) EmptyString)
            then mret (ToProviderCase dtype (ToSafeNamespace dtype namespace))
            else fallback
        | Some _ => panic "interface conversion: interface {} is not string"
        end
  | _ => panic "interface conversion: interface {} is not map[string]interface {}"
  end.

(** *** getStagingFiles *)

Definition getStagingFiles (warehouse : WarehouseT) (startID endID : Z)
    : M (list StagingFileT) :=
  emit (EvGetStagingFiles warehouse startID endID);;
  d ← gets db;
  let rows :=
    order_by sf_id
      (List.filter
         (λ r, (startID <=? sf_id r) && (sf_id r <=? endID) &&
               stagingFileOfPair warehouse r)
         (wh_staging_files d)) in
  mret (map (λ r, {| StagingFile_ID := sf_id r;
                     StagingFile_Location := sf_location r;
                     StagingFile_FirstEventAt := zeroTime;
                     StagingFile_LastEventAt := zeroTime |}) rows).

(** *** getPendingStagingFiles *)

(** The first statement: [QueryRow(...).Scan(&lastStagingFileID)] keeps the
    first row of the ordered result, or leaves the zero value when there
    is no row. *)
Definition lastStagingFileIDOf (warehouse : WarehouseT) (d : Database) : Z :=
  let rows :=
    order_by (λ r, - up_id r)
      (List.filter (λ r, uploadOfPair (Type_ warehouse) warehouse r && isTerminal r)
         (wh_uploads d)) in
  match rows with
  | r :: _ => up_end_staging_file_id r
  | [] => 0
  end.

Definition pendingStagingRows (warehouse : WarehouseT) (d : Database)
    : list StagingFileRow :=
  order_by sf_id
    (List.filter
       (λ r, (lastStagingFileIDOf warehouse d <? sf_id r) &&
             stagingFileOfPair warehouse r)
       (wh_staging_files d)).

Definition stagingFileOfRow (r : StagingFileRow) : StagingFileT :=
  {| StagingFile_ID := sf_id r;
     StagingFile_Location := sf_location r;
     StagingFile_FirstEventAt := default zeroTime (sf_first_event_at r);
     StagingFile_LastEventAt := default zeroTime (sf_last_event_at r) |}.

Definition getPendingStagingFiles (warehouse : WarehouseT)
    : M (list StagingFileT) :=
  emit (EvGetPendingStagingFiles warehouse);;
  d ← gets db;
  mret (map stagingFileOfRow (pendingStagingRows warehouse d)).

(** *** initUpload *)

Definition insertUpload (r : UploadRow) (d : Database) : Database :=
  {| wh_uploads := wh_uploads d ++ [r];
     wh_staging_files := wh_staging_files d;
     wh_uploads_id_seq := wh_uploads_id_seq d + 1 |}.

(** The row [initUpload] inserts and the [UploadT] it returns, for a
    batch whose first and last staging files are [first] and [last_]. *)
Definition newUploadRow (wh : HandleT) (warehouse : WarehouseT) (uploadID : Z)
    (first last_ : StagingFileT) (now : Time) : UploadRow :=
  let firstEventAt :=
    if negb (IsZero (StagingFile_FirstEventAt first))
    then StagingFile_FirstEventAt first else zeroTime in
  let lastEventAt :=
    if negb (IsZero (StagingFile_LastEventAt last_))
    then StagingFile_LastEventAt last_ else zeroTime in
  {| up_id := uploadID;
     up_source_id := Source_ID (Source warehouse);
     up_namespace := Namespace warehouse;
     up_destination_id := Destination_ID (Destination warehouse);
     up_destination_type := destType wh;
     up_start_staging_file_id := StagingFile_ID first;
     up_end_staging_file_id := StagingFile_ID last_;
     up_start_load_file_id := 0;
     up_end_load_file_id := 0;
     up_status := WaitingState;
     up_schema := "{}";
     up_error := ∅;
     up_timings := [];
     up_first_event_at := firstEventAt;
     up_last_event_at := lastEventAt;
     up_created_at := now;
     up_updated_at := now |}.

Definition newUpload (wh : HandleT) (warehouse : WarehouseT) (uploadID : Z)
    (first last_ : StagingFileT) : UploadT :=
  {| Upload_ID := uploadID;
     Upload_Namespace := Namespace warehouse;
     Upload_SourceID := Source_ID (Source warehouse);
     Upload_DestinationID := Destination_ID (Destination warehouse);
     Upload_DestinationType := destType wh;
     Upload_StartStagingFileID := StagingFile_ID first;
     Upload_EndStagingFileID := StagingFile_ID last_;
     Upload_StartLoadFileID := 0;
     Upload_EndLoadFileID := 0;
     Upload_Status := WaitingState;
     Upload_Schema := EmptyString;
     Upload_Error := ∅;
     Upload_FirstAttemptAt := zeroTime;
     Upload_LastAttemptAt := zeroTime;
     Upload_Attempts := 0 |}.

Definition initUpload (wh : HandleT) (warehouse : WarehouseT)
    (jsonUploadsList : list StagingFileT) : M UploadT :=
  match head jsonUploadsList, last jsonUploadsList with
  | Some first, Some last_ =>
      now ← Now;
      d ← gets db;
      let uploadID := wh_uploads_id_seq d in
      modify (set_db (insertUpload
                        (newUploadRow wh warehouse uploadID first last_ now) d));;
      let upload_ := newUpload wh warehouse uploadID first last_ in
      emit (EvInitUpload warehouse upload_);;
      mret upload_
  | _, _ => panic "index out of range"
  end.

(** *** getPendingUploads *)

Definition pendingUploadRows (wh : HandleT) (warehouse : WarehouseT)
    (d : Database) : list UploadRow :=
  order_by up_id
    (List.filter (λ r, uploadOfPair (destType wh) warehouse r && negb (isTerminal r))
       (wh_uploads d)).

Definition getPendingUploads (wh : HandleT) (warehouse : WarehouseT)
    : M (list UploadT * bool) :=
  emit (EvGetPendingUploads warehouse);;
  d ← gets db;
  let uploads := map uploadOfRow (pendingUploadRows wh warehouse d) in
  let anyPending := (0 <? Z.of_nat (length uploads)) in
  mret (uploads, anyPending).

(** *** Frequency gate *)

Definition freqInSOf (syncFrequency : string) : Z :=
  if String.eqb syncFrequency EmptyString then uploadFreqInS cfg
  else
    let freqInMin := fst (strconv.ParseInt syncFrequency) in
    Int64.mul freqInMin 60.

Definition uploadFrequencyExceeded (warehouse : WarehouseT)
    (syncFrequency : string) : M bool :=
  let freqInS := freqInSOf syncFrequency in
  m ← gets lastExecMap;
  match m !! connectionString warehouse with
  | Some lastExecTime =>
      now ← Now;
      mret (Int64.sub (Unix now) lastExecTime <? freqInS)
  | None => mret false
  end.

Definition setLastExec (warehouse : WarehouseT) : M unit :=
  now ← Now;
  modify (λ w, set_lastExecMap
                 (<[connectionString warehouse := Unix now]> (lastExecMap w)) w);;
  emit (EvSetLastExec (connectionString warehouse) (Unix now)).

(** Modelled from the spec: [canStartUpload] is defined outside
    warehouse.go.  Per the spec a pair may start iff no upload has been
    started within [syncFrequency] minutes (or the default
    [uploadFreqInS]) for that pair. *)
Definition canStartUpload (wh : HandleT) (warehouse : WarehouseT) : M bool :=
  exceeded ← uploadFrequencyExceeded warehouse (GetConfigValue "syncFrequency" warehouse);
  mret (negb exceeded).

(** *** Retry gate *)

(** Modelled from the spec: [canStartPendingUpload] is defined outside
    warehouse.go.  Per the spec a pending upload is allowed to start iff
    [attempts < minRetryAttempts] or [now - firstAttemptAt < retryTimeWindow]. *)
Definition retryGate (now : Time) (u : UploadT) : bool :=
  (Upload_Attempts u <? minRetryAttempts cfg) ||
  (now - Upload_FirstAttemptAt u <? retryTimeWindow cfg).

(** Modelled from the spec: [canStartPendingUpload] reads the clock and
    applies the retry gate to the upload. *)
Definition canStartPendingUpload (wh : HandleT) (u : UploadT)
    (warehouse : WarehouseT) : M bool :=
  now ← Now;
  mret (retryGate now u).

(** *** enqueueUploadJobs *)

(** The send on the worker's channel is recorded as an event; whether the
    send has to wait for room in the channel is not modelled. *)
Definition enqueueUploadJobs (uploads : list UploadJobT)
    (warehouse : WarehouseT) : M unit :=
  emit (EvEnqueue (workerIdentifier warehouse) uploads).

(** *** mainLoop: the pending-uploads path *)

(** The [range] loop over [pendingUploads].  [pendingUpload] is the
    location of the single loop variable: every iteration assigns the
    next element to it, and every job built in the loop keeps its
    address. *)
Fixpoint pendingUploadsLoop (wh : HandleT) (warehouse : WarehouseT)
    (pendingUpload : loc) (pendingUploads : list UploadT)
    (uploadJobs : list UploadJobT) : M (list UploadJobT) :=
  match pendingUploads with
  | [] => mret uploadJobs
  | u :: rest =>
      store pendingUpload u;;
      can ← canStartPendingUpload wh u warehouse;
      if negb can then
        setDestInProgress warehouse false;;
        mret uploadJobs
      else
        stagingFilesList ←
          getStagingFiles warehouse (Upload_StartStagingFileID u)
            (Upload_EndStagingFileID u);
        whManager_ ← newManager (destType wh);
        let uploadJob :=
          {| upload := pendingUpload;
             stagingFiles := stagingFilesList;
             warehouse := warehouse;
             whManager := whManager_ |} in
        pendingUploadsLoop wh warehouse pendingUpload rest
          (uploadJobs ++ [uploadJob])
  end.

(** *** mainLoop: the fresh-uploads path *)

(** The [for] loop that cuts the pending staging files into batches.
    [upload] is declared inside the body, so each iteration has its own
    variable and [&upload] is a new location. *)
Fixpoint batchLoop (fuel : nat) (wh : HandleT) (warehouse : WarehouseT)
    (stagingFilesList : list StagingFileT) (count : Z)
    (uploadJobs : list UploadJobT) : M (list UploadJobT) :=
  match fuel with
  | O => outOfFuel
  | S fuel' =>
      let len := Z.of_nat (length stagingFilesList) in
      let lastIndex := Int64.add count (stagingFilesBatchSize cfg) in
      let lastIndex := if len <=? lastIndex then len else lastIndex in
      chunk ← slice stagingFilesList count lastIndex;
      upload_ ← initUpload wh warehouse chunk;
      whManager_ ← newManager (destType wh);
      l ← alloc upload_;
      let job :=
        {| upload := l;
           stagingFiles := chunk;
           warehouse := warehouse;
           whManager := whManager_ |} in
      let uploadJobs := uploadJobs ++ [job] in
      let count := Int64.add count (stagingFilesBatchSize cfg) in
      if len <=? count then mret uploadJobs
      else batchLoop fuel' wh warehouse stagingFilesList count uploadJobs
  end.

(** *** mainLoop: crash recovery *)

Definition crashRecover (whManager_ : string) (warehouse : WarehouseT)
    : M (option string) :=
  λ w, let '(d, err) := CrashRecover whManager_ warehouse (db w) in
       Ok err (set_trace (trace w ++ [EvCrashRecover warehouse (bool_decide (is_Some err))])
                 (set_db d w)).

(** Lines 489-502.  The result tells whether the iteration goes on
    ([false] stands for the [continue] after a failed recovery). *)
Definition recoveryGate (wh : HandleT) (warehouse : WarehouseT) : M bool :=
  recovery ← gets (λ w, inRecoveryMap w !! Destination_ID (Destination warehouse));
  match recovery with
  | Some _ =>
      whManager_ ← newManager (destType wh);
      err ← crashRecover whManager_ warehouse;
      match err with
      | Some _ =>
          setDestInProgress warehouse false;;
          mret false
      | None =>
          modify (λ w, set_inRecoveryMap
                         (delete (Destination_ID (Destination warehouse))
                                 (inRecoveryMap w)) w);;
          mret true
      end
  | None => mret true
  end.

(** Lines 506-539. *)
Definition pendingPath (wh : HandleT) (warehouse : WarehouseT)
    (pendingUploads : list UploadT) : M unit :=
  pendingUpload ← alloc zeroUpload;
  uploadJobs ← pendingUploadsLoop wh warehouse pendingUpload pendingUploads [];
  if (length uploadJobs =? 0)%nat then mret tt
  else enqueueUploadJobs uploadJobs warehouse.

(** Lines 541-589. *)
Definition freshPath (wh : HandleT) (warehouse : WarehouseT) : M unit :=
  can ← canStartUpload wh warehouse;
  if negb can then setDestInProgress warehouse false
  else
    setLastExec warehouse;;
    stagingFilesList ← getPendingStagingFiles warehouse;
    if (length stagingFilesList =? 0)%nat then setDestInProgress warehouse false
    else
      uploadJobs ← batchLoop (length stagingFilesList) wh warehouse stagingFilesList 0 [];
      enqueueUploadJobs uploadJobs warehouse.

(** The body of [for _, warehouse := range warehouses]. *)
Definition mainLoopWarehouse (wh : HandleT) (warehouse : WarehouseT) : M unit :=
  inProgress ← isDestInProgress warehouse;
  if (inProgress : bool) then (mret tt : M unit)
  else
    setDestInProgress warehouse true;;
    proceed ← recoveryGate wh warehouse;
    if negb proceed then (mret tt : M unit)
    else
      '(pendingUploads, ok) ← getPendingUploads wh warehouse;
      if (ok : bool) then pendingPath wh warehouse pendingUploads
      else freshPath wh warehouse.

Fixpoint forWarehouses (wh : HandleT) (ws : list WarehouseT) : M unit :=
  match ws with
  | [] => mret tt
  | warehouse :: rest => mainLoopWarehouse wh warehouse;; forWarehouses wh rest
  end.

(** One iteration of the outer [for] of [mainLoop] (the sleeps between
    iterations are not modelled). *)
Definition mainLoopTick (wh : HandleT) : M unit :=
  if negb (isEnabled wh) then mret tt
  else forWarehouses wh (warehouses wh).

(** *** handleUploadJobs: the job loop (lines 161-175) *)

Definition runJob (job : UploadJobT) : M (option string) :=
  λ w, let '(h, d, err) := run job (heap w) (db w) in
       Ok err (set_trace (trace w ++ [EvRun job (bool_decide (is_Some err))])
                 (set_db d (set_heap h w))).

(** Modelled from the spec: [recordDeliveryStatus], [onSuccessfulUpload]
    and the [DestStat] counters are defined outside warehouse.go; each
    call is recorded as an event.  [recordDeliveryStatus] is passed
    [job.upload.ID], read through the pointer after [run] has returned. *)
Definition recordDeliveryStatus (job : UploadJobT) : M unit :=
  h ← gets heap;
  emit (EvRecordDeliveryStatus (Destination_ID (Destination (warehouse job)))
          (Upload_ID (deref h (upload job)))).

Fixpoint jobLoop (jobs : list UploadJobT) : M unit :=
  match jobs with
  | [] => mret tt
  | job :: rest =>
      err ← runJob job;
      recordDeliveryStatus job;;
      match err with
      | Some _ =>
          emit (EvFailedUploads (Destination_ID (Destination (warehouse job))) 1)
      | None =>
          emit (EvOnSuccessfulUpload (warehouse job));;
          emit (EvLoadStagingFiles (Destination_ID (Destination (warehouse job)))
                  (Z.of_nat (length (stagingFiles job))));;
          jobLoop rest
      end
  end.

Definition handleUploadJobsBody (jobs : list UploadJobT) : M unit :=
  match jobs with
  | [] => panic "index out of range"
  | _ :: _ => jobLoop jobs
  end.

(** *** setInterruptedDestinations *)

Definition interruptedRows (wh : HandleT) (d : Database) : list UploadRow :=
  List.filter (λ r, String.eqb (up_destination_type r) (destType wh) && isInterrupted r)
    (wh_uploads d).

Definition markInRecovery (rows : list UploadRow) (m : gmap string bool)
    : gmap string bool :=
  foldl (λ acc r, <[up_destination_id r := true]> acc) m rows.

Definition setInterruptedDestinations (wh : HandleT) : M unit :=
  if negb (Contains (crashRecoverWarehouses cfg) (destType wh)) then mret tt
  else
    d ← gets db;
    modify (λ w, set_inRecoveryMap
                   (markInRecovery (interruptedRows wh d) (inRecoveryMap w)) w).

End Router.

(** * Definitions used by the statements *)

(** Rows ordered by a key. *)
Definition key_le {A} (key : A → Z) (a b : A) : Prop := key a <= key b.

(** ** Pending staging files, in the words of the spec *)

(** The terminal uploads the first statement of [getPendingStagingFiles]
    selects. *)
Definition terminalUploadsOfPair (warehouse : WarehouseT) (d : Database)
    : list UploadRow :=
  List.filter (λ r, uploadOfPair (Type_ warehouse) warehouse r && isTerminal r)
    (wh_uploads d).

(** The pair's uploads in terminal status, whatever their destination type. *)
Definition terminalUploadsOfPairSpec (warehouse : WarehouseT) (d : Database)
    : list UploadRow :=
  List.filter
    (λ r, String.eqb (up_source_id r) (Source_ID (Source warehouse)) &&
          String.eqb (up_destination_id r) (Destination_ID (Destination warehouse)) &&
          isTerminal r)
    (wh_uploads d).

(** The greatest [end_staging_file_id] over the pair's terminal uploads,
    zero when there is none. *)
Definition greatestTerminalEnd (warehouse : WarehouseT) (d : Database) : Z :=
  match map up_end_staging_file_id (terminalUploadsOfPairSpec warehouse d) with
  | [] => 0
  | e :: es => foldr Z.max e es
  end.

(** A staging file row belongs to the binding's (source, destination) pair. *)
Definition ofPair (warehouse : WarehouseT) (r : StagingFileRow) : Prop :=
  sf_source_id r = Source_ID (Source warehouse) ∧
  sf_destination_id r = Destination_ID (Destination warehouse).

(** ** Concrete bindings and tables used in the examples *)

Module Scenario.
Definition src : SourceT := {| Source_ID := "S"; Source_Name := "events" |}.

Definition dst (dtype : string) : DestinationT :=
  {| Destination_ID := "D"; Destination_Name := "warehouse";
     Destination_Config := IMap ∅; Destination_Enabled := true;
     DestinationDefinition_Name := dtype |}.

Definition binding (dtype : string) : WarehouseT :=
  {| Source := src; Destination := dst dtype;
     Namespace := "ns"; Type_ := dtype |}.

Definition router (dtype : string) : HandleT :=
  {| destType := dtype; warehouses := [binding dtype]; isEnabled := true |}.

Definition stagingRow (id : Z) : StagingFileRow :=
  {| sf_id := id; sf_location := "s3://staging"; sf_source_id := "S";
     sf_destination_id := "D"; sf_first_event_at := None;
     sf_last_event_at := None |}.

Definition uploadRow (dtype : string) (id startID endID : Z) (status : string)
    (error : gmap string Z) (timings : list (string * Time)) : UploadRow :=
  {| up_id := id; up_source_id := "S"; up_namespace := "ns";
     up_destination_id := "D"; up_destination_type := dtype;
     up_start_staging_file_id := startID; up_end_staging_file_id := endID;
     up_start_load_file_id := 0; up_end_load_file_id := 0;
     up_status := status; up_schema := "{}"; up_error := error;
     up_timings := timings; up_first_event_at := zeroTime;
     up_last_event_at := zeroTime; up_created_at := zeroTime;
     up_updated_at := zeroTime |}.

Definition world (uploads : list UploadRow) (files : list StagingFileRow) : World :=
  {| db := {| wh_uploads := uploads; wh_staging_files := files;
              wh_uploads_id_seq := 1 + Z.of_nat (length uploads) |};
     heap := []; inProgressMap := ∅; inRecoveryMap := ∅; lastExecMap := ∅;
     nowCalls := 0; trace := [] |}.

(** A clock that starts at 2020-09-13T12:26:40Z and advances one second
    per reading. *)
Definition startTime : Time := 1600000000 * Second.
Definition clock (n : nat) : Time := startTime + Z.of_nat n * Second.

(** A manager exists for every destination type of [WarehouseDestinations]. *)
Definition managerNew (dtype : string) : option string :=
  if Contains ["RS"; "BQ"; "SNOWFLAKE"; "POSTGRES"; "CLICKHOUSE"]%string dtype
  then Some dtype else None.

Definition recoverOk (m : string) (wh : WarehouseT) (d : Database)
    : Database * option string := (d, None).
Definition recoverFail (m : string) (wh : WarehouseT) (d : Database)
    : Database * option string := (d, Some "crash recovery failed"%string).

(** Two terminal uploads whose ranges are not in upload-id order, and one
    staging file between the two range ends. *)
Definition outOfOrderWorld : World :=
  world [uploadRow "POSTGRES" 1 201 400 ExportedDataState ∅ [];
         uploadRow "POSTGRES" 2 1 200 ExportedDataState ∅ []]
        [stagingRow 300].
End Scenario.

(** Tables as the scheduler leaves them: uploads 1 and 2 of the pair are
    terminal and cover [1..200] and [201..400]; staging files 300, 450 and
    401 are registered. *)
Module OrderedScenario.
Import Scenario.

Definition exported : World :=
  world [uploadRow "POSTGRES" 1 1 200 ExportedDataState ∅ [];
         uploadRow "POSTGRES" 2 201 400 AbortedState ∅ []]
        [stagingRow 300; stagingRow 450; stagingRow 401].
End OrderedScenario.

(** ** Frames: what a computation leaves alone *)

(** [Preserves R c]: from any state, [c] ends (returning, panicking or out
    of fuel) in a state related to the initial one by [R]. *)
Definition Preserves {A} (R : relation World) (c : M A) : Prop :=
  ∀ w, R w (final (c w)).

(** A frame relation is a preorder that holds across every update of the
    trace, the heap, the database, the clock and [inProgressMap]. *)
Class Frame (R : relation World) := {
  frame_preorder :: PreOrder R;
  frame_trace w es : R w (set_trace (trace w ++ es) w);
  frame_heap w h : R w (set_heap h w);
  frame_db w d : R w (set_db d w);
  frame_nowCalls w n : R w (set_nowCalls n w);
  frame_inProgressMap w m : R w (set_inProgressMap m w)
}.

(** The trace only grows and [lastExecMap] is untouched. *)
Definition keepsLastExec : relation World :=
  λ w w', lastExecMap w' = lastExecMap w ∧ trace w `prefix_of` trace w'.

(** The trace only grows and [inRecoveryMap] is untouched. *)
Definition keepsRecovery : relation World :=
  λ w w', inRecoveryMap w' = inRecoveryMap w ∧ trace w `prefix_of` trace w'.

(** ** The frequency gate, in the words of the spec *)

(** No upload of the pair has been started within the last [freqInS]
    seconds: there is no [lastExec] entry, or it is at least [freqInS]
    seconds old at the time the gate reads the clock. *)
Definition frequencyGateAdmits (cfg : Config) (clock : nat → Time)
    (warehouse : WarehouseT) (w : World) : bool :=
  match lastExecMap w !! connectionString warehouse with
  | None => true
  | Some lastExecTime =>
      freqInSOf cfg (GetConfigValue "syncFrequency" warehouse)
        <=? Int64.sub (Unix (clock (nowCalls w))) lastExecTime
  end.

(** The clock reading [setLastExec] takes when the gate admits: the gate
    itself reads the clock only if the pair has a [lastExec] entry. *)
Definition lastExecReading (clock : nat → Time) (warehouse : WarehouseT)
    (w : World) : Z :=
  match lastExecMap w !! connectionString warehouse with
  | None => Unix (clock (nowCalls w))
  | Some _ => Unix (clock (S (nowCalls w)))
  end.

(** The state in which the gate leaves a pair it does not admit. *)
Definition frequencyBlocked (warehouse : WarehouseT) (w : World) : World :=
  set_inProgressMap (delete (connectionString warehouse) (inProgressMap w))
    (set_nowCalls (S (nowCalls w)) w).

(** ** Retry-gate scenario (S5) *)

Module RetryScenario.
Import Scenario.

(** A pending upload whose last state failed with the given attempt
    counter and whose first transition happened at [firstAttemptAt]. *)
Definition pendingRow (attempts : Z) (firstAttemptAt : Time) : UploadRow :=
  uploadRow "POSTGRES" 1 1 3 ExportingDataFailedState
    {[ ExportingDataFailedState := attempts ]}
    [("generating_load_file"%string, firstAttemptAt);
     (ExportingDataFailedState, firstAttemptAt + 5 * Minute)].

Definition retryWorld (attempts : Z) (firstAttemptAt : Time) : World :=
  world [pendingRow attempts firstAttemptAt]
        [stagingRow 1; stagingRow 2; stagingRow 3].

(** The binding is marked in progress, as [mainLoop] does before it looks
    for pending uploads. *)
Definition inProgressWorld (attempts : Z) (firstAttemptAt : Time) : World :=
  set_inProgressMap {[ connectionString (binding "POSTGRES") := true ]}
    (retryWorld attempts firstAttemptAt).

Definition tick (w : World) : Result unit :=
  mainLoopWarehouse loadConfig clock managerNew recoverOk
    (router "POSTGRES") (binding "POSTGRES") w.

Definition enqueued (w : World) : list (string * nat) :=
  omap (λ e, match e with
             | EvEnqueue name jobs => Some (name, length jobs)
             | _ => None
             end) (trace w).
End RetryScenario.

(** ** Two pending uploads of one pair *)

Module PendingScenario.
Import Scenario.

Definition twoPending : World :=
  world [uploadRow "POSTGRES" 1 1 2 WaitingState ∅ [];
         uploadRow "POSTGRES" 2 3 4 WaitingState ∅ []]
        [stagingRow 1; stagingRow 2; stagingRow 3; stagingRow 4].

Definition tick (w : World) : Result unit :=
  mainLoopWarehouse loadConfig clock managerNew recoverOk
    (router "POSTGRES") (binding "POSTGRES") w.

(** The batches sent to workers, each job with the upload its [upload]
    pointer refers to when the iteration ends and the ids of its staging
    files. *)
Definition enqueuedJobs (w : World) : list (list (loc * Z * Z * Z * list Z)) :=
  omap (λ e, match e with
             | EvEnqueue _ jobs =>
                 Some (map (λ job,
                              let u := deref (heap w) (upload job) in
                              (upload job, Upload_ID u,
                               Upload_StartStagingFileID u,
                               Upload_EndStagingFileID u,
                               map StagingFile_ID (stagingFiles job))) jobs)
             | _ => None
             end) (trace w).
End PendingScenario.

(** ** What a worker does with a batch, in the words of the spec *)

Definition destinationOf (job : UploadJobT) : string :=
  Destination_ID (Destination (warehouse job)).

(** A job that succeeded: it ran, its delivery status was recorded, the
    success hook fired and the load metric was counted. *)
Definition successEvents (job : UploadJobT) (uploadID : Z) : list Event :=
  [EvRun job false;
   EvRecordDeliveryStatus (destinationOf job) uploadID;
   EvOnSuccessfulUpload (warehouse job);
   EvLoadStagingFiles (destinationOf job) (Z.of_nat (length (stagingFiles job)))].

(** A job that failed: it ran, its delivery status was recorded and the
    failure counter was incremented. *)
Definition failureEvents (job : UploadJobT) (uploadID : Z) : list Event :=
  [EvRun job true;
   EvRecordDeliveryStatus (destinationOf job) uploadID;
   EvFailedUploads (destinationOf job) 1].

Section BatchRun.
Variable run :
  UploadJobT → list UploadT → Database → list UploadT * Database * option string.

(** [BatchRun h d jobs outcomes events]: starting with heap [h] and
    database [d], the jobs are run one after the other in batch order;
    [outcomes] lists the jobs that were run with whether they failed, and
    [events] what the worker did.  The first job whose [run] returns an
    error is the last one run. *)
Inductive BatchRun : list UploadT → Database → list UploadJobT →
    list (UploadJobT * bool) → list Event → Prop :=
| BatchRun_done h d :
    BatchRun h d [] [] []
| BatchRun_success h d job rest h' d' outcomes events :
    run job h d = (h', d', None) →
    BatchRun h' d' rest outcomes events →
    BatchRun h d (job :: rest) ((job, false) :: outcomes)
      (successEvents job (Upload_ID (deref h' (upload job))) ++ events)
| BatchRun_failure h d job rest h' d' msg :
    run job h d = (h', d', Some msg) →
    BatchRun h d (job :: rest) [(job, true)]
      (failureEvents job (Upload_ID (deref h' (upload job)))).
End BatchRun.

(** ** Admission of workers (handleUploadJobs, lines 142-158 and 177-180)

    Workers run concurrently.  Each worker is at one of the program points
    below; an action of the schedule lets one worker execute the statement
    it is at, or spawns a worker ([initWorker]).  A worker that is at a
    [Lock()] while another worker holds [activeWorkerCountLock] does not
    move. *)

Module Admission.
Inductive pc :=
| Idle                      (* blocked on <-workerChan *)
| Lock1                     (* line 146: activeWorkerCountLock.Lock() *)
| Read                      (* line 147: activeWorkers := activeWorkerCount *)
| Check (activeWorkers : Z) (* line 148: if activeWorkers >= noOfWorkers *)
| UnlockSleep               (* line 149: Unlock() before sleeping *)
| Sleep                     (* lines 152-153: Sleep(workerRetrySleep); continue *)
| Incr                      (* line 155: activeWorkerCount++ *)
| Unlock1                   (* lines 156-157: Unlock(); break *)
| Run                       (* lines 161-175: the job loop *)
| Lock2                     (* line 178: activeWorkerCountLock.Lock() *)
| Decr                      (* line 179: activeWorkerCount-- *)
| Unlock2.                  (* line 180: Unlock() *)

Record state := {
  activeWorkerCount : Z;
  activeWorkerCountLock : option nat;   (* the worker holding the lock *)
  workers : list pc
}.

Definition init : state :=
  {| activeWorkerCount := 0; activeWorkerCountLock := None; workers := [] |}.

Definition goto (i : nat) (p : pc) (s : state) : state :=
  {| activeWorkerCount := activeWorkerCount s;
     activeWorkerCountLock := activeWorkerCountLock s;
     workers := <[i := p]> (workers s) |}.

Definition lock (i : nat) (p : pc) (s : state) : state :=
  match activeWorkerCountLock s with
  | Some _ => s
  | None =>
      {| activeWorkerCount := activeWorkerCount s;
         activeWorkerCountLock := Some i;
         workers := <[i := p]> (workers s) |}
  end.

Definition unlock (i : nat) (p : pc) (s : state) : state :=
  {| activeWorkerCount := activeWorkerCount s;
     activeWorkerCountLock := None;
     workers := <[i := p]> (workers s) |}.

Definition assign (i : nat) (count : Z) (p : pc) (s : state) : state :=
  {| activeWorkerCount := count;
     activeWorkerCountLock := activeWorkerCountLock s;
     workers := <[i := p]> (workers s) |}.

(** Worker [i] executes the statement it is at. *)
Definition stepWorker (noOfWorkers : Z) (i : nat) (s : state) : state :=
  match workers s !! i with
  | None => s
  | Some Idle => goto i Lock1 s
  | Some Lock1 => lock i Read s
  | Some Read => goto i (Check (activeWorkerCount s)) s
  | Some (Check activeWorkers) =>
      if noOfWorkers <=? activeWorkers then goto i UnlockSleep s
      else goto i Incr s
  | Some UnlockSleep => unlock i Sleep s
  | Some Sleep => goto i Lock1 s
  | Some Incr => assign i (Int64.add (activeWorkerCount s) 1) Unlock1 s
  | Some Unlock1 => unlock i Run s
  | Some Run => goto i Lock2 s
  | Some Lock2 => lock i Decr s
  | Some Decr => assign i (Int64.sub (activeWorkerCount s) 1) Unlock2 s
  | Some Unlock2 => unlock i Idle s
  end.

Inductive action :=
| Spawn                     (* a new worker starts waiting on its channel *)
| Step (i : nat).           (* worker [i] executes one statement *)

Definition perform (noOfWorkers : Z) (s : state) (a : action) : state :=
  match a with
  | Spawn =>
      {| activeWorkerCount := activeWorkerCount s;
         activeWorkerCountLock := activeWorkerCountLock s;
         workers := workers s ++ [Idle] |}
  | Step i => stepWorker noOfWorkers i s
  end.

(** The state after a schedule, from the initial state. *)
Definition exec (noOfWorkers : Z) (schedule : list action) : state :=
  foldl (perform noOfWorkers) init schedule.

(** The worker has incremented the counter and not yet decremented it. *)
Definition holdsSlot (p : pc) : bool :=
  match p with
  | Unlock1 | Run | Lock2 | Decr => true
  | _ => false
  end.

(** The worker is between a [Lock()] and the matching [Unlock()]. *)
Definition holdsLock (p : pc) : bool :=
  match p with
  | Read | Check _ | UnlockSleep | Incr | Unlock1 | Decr | Unlock2 => true
  | _ => false
  end.

Definition b2z (b : bool) : Z := if b then 1 else 0.

Definition slotsHeld (ws : list pc) : Z :=
  Z.of_nat (length (List.filter holdsSlot ws)).

Definition invariant (noOfWorkers : Z) (s : state) : Prop :=
  activeWorkerCount s = slotsHeld (workers s) ∧
  activeWorkerCount s <= noOfWorkers ∧
  (∀ i p, workers s !! i = Some p → holdsLock p = true →
          activeWorkerCountLock s = Some i) ∧
  (∀ i a, workers s !! i = Some (Check a) → a = activeWorkerCount s) ∧
  (∀ i, workers s !! i = Some Incr → activeWorkerCount s < noOfWorkers).

(** Two workers: worker 0 goes through admission into its job loop, then
    worker 1 tries, finds the cap reached, unlocks and sleeps. *)
Definition contendedSchedule : list action :=
  [Spawn; Spawn;
   Step 0; Step 0; Step 0; Step 0; Step 0; Step 0;
   Step 1; Step 1; Step 1; Step 1; Step 1]%nat.
End Admission.

(** ** Interrupted uploads at router setup *)

Module RecoveryScenario.
Import Scenario.

(** An upload of the given destination type that was exporting when the
    process stopped. *)
Definition interruptedWorld (dtype : string) : World :=
  world [uploadRow dtype 1 1 3 ExportingDataState ∅ []]
        [stagingRow 1; stagingRow 2; stagingRow 3].

(** The state after [Setup] has run [setInterruptedDestinations]. *)
Definition afterSetup (dtype : string) : Result unit :=
  setInterruptedDestinations loadConfig (router dtype) (interruptedWorld dtype).

(** The RS binding, known to be interrupted. *)
Definition inRecoveryWorld : World :=
  set_inRecoveryMap {[ "D"%string := true ]} (interruptedWorld "RS").

Definition tick (recover : string → WarehouseT → Database → Database * option string)
    (w : World) : Result unit :=
  mainLoopWarehouse loadConfig clock managerNew recover
    (router "RS") (binding "RS") w.
End RecoveryScenario.

(** The state a successful [CrashRecover] leaves for the binding, the pair
    not marked in progress: the tables are those the driver left, the
    destination is out of the recovery set. *)
Definition recoveredWorld (warehouse : WarehouseT) (d : Database) (w : World)
    : World :=
  set_inRecoveryMap
    (delete (Destination_ID (Destination warehouse)) (inRecoveryMap w))
    (set_trace (trace w ++ [EvCrashRecover warehouse false]) (set_db d w)).

(** The same state once the pair is marked in progress and its pending
    uploads have been looked up. *)
Definition recoveredAndLooked (warehouse : WarehouseT) (d : Database) (w : World)
    : World :=
  let marked :=
    set_inProgressMap (<[connectionString warehouse := true]> (inProgressMap w))
      (recoveredWorld warehouse d w) in
  set_trace (trace marked ++ [EvGetPendingUploads warehouse]) marked.

(** ** Batches of staging files *)

Section Batches.
Variable clock : nat → Time.
Variable wh : HandleT.
Variable binding : WarehouseT.
Variable whManager_ : string.
Variable files : list StagingFileT.
Variable size : nat.                  (* stagingFilesBatchSize *)
Variable w0 : World.                  (* the state in which the loop starts *)

(** The i-th batch: [size] consecutive files from index [i * size]; the
    last batch holds what is left. *)
Definition batchAt (i : nat) : list StagingFileT :=
  take size (drop (i * size) files).

(** The zero value of [StagingFileT]; it stands for the first and last
    file of an empty batch, which the loop never builds. *)
Definition zeroStagingFile : StagingFileT :=
  {| StagingFile_ID := 0; StagingFile_Location := EmptyString;
     StagingFile_FirstEventAt := zeroTime; StagingFile_LastEventAt := zeroTime |}.

Definition firstOf (i : nat) : StagingFileT :=
  default zeroStagingFile (head (batchAt i)).
Definition lastOf (i : nat) : StagingFileT :=
  default zeroStagingFile (last (batchAt i)).

(** The upload created for the i-th batch and the row inserted for it. *)
Definition uploadAt (i : nat) : UploadT :=
  newUpload wh binding (wh_uploads_id_seq (db w0) + Z.of_nat i)
    (firstOf i) (lastOf i).

Definition rowAt (i : nat) : UploadRow :=
  newUploadRow wh binding (wh_uploads_id_seq (db w0) + Z.of_nat i)
    (firstOf i) (lastOf i) (clock (nowCalls w0 + i)).

Definition jobAt (i : nat) : UploadJobT :=
  {| upload := (length (heap w0) + i)%nat;
     stagingFiles := batchAt i;
     warehouse := binding;
     whManager := whManager_ |}.

(** The state after the first [k] batches have been turned into uploads. *)
Definition batchWorld (k : nat) : World :=
  {| db := {| wh_uploads := wh_uploads (db w0) ++ map rowAt (seq 0 k);
              wh_staging_files := wh_staging_files (db w0);
              wh_uploads_id_seq := wh_uploads_id_seq (db w0) + Z.of_nat k |};
     heap := heap w0 ++ map uploadAt (seq 0 k);
     inProgressMap := inProgressMap w0;
     inRecoveryMap := inRecoveryMap w0;
     lastExecMap := lastExecMap w0;
     nowCalls := nowCalls w0 + k;
     trace := trace w0 ++ map (λ i, EvInitUpload binding (uploadAt i)) (seq 0 k) |}.
End Batches.

(** The state in which an admitted pair reaches the batch loop: the gate
    and [setLastExec] have read the clock, [lastExec] is set and the
    pending staging files have been fetched. *)
Definition afterGate (clock : nat → Time) (warehouse : WarehouseT) (w : World) : World :=
  let readings :=
    match lastExecMap w !! connectionString warehouse with
    | None => 1%nat
    | Some _ => 2%nat
    end in
  {| db := db w; heap := heap w; inProgressMap := inProgressMap w;
     inRecoveryMap := inRecoveryMap w;
     lastExecMap := <[connectionString warehouse := lastExecReading clock warehouse w]>
                      (lastExecMap w);
     nowCalls := readings + nowCalls w;
     trace := trace w ++ [EvSetLastExec (connectionString warehouse)
                            (lastExecReading clock warehouse w);
                          EvGetPendingStagingFiles warehouse] |}.

(** ** Chunking scenario (S2) *)

Module ChunkScenario.
Import Scenario.

Definition config : Config :=
  {| noOfWorkers := 8; stagingFilesBatchSize := 200; uploadFreqInS := 1800;
     mainLoopSleep := 60 * Second; workerRetrySleep := 5 * Second;
     crashRecoverWarehouses := ["RS"%string]; minRetryAttempts := 3;
     retryTimeWindow := 180 * Minute |}.

(** 500 staging files, ids 1 to 500, and no upload. *)
Definition seeded : World :=
  world [] (map (λ i, stagingRow (Z.of_nat i)) (seq 1 500)).

Definition tick (w : World) : Result unit :=
  mainLoopWarehouse config clock managerNew recoverOk
    (router "POSTGRES") (binding "POSTGRES") w.

Definition uploads (w : World) : list (Z * Z * Z * string) :=
  map (λ r, (up_id r, up_start_staging_file_id r, up_end_staging_file_id r,
             up_status r)) (wh_uploads (db w)).
End ChunkScenario.

(** * Further parts of warehouse.go *)

(** ** Keys without a separator character *)

(** [lacks c s]: the character [c] does not occur in [s]. *)
Fixpoint lacks (c : ascii) (s : string) : bool :=
  match s with
  | EmptyString => true
  | String c' rest => negb (Ascii.eqb c' c) && lacks c rest
  end.

(** ** handleUploadJobs and initWorker: a worker goroutine (lines 139-193)

    [activeWorkerCount] is shared by all workers.  It is passed explicitly
    through the code of one worker; [others n] is the net change the other
    workers have made to it when this worker takes
    [activeWorkerCountLock] for the n-th time.  Each pass through the
    admission loop takes one unit of fuel; the sleep between two passes is
    not modelled.  [job.run] is the parameter [run] of the job loop. *)

Section Worker.
Variable cfg : Config.
Variable run :
  UploadJobT → list UploadT → Database → list UploadT * Database * option string.
Variable others : nat → Z.

(** The admission loop (lines 142-158).  It returns the number of times
    the lock has been taken and the counter after the increment. *)
Fixpoint admissionLoop (fuel pass : nat) (activeWorkerCount : Z) : M (nat * Z) :=
  match fuel with
  | O => outOfFuel
  | S fuel' =>
      let activeWorkerCount := Int64.add activeWorkerCount (others pass) in
      let activeWorkers := activeWorkerCount in
      if noOfWorkers cfg <=? activeWorkers
      then admissionLoop fuel' (S pass) activeWorkerCount
      else mret (S pass, Int64.add activeWorkerCount 1)
  end.

(** The whole of [handleUploadJobs]: admission, the job loop, and the
    decrement of the counter (lines 177-180). *)
Definition handleUploadJobs (fuel : nat) (jobs : list UploadJobT)
    (activeWorkerCount : Z) : M Z :=
  admitted ← admissionLoop fuel 0 activeWorkerCount;
  handleUploadJobsBody run jobs;;
  let activeWorkerCount := Int64.add admitted.2 (others admitted.1) in
  mret (Int64.sub activeWorkerCount 1).

(** One iteration of the loop of [initWorker] (lines 186-190) for a batch
    received from the worker's channel. *)
Definition initWorkerIteration (fuel : nat) (uploads : list UploadJobT)
    (activeWorkerCount : Z) : M Z :=
  activeWorkerCount ← handleUploadJobs fuel uploads activeWorkerCount;
  match uploads with
  | first :: _ =>
      setDestInProgress (warehouse first) false;;
      mret activeWorkerCount
  | [] => panic "index out of range"
  end.
End Worker.

(** The value of [activeWorkerCount] this worker reads at its [j]-th pass
    through the admission loop, counted from pass [pass] where the counter
    was [activeWorkerCount], while it is not admitted. *)
Fixpoint observedCount (others : nat → Z) (pass : nat) (activeWorkerCount : Z)
    (j : nat) : Z :=
  match j with
  | O => Int64.add activeWorkerCount (others pass)
  | S j' =>
      observedCount others (S pass) (Int64.add activeWorkerCount (others pass)) j'
  end.

Module WorkerScenario.
(** A batch of one job for the postgres binding, whose run succeeds. *)
Definition job : UploadJobT :=
  {| upload := 0%nat; stagingFiles := [];
     warehouse := Scenario.binding "POSTGRES"; whManager := "POSTGRES" |}.

Definition run (job : UploadJobT) (h : list UploadT) (d : Database)
    : list UploadT * Database * option string := (h, d, None).

(** The other workers hold all eight slots at this worker's first pass
    and have released one at its second. *)
Definition others (n : nat) : Z :=
  match n with
  | O => 8
  | S O => -1
  | _ => 0
  end.

Definition busy : World :=
  set_inProgressMap {[ connectionString (Scenario.binding "POSTGRES") := true ]}
    (Scenario.world [] []).
End WorkerScenario.

(** ** Bindings used in the examples of the registries *)

Module KeyScenario.
Definition bindingOf (sourceID destinationID namespace : string) : WarehouseT :=
  {| Source := {| Source_ID := sourceID; Source_Name := "events" |};
     Destination := {| Destination_ID := destinationID;
                       Destination_Name := "warehouse";
                       Destination_Config := IMap ∅;
                       Destination_Enabled := true;
                       DestinationDefinition_Name := "POSTGRES" |};
     Namespace := namespace; Type_ := "POSTGRES" |}.

Definition first : WarehouseT :=
  bindingOf "1fMCVYZboDlYlauh4GFsEo2JU77" "1gABcDeFgHiJkLmNoPqRsTuVwXy" "analytics_prod".

(** Another source writing to the same destination and namespace. *)
Definition otherSource : WarehouseT :=
  bindingOf "1hZyXwVuTsRqPoNmLkJiHgFeDcB" "1gABcDeFgHiJkLmNoPqRsTuVwXy" "analytics_prod".

(** The same pair after its namespace has been changed. *)
Definition otherNamespace : WarehouseT :=
  bindingOf "1fMCVYZboDlYlauh4GFsEo2JU77" "1gABcDeFgHiJkLmNoPqRsTuVwXy" "analytics_next".
End KeyScenario.

(** ** Row predicates of the queries, as propositions *)

(** An upload row of the pair and destination type that is neither Exported
    nor Aborted. *)
Definition pendingOf (dtype : string) (warehouse : WarehouseT) (r : UploadRow) : Prop :=
  up_destination_type r = dtype ∧
  up_source_id r = Source_ID (Source warehouse) ∧
  up_destination_id r = Destination_ID (Destination warehouse) ∧
  up_status r ≠ ExportedDataState ∧ up_status r ≠ AbortedState.

(** ** Fresh-path scenarios *)

Module FreshScenario.
Import Scenario.

(** A pair without uploads and without staging files. *)
Definition idle : World := world [] [].

(** A configuration whose batch size is zero. *)
Definition zeroBatch : Config :=
  {| noOfWorkers := 8; stagingFilesBatchSize := 0; uploadFreqInS := 1800;
     mainLoopSleep := 60 * Second; workerRetrySleep := 5 * Second;
     crashRecoverWarehouses := ["RS"%string]; minRetryAttempts := 3;
     retryTimeWindow := 180 * Minute |}.

(** Three staging files and no upload. *)
Definition threeFiles : World := world [] [stagingRow 1; stagingRow 2; stagingRow 3].
End FreshScenario.

(** ** The pending-uploads path, in terms of its inputs *)

(** The staging files [getStagingFiles] selects for a range. *)
Definition stagingFilesInRange (binding : WarehouseT) (startID endID : Z)
    (d : Database) : list StagingFileT :=
  map (λ r, {| StagingFile_ID := sf_id r;
               StagingFile_Location := sf_location r;
               StagingFile_FirstEventAt := zeroTime;
               StagingFile_LastEventAt := zeroTime |})
    (order_by sf_id
       (List.filter
          (λ r, (startID <=? sf_id r) && (sf_id r <=? endID) &&
                stagingFileOfPair binding r)
          (wh_staging_files d))).

(** The number of leading pending uploads the retry gate admits when the
    first is examined at the [n]-th reading of the clock and each further
    one at the next reading. *)
Fixpoint admittedCount (cfg : Config) (clock : nat → Time) (n : nat)
    (pendingUploads : list UploadT) : nat :=
  match pendingUploads with
  | [] => 0
  | u :: rest =>
      if retryGate cfg (clock n) u then S (admittedCount cfg clock (S n) rest)
      else 0
  end.

Module MixedScenario.
Import Scenario.

(** Upload 1 has not been attempted; upload 2 failed five times, the
    first time four hours before the clock starts. *)
Definition freshThenExhausted : World :=
  world [uploadRow "POSTGRES" 1 1 2 WaitingState ∅ [];
         uploadRow "POSTGRES" 2 3 4 ExportingDataFailedState
           {[ ExportingDataFailedState := 5 ]}
           [("generating_load_file"%string, startTime - 4 * Hour);
            (ExportingDataFailedState, startTime - 3 * Hour)]]
        [stagingRow 1; stagingRow 2; stagingRow 3; stagingRow 4].

Definition pending (w : World) : list UploadT :=
  map uploadOfRow (pendingUploadRows (router "POSTGRES") (binding "POSTGRES") (db w)).
End MixedScenario.

(** ** A router whose bindings are all in progress *)

Module BusyScenario.
Import Scenario.

Definition busy : World :=
  set_inProgressMap {[ connectionString (binding "POSTGRES") := true ]}
    FreshScenario.threeFiles.

Definition tick (wh : HandleT) (w : World) : Result unit :=
  mainLoopTick loadConfig clock managerNew recoverOk wh w.
End BusyScenario.

(** ** Workers that never get a slot *)

Module Starved.
Import Admission.

(** The statements a worker can be at when no slot has ever been
    granted. *)
Definition waiting (p : pc) : bool :=
  match p with
  | Idle | Lock1 | Read | UnlockSleep | Sleep => true
  | Check activeWorkers => activeWorkers =? 0
  | _ => false
  end.

(** No slot is taken and every worker is waiting. *)
Definition starved (s : state) : Prop :=
  activeWorkerCount s = 0 ∧ Forall (λ p, waiting p = true) (workers s).
End Starved.

(** ** monitorDestRouters (lines 666-710), Setup, Enable and Disable

    One config event of [monitorDestRouters] is one iteration of its loop.
    [dstToWhRouter] maps a destination type to its router; the routers are
    held by pointer and changed in place, which for this map is an update
    of the entry. *)

(** The destination types [loadConfig] declares (line 105). *)
Definition WarehouseDestinations : list string :=
  ["RS"; "BQ"; "SNOWFLAKE"; "POSTGRES"; "CLICKHOUSE"].

(** [backendconfig.SourcesT]: the sources of a config event, each with its
    destinations. *)
Definition SourcesT := list (SourceT * list DestinationT).

Definition Enable (wh : HandleT) : HandleT :=
  {| destType := destType wh; warehouses := warehouses wh; isEnabled := true |}.

Definition Disable (wh : HandleT) : HandleT :=
  {| destType := destType wh; warehouses := warehouses wh; isEnabled := false |}.

(** The state of the monitor between config events.  [started] lists the
    destination types for which [Setup] has started the two goroutines of a
    router ([backendConfigSubscriber] and [mainLoop]), oldest first. *)
Record MonitorT := {
  dstToWhRouter : gmap string HandleT;
  started : list string
}.

(** The destination definition names of a config event, in the order the
    loops visit them. *)
Definition definitionNames (sources : SourcesT) : list string :=
  flat_map (λ s, map DestinationDefinition_Name s.2) sources.

Section Monitor.
Variable cfg : Config.

(** [Setup] on a zero-valued [HandleT]. *)
Definition Setup (whType : string) : M HandleT :=
  let wh := {| destType := whType; warehouses := []; isEnabled := false |} in
  setInterruptedDestinations cfg wh;;
  mret (Enable wh).

(** The body of the inner loop (lines 677-695). *)
Definition monitorDestination (destination : DestinationT)
    (st : MonitorT * gmap string bool) : M (MonitorT * gmap string bool) :=
  let name := DestinationDefinition_Name destination in
  let enabledDestinations := <[name := true]> st.2 in
  if Contains WarehouseDestinations name then
    match dstToWhRouter st.1 !! name with
    | None =>
        wh ← Setup name;
        mret ({| dstToWhRouter := <[name := wh]> (dstToWhRouter st.1);
                 started := started st.1 ++ [name] |}, enabledDestinations)
    | Some wh =>
        mret ({| dstToWhRouter := <[name := Enable wh]> (dstToWhRouter st.1);
                 started := started st.1 |}, enabledDestinations)
    end
  else mret (st.1, enabledDestinations).

Fixpoint monitorDestinations (destinations : list DestinationT)
    (st : MonitorT * gmap string bool) : M (MonitorT * gmap string bool) :=
  match destinations with
  | [] => mret st
  | destination :: rest =>
      st' ← monitorDestination destination st;
      monitorDestinations rest st'
  end.

Fixpoint monitorSources (sources : SourcesT)
    (st : MonitorT * gmap string bool) : M (MonitorT * gmap string bool) :=
  match sources with
  | [] => mret st
  | source :: rest =>
      st' ← monitorDestinations source.2 st;
      monitorSources rest st'
  end.

(** The loop over the keys of [dstToWhRouter] (lines 699-708): every
    router whose type is not a key of [enabledDestinations] is disabled. *)
Definition disableMissing (enabledDestinations : gmap string bool)
    (routers : gmap string HandleT) : gmap string HandleT :=
  map_imap (λ key wh, Some (match enabledDestinations !! key with
                            | None => Disable wh
                            | Some _ => wh
                            end)) routers.

Definition monitorDestRoutersIteration (sources : SourcesT) (mon : MonitorT)
    : M MonitorT :=
  st ← monitorSources sources (mon, ∅);
  mret {| dstToWhRouter := disableMissing st.2 (dstToWhRouter st.1);
          started := started st.1 |}.
End Monitor.

(** The routers of a monitor all belong to declared destination types. *)
Definition declaredRouters (mon : MonitorT) : Prop :=
  ∀ k, is_Some (dstToWhRouter mon !! k) → Contains WarehouseDestinations k = true.

(** A router whose type the loops have seen is enabled. *)
Definition seenEnabled (st : MonitorT * gmap string bool) : Prop :=
  ∀ k wh, dstToWhRouter st.1 !! k = Some wh → is_Some (st.2 !! k) →
          isEnabled wh = true.

(** What the loops over the definition names [names] have done to the
    state of the monitor. *)
Definition visited (names : list string) (st st' : MonitorT * gmap string bool)
    : Prop :=
  (∀ k, is_Some (st'.2 !! k) ↔ is_Some (st.2 !! k) ∨ k ∈ names) ∧
  (∀ k, is_Some (dstToWhRouter st'.1 !! k) ↔
        is_Some (dstToWhRouter st.1 !! k) ∨
        (k ∈ names ∧ Contains WarehouseDestinations k = true)) ∧
  ∃ new, started st'.1 = started st.1 ++ new ∧ NoDup new ∧
         ∀ k, k ∈ new ↔ dstToWhRouter st.1 !! k = None ∧ k ∈ names ∧
                         Contains WarehouseDestinations k = true.

Module MonitorScenario.
(** A redshift router is running; the next config event holds a postgres
    destination and a webhook, and no redshift destination. *)
Definition running : MonitorT :=
  {| dstToWhRouter := {[ "RS"%string := Scenario.router "RS" ]};
     started := ["RS"%string] |}.

Definition event : SourcesT :=
  [(Scenario.src, [Scenario.dst "POSTGRES"; Scenario.dst "WEBHOOK"])].

Definition world : World := Scenario.world [] [].
End MonitorScenario.

(** ** backendConfigSubscriber (lines 195-253)

    One config event is one iteration of the loop.  The router is held
    together with its [workerChannelMap], of which only the set of keys
    matters here, and with the goroutines the subscriber has started. *)

Inductive Goroutine :=
| GoWorker (identifier : string)
| GoSyncLiveWarehouseStatus (sourceID destinationID : string)
| GoTestConnection (destination : DestinationT).

Record SubscriberT := {
  handle : HandleT;
  workerChannelMap : gset string;
  goroutines : list Goroutine
}.

(** [destination.Config] is a [map[string]interface{}]: [INil] is the nil
    map, which reads as the empty map. *)
Definition asMap (config : Iface) : Iface :=
  match config with
  | INil => IMap ∅
  | _ => config
  end.

(** [config[key]] on a map that may be nil. *)
Definition configValue (config : Iface) (key : string) : Iface :=
  match asMap config with
  | IMap m => default INil (m !! key)
  | _ => INil
  end.

Definition appendWarehouse (warehouse : WarehouseT) (sub : SubscriberT)
    : SubscriberT :=
  {| handle := {| destType := destType (handle sub);
                  warehouses := warehouses (handle sub) ++ [warehouse];
                  isEnabled := isEnabled (handle sub) |};
     workerChannelMap := workerChannelMap sub;
     goroutines := goroutines sub |}.

Definition resetWarehouses (sub : SubscriberT) : SubscriberT :=
  {| handle := {| destType := destType (handle sub);
                  warehouses := [];
                  isEnabled := isEnabled (handle sub) |};
     workerChannelMap := workerChannelMap sub;
     goroutines := goroutines sub |}.

Definition go (g : Goroutine) (sub : SubscriberT) : SubscriberT :=
  {| handle := handle sub;
     workerChannelMap := workerChannelMap sub;
     goroutines := goroutines sub ++ [g] |}.

(** Lines 216-219: [initWorker] and the new entry of [workerChannelMap]. *)
Definition addWorker (workerName : string) (sub : SubscriberT) : SubscriberT :=
  {| handle := handle sub;
     workerChannelMap := {[ workerName ]} ∪ workerChannelMap sub;
     goroutines := goroutines sub ++ [GoWorker workerName] |}.

(** The (source, destination) pairs of a config event whose destination
    definition is [dtype], in the order of the event. *)
Definition pairsOfType (dtype : string) (sources : SourcesT)
    : list (SourceT * DestinationT) :=
  flat_map (λ s, map (pair s.1)
                   (List.filter (λ d, String.eqb (DestinationDefinition_Name d) dtype)
                      s.2))
    sources.

Section Subscriber.
Variable ToProviderCase : string → string → string.
Variable ToSafeNamespace : string → string → string.
Variable GetNamespace : SourceT → DestinationT → Database → string * bool.
Variable TrimSpace : string → string.

(** Identity resolution lives outside warehouse.go. *)
Variable IDResolutionEnabled : bool.
Variable IdentityEnabledWarehouses : list string.
Variable shouldPopulateHistoricIdentities : bool.
Variable setupIdentityTables : WarehouseT → M unit.
Variable populateHistoricIdentities : WarehouseT → M unit.

(** The body of the inner loop (lines 206-247). *)
Definition subscribeDestination (source : SourceT) (destination : DestinationT)
    (sub : SubscriberT) : M SubscriberT :=
  let dtype := destType (handle sub) in
  if String.eqb (DestinationDefinition_Name destination) dtype then
    namespace ← getNamespace ToProviderCase ToSafeNamespace GetNamespace TrimSpace
                  (asMap (Destination_Config destination)) source destination dtype;
    let warehouse := {| Source := source; Destination := destination;
                        Namespace := namespace; Type_ := dtype |} in
    let sub := appendWarehouse warehouse sub in
    let workerName := workerIdentifier warehouse in
    let sub := if bool_decide (workerName ∈ workerChannelMap sub) then sub
               else addWorker workerName sub in
    let sub :=
      match Destination_Config destination, Destination_Enabled destination,
            configValue (Destination_Config destination) "eventDelivery" with
      | IMap _, true, IBool true =>
          go (GoSyncLiveWarehouseStatus (Source_ID source)
                (Destination_ID destination)) sub
      | _, _, _ => sub
      end in
    let sub :=
      match configValue (Destination_Config destination) "testConnection" with
      | IBool true => go (GoTestConnection destination) sub
      | _ => sub
      end in
    (if IDResolutionEnabled && Contains IdentityEnabledWarehouses (Type_ warehouse)
     then
       setupIdentityTables warehouse;;
       if shouldPopulateHistoricIdentities
          && Destination_Enabled (Destination warehouse)
       then populateHistoricIdentities warehouse
       else mret tt
     else mret tt);;
    mret sub
  else mret sub.

Fixpoint subscribeDestinations (source : SourceT)
    (destinations : list DestinationT) (sub : SubscriberT) : M SubscriberT :=
  match destinations with
  | [] => mret sub
  | destination :: rest =>
      sub' ← subscribeDestination source destination sub;
      subscribeDestinations source rest sub'
  end.

Fixpoint subscribeSources (sources : SourcesT) (sub : SubscriberT)
    : M SubscriberT :=
  match sources with
  | [] => mret sub
  | source :: rest =>
      sub' ← (if (0 <? length source.2)%nat
              then subscribeDestinations source.1 source.2 sub
              else mret sub);
      subscribeSources rest sub'
  end.

Definition backendConfigSubscriberIteration (sources : SourcesT)
    (sub : SubscriberT) : M SubscriberT :=
  subscribeSources sources (resetWarehouses sub).
End Subscriber.

(** What the loops of the subscriber have added for the pairs [pairs]. *)
Definition subscribed (pairs : list (SourceT * DestinationT))
    (sub sub' : SubscriberT) : Prop :=
  ∃ new : list WarehouseT,
    warehouses (handle sub') = warehouses (handle sub) ++ new ∧
    map (λ b, (Source b, Destination b)) new = pairs ∧
    Forall (λ b, Type_ b = destType (handle sub)) new ∧
    workerChannelMap sub'
      = workerChannelMap sub ∪ list_to_set (map workerIdentifier new) ∧
    destType (handle sub') = destType (handle sub) ∧
    isEnabled (handle sub') = isEnabled (handle sub).

Module SubscriberScenario.
(** A postgres router that had a binding and a worker for a destination
    that is gone from the next config event. *)
Definition before : SubscriberT :=
  {| handle := {| destType := "POSTGRES";
                  warehouses := [KeyScenario.bindingOf "S0" "D0" "old"];
                  isEnabled := true |};
     workerChannelMap := {[ "D0_old"%string ]};
     goroutines := [GoWorker "D0_old"] |}.

Definition event : SourcesT :=
  [(Scenario.src, [Scenario.dst "RS"; Scenario.dst "POSTGRES"]);
   ({| Source_ID := "S2"; Source_Name := "clicks" |}, [])].

Definition iteration : M SubscriberT :=
  backendConfigSubscriberIteration (λ _ s, s) (λ _ s, s)
    (λ _ _ _, (EmptyString, false)) (λ s, s)
    false [] false (λ _, mret tt) (λ _, mret tt) event before.
End SubscriberScenario.

(** * Basic facts *)

Module Int64Facts.
Lemma wrap_in_range z : Int64.in_range z → Int64.wrap z = z.
Proof.
  unfold Int64.in_range, Int64.wrap, Int64.min_int, Int64.max_int, Int64.modulus.
  intros H. rewrite Z.mod_small; lia.
Qed.

Lemma sub_in_range a b : Int64.in_range (a - b) → Int64.sub a b = a - b.
Proof. apply wrap_in_range. Qed.

Lemma add_in_range a b : Int64.in_range (a + b) → Int64.add a b = a + b.
Proof. apply wrap_in_range. Qed.

Lemma mul_in_range a b : Int64.in_range (a * b) → Int64.mul a b = a * b.
Proof. apply wrap_in_range. Qed.
End Int64Facts.

(** ** [ORDER BY] returns the selected rows, sorted *)

Section OrderBy.
Context {A : Type} (key : A → Z).

Lemma insert_by_perm x l : insert_by key x l ≡ₚ x :: l.
Proof.
  induction l as [|y l IH]; simpl; [done|].
  destruct (key x <=? key y); [done|].
  rewrite IH. apply Permutation_swap.
Qed.

Lemma order_by_perm l : order_by key l ≡ₚ l.
Proof.
  induction l as [|x l IH]; simpl; [done|].
  unfold order_by in *. simpl. rewrite insert_by_perm. by f_equiv.
Qed.

Lemma elem_of_order_by x l : x ∈ order_by key l ↔ x ∈ l.
Proof. by rewrite order_by_perm. Qed.

Lemma insert_by_sorted x l :
  StronglySorted (key_le key) l → StronglySorted (key_le key) (insert_by key x l).
Proof.
  induction 1 as [|y l Hs IH Hall]; simpl.
  - repeat constructor.
  - destruct (Z.leb_spec (key x) (key y)) as [Hle|Hgt].
    + constructor; [by constructor|].
      constructor; [done|].
      eapply Forall_impl; [exact Hall|].
      intros z Hz. unfold key_le in *. lia.
    + constructor; [done|].
      rewrite insert_by_perm. constructor; [|done].
      unfold key_le. lia.
Qed.

Lemma order_by_sorted l : StronglySorted (key_le key) (order_by key l).
Proof.
  induction l as [|x l IH]; [constructor|].
  apply insert_by_sorted, IH.
Qed.

(** The first row of an ordered result has the least key. *)
Lemma order_by_head l :
  match order_by key l with
  | [] => l = []
  | r :: _ => r ∈ l ∧ ∀ r', r' ∈ l → key r <= key r'
  end.
Proof.
  pose proof (order_by_sorted l) as Hs.
  pose proof (order_by_perm l) as Hp.
  destruct (order_by key l) as [|r rs].
  - by apply Permutation_nil in Hp.
  - split.
    + rewrite <- Hp. left.
    + intros r' Hr'. rewrite <- Hp in Hr'.
      apply StronglySorted_inv in Hs as [_ Hall].
      apply elem_of_cons in Hr' as [->|Hr']; [unfold key_le; lia|].
      rewrite Forall_forall in Hall. by apply Hall.
Qed.
End OrderBy.

(** Unfolding of the monad's operations. *)
Ltac munfold :=
  unfold mbind, M_bind, mret, M_ret, emit, gets, modify, panic, outOfFuel in *.

(** * Pending staging files (C1) *)

Lemma List_filter_stdpp {A} (f : A → bool) (P : A → Prop) `{∀ x, Decision (P x)}
    (l : list A) :
  (∀ x, f x = true ↔ P x) → List.filter f l = filter P l.
Proof.
  intros Hf. induction l as [|x l IH]; [done|].
  simpl. rewrite filter_cons. destruct (decide (P x)) as [Hp|Hp].
  - apply Hf in Hp. rewrite Hp. by f_equal.
  - destruct (f x) eqn:E; [by apply Hf in E|done].
Qed.

Lemma stagingFileOfPair_spec warehouse r :
  stagingFileOfPair warehouse r = true ↔ ofPair warehouse r.
Proof.
  unfold stagingFileOfPair, ofPair.
  rewrite andb_true_iff, !String.eqb_eq. done.
Qed.

Lemma StronglySorted_map_key {A B} (f : A → B) (kb : B → Z) (l : list A) :
  StronglySorted (key_le (λ a, kb (f a))) l →
  StronglySorted (key_le kb) (map f l).
Proof.
  induction 1 as [|x l Hs IH Hall]; simpl; constructor; [done|].
  rewrite Forall_map. exact Hall.
Qed.

(** The threshold read by the first statement: zero without a terminal
    upload, otherwise the range end of a terminal upload with the greatest
    upload id. *)
Lemma lastStagingFileIDOf_latest warehouse d :
  match terminalUploadsOfPair warehouse d with
  | [] => lastStagingFileIDOf warehouse d = 0
  | _ :: _ =>
      ∃ r, r ∈ terminalUploadsOfPair warehouse d ∧
           (∀ r', r' ∈ terminalUploadsOfPair warehouse d → up_id r' <= up_id r) ∧
           lastStagingFileIDOf warehouse d = up_end_staging_file_id r
  end.
Proof.
  unfold lastStagingFileIDOf. fold (terminalUploadsOfPair warehouse d).
  pose proof (order_by_head (λ r, - up_id r) (terminalUploadsOfPair warehouse d)) as Hh.
  destruct (order_by _ (terminalUploadsOfPair warehouse d)) as [|r rs].
  - by rewrite Hh.
  - destruct Hh as [Hin Hmax].
    destruct (terminalUploadsOfPair warehouse d) as [|r0 l0] eqn:E.
    + by apply elem_of_nil in Hin.
    + exists r. split; [done|]. split; [|done].
      intros r' Hr'. specialize (Hmax r' Hr'). simpl in Hmax. lia.
Qed.

(** What the two statements of [getPendingStagingFiles] compute, on any
    tables: the staging files of the binding's pair above a threshold, in
    ascending id order; the threshold is the [end_staging_file_id] of the
    terminal upload of the pair and destination type that has the greatest
    upload id, and zero when there is no such upload. *)
Lemma getPendingStagingFiles_after_latest_terminal
    (warehouse : WarehouseT) (w : World) :
  let d := db w in
  let threshold := lastStagingFileIDOf warehouse d in
  let rows := pendingStagingRows warehouse d in
  getPendingStagingFiles warehouse w =
    Ok (map stagingFileOfRow rows)
       (set_trace (trace w ++ [EvGetPendingStagingFiles warehouse]) w) ∧
  rows ≡ₚ filter (λ r, threshold < sf_id r ∧ ofPair warehouse r) (wh_staging_files d) ∧
  StronglySorted (key_le StagingFile_ID) (map stagingFileOfRow rows) ∧
  match terminalUploadsOfPair warehouse d with
  | [] => threshold = 0
  | _ :: _ =>
      ∃ r, r ∈ terminalUploadsOfPair warehouse d ∧
           (∀ r', r' ∈ terminalUploadsOfPair warehouse d → up_id r' <= up_id r) ∧
           threshold = up_end_staging_file_id r
  end.
Proof.
  intros d threshold rows. repeat split.
  - unfold rows, pendingStagingRows.
    rewrite order_by_perm.
    rewrite (List_filter_stdpp _ (λ r, threshold < sf_id r ∧ ofPair warehouse r)); [done|].
    intros r. rewrite andb_true_iff, Z.ltb_lt, stagingFileOfPair_spec. done.
  - apply StronglySorted_map_key. simpl. apply (order_by_sorted sf_id).
  - apply lastStagingFileIDOf_latest.
Qed.

Lemma foldr_max_bounds (e : Z) (es : list Z) :
  foldr Z.max e es ∈ e :: es ∧ ∀ x, x ∈ e :: es → x <= foldr Z.max e es.
Proof.
  induction es as [|y es [IHin IHle]]; simpl.
  - split; [left|]. intros x Hx. apply list_elem_of_singleton in Hx. lia.
  - split.
    + destruct (Z.max_spec y (foldr Z.max e es)) as [[_ ->]|[_ ->]].
      * apply elem_of_cons in IHin as [->|Hin]; [left|right; by right].
      * right. left.
    + intros x Hx. apply elem_of_cons in Hx as [->|Hx].
      * specialize (IHle e ltac:(left)). lia.
      * apply elem_of_cons in Hx as [->|Hx]; [lia|].
        specialize (IHle x ltac:(by right)). lia.
Qed.

(** Where every upload of the pair carries the binding's destination type
    and range ends do not decrease with upload ids, the threshold of the
    code is the greatest range end, as the spec words it. *)
Lemma lastStagingFileIDOf_greatest warehouse d :
  terminalUploadsOfPairSpec warehouse d = terminalUploadsOfPair warehouse d →
  (∀ r r', r ∈ terminalUploadsOfPair warehouse d →
           r' ∈ terminalUploadsOfPair warehouse d →
           up_id r <= up_id r' →
           up_end_staging_file_id r <= up_end_staging_file_id r') →
  lastStagingFileIDOf warehouse d = greatestTerminalEnd warehouse d.
Proof.
  intros Hsame Hmono. unfold greatestTerminalEnd. rewrite Hsame.
  pose proof (lastStagingFileIDOf_latest warehouse d) as Hl.
  destruct (terminalUploadsOfPair warehouse d) as [|r0 l0] eqn:E; [done|].
  destruct Hl as (r & Hin & Hmax & ->).
  change (map up_end_staging_file_id (r0 :: l0))
    with (up_end_staging_file_id r0 :: map up_end_staging_file_id l0).
  cbv iota beta.
  destruct (foldr_max_bounds (up_end_staging_file_id r0)
              (map up_end_staging_file_id l0)) as [Hgin Hgle].
  apply Z.le_antisymm.
  - apply Hgle. change (up_end_staging_file_id r ∈ map up_end_staging_file_id (r0 :: l0)).
    by apply list_elem_of_fmap_2.
  - change (foldr Z.max (up_end_staging_file_id r0) (map up_end_staging_file_id l0)
              ∈ map up_end_staging_file_id (r0 :: l0)) in Hgin.
    apply list_elem_of_fmap in Hgin as (r' & -> & Hr').
    apply Hmono; [done..|]. by apply Hmax.
Qed.

(** The terminal uploads of the pair, read off the table. *)
Lemma elem_of_terminalUploadsOfPairSpec warehouse d r :
  r ∈ terminalUploadsOfPairSpec warehouse d ↔
  r ∈ wh_uploads d ∧
  up_source_id r = Source_ID (Source warehouse) ∧
  up_destination_id r = Destination_ID (Destination warehouse) ∧
  (up_status r = ExportedDataState ∨ up_status r = AbortedState).
Proof.
  unfold terminalUploadsOfPairSpec, isTerminal.
  rewrite list_elem_of_In, filter_In, <- list_elem_of_In.
  rewrite !andb_true_iff, orb_true_iff, !String.eqb_eq. tauto.
Qed.

Lemma List_filter_ext_in {A} (f g : A → bool) (l : list A) :
  (∀ x, x ∈ l → f x = g x) → List.filter f l = List.filter g l.
Proof.
  induction l as [|x l IH]; intros Hfg; [done|].
  simpl. rewrite (Hfg x) by left. rewrite IH; [done|].
  intros y Hy. apply Hfg. by right.
Qed.

(** Where the terminal uploads of the pair all carry the binding's
    destination type, the first query selects all of them. *)
Lemma terminalUploadsOfPair_all warehouse d :
  (∀ r, r ∈ terminalUploadsOfPairSpec warehouse d →
        up_destination_type r = Type_ warehouse) →
  terminalUploadsOfPairSpec warehouse d = terminalUploadsOfPair warehouse d.
Proof.
  intros Htype. unfold terminalUploadsOfPair.
  change (terminalUploadsOfPairSpec warehouse d)
    with (List.filter
            (λ r, String.eqb (up_source_id r) (Source_ID (Source warehouse)) &&
                  String.eqb (up_destination_id r)
                    (Destination_ID (Destination warehouse)) &&
                  isTerminal r) (wh_uploads d)).
  apply List_filter_ext_in. intros r Hr. unfold uploadOfPair.
  destruct (String.eqb (up_source_id r) (Source_ID (Source warehouse))
            && String.eqb (up_destination_id r)
                 (Destination_ID (Destination warehouse))
            && isTerminal r) eqn:Hspec.
  - assert (r ∈ terminalUploadsOfPairSpec warehouse d) as Hin.
    { unfold terminalUploadsOfPairSpec.
      rewrite list_elem_of_In, filter_In, <- list_elem_of_In. done. }
    apply Htype, String.eqb_eq in Hin. rewrite Hin.
    apply andb_true_iff in Hspec as [Hpair Hterm].
    apply andb_true_iff in Hpair as [-> ->]. by rewrite Hterm.
  - apply andb_false_iff in Hspec as [Hpair|Hterm].
    + apply andb_false_iff in Hpair as [-> | ->].
      * by rewrite andb_false_r.
      * by rewrite !andb_false_r.
    + rewrite Hterm. by rewrite andb_false_r.
Qed.

(** C1: on tables as the scheduler leaves them, where the terminal uploads
    of the pair carry the binding's destination type and their range ends
    do not decrease with their ids (uploads are created in id order on
    staging files above the ranges already covered), [getPendingStagingFiles]
    returns, in ascending id order, exactly the staging files of the
    binding's (source, destination) pair whose id is strictly greater than
    the greatest [end_staging_file_id] over the pair's uploads in Exported
    or Aborted status; when the pair has no such upload the bound is zero,
    so every staging file of the pair with a positive id is returned.  The
    tables are not written. *)
Theorem C1_pending_staging_files_after_greatest_terminal_end
    (warehouse : WarehouseT) (w : World) :
  let d := db w in
  let terminal := terminalUploadsOfPairSpec warehouse d in
  let greatest := greatestTerminalEnd warehouse d in
  (∀ r, r ∈ terminal → up_destination_type r = Type_ warehouse) →
  (∀ r r', r ∈ terminal → r' ∈ terminal → up_id r <= up_id r' →
           up_end_staging_file_id r <= up_end_staging_file_id r') →
  ∃ rows files,
    getPendingStagingFiles warehouse w =
      Ok files (set_trace (trace w ++ [EvGetPendingStagingFiles warehouse]) w) ∧
    map StagingFile_ID files = map sf_id rows ∧
    map StagingFile_Location files = map sf_location rows ∧
    rows ≡ₚ filter (λ r, greatest < sf_id r ∧ ofPair warehouse r)
              (wh_staging_files d) ∧
    StronglySorted (key_le StagingFile_ID) files ∧
    (∀ r, r ∈ terminal ↔
          r ∈ wh_uploads d ∧
          up_source_id r = Source_ID (Source warehouse) ∧
          up_destination_id r = Destination_ID (Destination warehouse) ∧
          (up_status r = ExportedDataState ∨ up_status r = AbortedState)) ∧
    match terminal with
    | [] => greatest = 0
    | _ :: _ =>
        (∃ r, r ∈ terminal ∧ up_end_staging_file_id r = greatest) ∧
        (∀ r, r ∈ terminal → up_end_staging_file_id r <= greatest)
    end.
Proof.
  intros d terminal greatest Htype Hmono.
  pose proof (terminalUploadsOfPair_all warehouse d Htype) as Hsame.
  assert (lastStagingFileIDOf warehouse d = greatest) as Hthreshold.
  { apply lastStagingFileIDOf_greatest; [exact Hsame|].
    rewrite <- Hsame. exact Hmono. }
  destruct (getPendingStagingFiles_after_latest_terminal warehouse w)
    as (Hrun & Hperm & Hsorted & _).
  cbv zeta in Hperm. fold d in Hperm. rewrite Hthreshold in Hperm.
  exists (pendingStagingRows warehouse d),
         (map stagingFileOfRow (pendingStagingRows warehouse d)).
  split; [exact Hrun|]. split; [by rewrite map_map|]. split; [by rewrite map_map|].
  split; [exact Hperm|]. split; [exact Hsorted|].
  split; [intros r; apply elem_of_terminalUploadsOfPairSpec|].
  subst greatest. unfold greatestTerminalEnd. fold d terminal.
  destruct terminal as [|r0 l0]; [done|].
  change (map up_end_staging_file_id (r0 :: l0))
    with (up_end_staging_file_id r0 :: map up_end_staging_file_id l0).
  cbv iota beta.
  destruct (foldr_max_bounds (up_end_staging_file_id r0)
              (map up_end_staging_file_id l0)) as [Hgin Hgle].
  split.
  - change (foldr Z.max (up_end_staging_file_id r0) (map up_end_staging_file_id l0)
              ∈ map up_end_staging_file_id (r0 :: l0)) in Hgin.
    apply list_elem_of_fmap in Hgin as (r & Hr & Hin). by exists r.
  - intros r Hr. apply Hgle.
    change (up_end_staging_file_id r ∈ map up_end_staging_file_id (r0 :: l0)).
    by apply list_elem_of_fmap_2.
Qed.

(** Uploads 1 and 2 are terminal and cover [1..200] and [201..400]: of the
    staging files 300, 450 and 401 the files 401 and 450 are pending. *)
Lemma C1_witness_files_above_400 :
  let warehouse := Scenario.binding "POSTGRES" in
  let w := OrderedScenario.exported in
  let terminal := terminalUploadsOfPairSpec warehouse (db w) in
  (∀ r, r ∈ terminal → up_destination_type r = Type_ warehouse) ∧
  (∀ r r', r ∈ terminal → r' ∈ terminal → up_id r <= up_id r' →
           up_end_staging_file_id r <= up_end_staging_file_id r') ∧
  greatestTerminalEnd warehouse (db w) = 400 ∧
  ∃ rows files,
    getPendingStagingFiles warehouse w =
      Ok files (set_trace (trace w ++ [EvGetPendingStagingFiles warehouse]) w) ∧
    map StagingFile_ID files = map sf_id rows ∧
    rows ≡ₚ filter (λ r, 400 < sf_id r ∧ ofPair warehouse r)
              (wh_staging_files (db w)).
Proof.
  intros warehouse w terminal.
  assert (∀ r, r ∈ terminal → up_destination_type r = Type_ warehouse) as Htype.
  { intros r Hr. apply list_elem_of_In in Hr. simpl in Hr.
    destruct Hr as [<- | [<- | []]]; reflexivity. }
  assert (∀ r r', r ∈ terminal → r' ∈ terminal → up_id r <= up_id r' →
                  up_end_staging_file_id r <= up_end_staging_file_id r') as Hmono.
  { intros r r' Hr Hr'. apply list_elem_of_In in Hr, Hr'. simpl in Hr, Hr'.
    destruct Hr as [<- | [<- | []]], Hr' as [<- | [<- | []]]; simpl; lia. }
  split; [exact Htype|]. split; [exact Hmono|]. split; [reflexivity|].
  destruct (C1_pending_staging_files_after_greatest_terminal_end warehouse w
              Htype Hmono) as (rows & files & Hrun & Hids & _ & Hperm & _).
  exists rows, files. split; [exact Hrun|]. split; [exact Hids|]. exact Hperm.
Defined.

(** The order of the range ends matters: on a table the scheduler does not
    produce, with terminal uploads 1 and 2 covering [201..400] and [1..200],
    the greatest range end is 400, yet the threshold the code reads is 200
    and staging file 300 is returned. *)
Example out_of_order_ranges_threshold :
  greatestTerminalEnd (Scenario.binding "POSTGRES") (db Scenario.outOfOrderWorld) = 400 ∧
  ∃ w', getPendingStagingFiles (Scenario.binding "POSTGRES") Scenario.outOfOrderWorld =
          Ok [stagingFileOfRow (Scenario.stagingRow 300)] w' ∧
        ¬ (greatestTerminalEnd (Scenario.binding "POSTGRES") (db Scenario.outOfOrderWorld)
             < StagingFile_ID (stagingFileOfRow (Scenario.stagingRow 300))).
Proof.
  split; [reflexivity|].
  eexists. split; [reflexivity|].
  vm_compute. discriminate.
Qed.

(** * Frames of the router's operations *)

Lemma bind_run {A B} (c : M A) (k : A → M B) (w : World) :
  (c ≫= k) w =
  match c w with
  | Ok a w' => k a w'
  | Panicked msg w' => Panicked msg w'
  | OutOfFuel w' => OutOfFuel w'
  end.
Proof. reflexivity. Qed.

Section Frames.
Context (R : relation World) `{!PreOrder R}.

Lemma Preserves_bind {A B} (c : M A) (k : A → M B) :
  Preserves R c → (∀ a, Preserves R (k a)) → Preserves R (c ≫= k).
Proof.
  intros Hc Hk w. rewrite bind_run. specialize (Hc w).
  destruct (c w) as [a w'|msg w'|w']; simpl in *; [|done..].
  etrans; [exact Hc|]. apply Hk.
Qed.

Lemma Preserves_ret {A} (a : A) : Preserves R (mret a).
Proof. intros w. simpl. reflexivity. Qed.

Lemma Preserves_panic {A} msg : Preserves R (panic msg : M A).
Proof. intros w. simpl. reflexivity. Qed.

Lemma Preserves_outOfFuel {A} : Preserves R (outOfFuel : M A).
Proof. intros w. simpl. reflexivity. Qed.

Lemma Preserves_gets {A} (f : World → A) : Preserves R (gets f).
Proof. intros w. simpl. reflexivity. Qed.

Lemma Preserves_modify (f : World → World) :
  (∀ w, R w (f w)) → Preserves R (modify f).
Proof. intros Hf w. simpl. apply Hf. Qed.

Lemma Preserves_if {A} (b : bool) (c1 c2 : M A) :
  Preserves R c1 → Preserves R c2 → Preserves R (if b then c1 else c2).
Proof. by destruct b. Qed.
End Frames.

#[global] Instance keepsLastExec_frame : Frame keepsLastExec.
Proof.
  split.
  - split.
    + intros w. split; reflexivity.
    + intros w1 w2 w3 [E1 P1] [E2 P2]. split; [congruence|by etrans].
  - intros w es. split; [done|]. by apply prefix_app_r.
  - by split.
  - by split.
  - by split.
  - by split.
Qed.

#[global] Instance keepsRecovery_frame : Frame keepsRecovery.
Proof.
  split.
  - split.
    + intros w. split; reflexivity.
    + intros w1 w2 w3 [E1 P1] [E2 P2]. split; [congruence|by etrans].
  - intros w es. split; [done|]. by apply prefix_app_r.
  - by split.
  - by split.
  - by split.
  - by split.
Qed.

(** The operations of the router that touch neither [lastExecMap] nor
    [inRecoveryMap] preserve every frame relation. *)
Section FramePreserved.
Context (R : relation World) `{!Frame R}.
Variable cfg : Config.
Variable clock : nat → Time.
Variable managerNew : string → option string.

Ltac frame_step :=
  first
    [ apply (Preserves_bind R); [|intros ?]
    | apply (Preserves_ret R)
    | apply (Preserves_panic R)
    | apply (Preserves_outOfFuel R)
    | apply (Preserves_gets R)
    | apply (Preserves_if R) ].

Lemma pres_emit e : Preserves R (emit e).
Proof. intros w. apply frame_trace. Qed.

Lemma pres_setDestInProgress warehouse b :
  Preserves R (setDestInProgress warehouse b).
Proof. intros w. destruct b; apply frame_inProgressMap. Qed.

Lemma pres_Now : Preserves R (Now clock).
Proof. intros w. apply frame_nowCalls. Qed.

Lemma pres_alloc u : Preserves R (alloc u).
Proof. intros w. apply frame_heap. Qed.

Lemma pres_store l u : Preserves R (store l u).
Proof. intros w. apply frame_heap. Qed.

Lemma pres_newManager dtype : Preserves R (newManager managerNew dtype).
Proof. unfold newManager. destruct (managerNew dtype); repeat frame_step. Qed.

Lemma pres_slice {A} (s : list A) lo hi : Preserves R (slice s lo hi).
Proof. unfold slice. repeat frame_step. Qed.

Lemma pres_getStagingFiles warehouse a b :
  Preserves R (getStagingFiles warehouse a b).
Proof. unfold getStagingFiles. repeat (frame_step || apply pres_emit). Qed.

Lemma pres_getPendingStagingFiles warehouse :
  Preserves R (getPendingStagingFiles warehouse).
Proof. unfold getPendingStagingFiles. repeat (frame_step || apply pres_emit). Qed.

Lemma pres_getPendingUploads wh warehouse :
  Preserves R (getPendingUploads wh warehouse).
Proof. unfold getPendingUploads. repeat (frame_step || apply pres_emit). Qed.

Lemma pres_initUpload wh warehouse files :
  Preserves R (initUpload clock wh warehouse files).
Proof.
  unfold initUpload. destruct (head files), (last files);
    repeat (frame_step || apply pres_emit || apply pres_Now
            || (apply (Preserves_modify R); intros ?; apply frame_db)).
Qed.

Lemma pres_enqueueUploadJobs jobs warehouse :
  Preserves R (enqueueUploadJobs jobs warehouse).
Proof. apply pres_emit. Qed.

Lemma pres_batchLoop fuel wh warehouse files count jobs :
  Preserves R (batchLoop cfg clock managerNew fuel wh warehouse files count jobs).
Proof.
  revert count jobs. induction fuel as [|fuel IH]; intros count jobs; simpl.
  - apply (Preserves_outOfFuel R).
  - repeat (apply IH || frame_step || apply pres_slice || apply pres_initUpload
            || apply pres_newManager || apply pres_alloc).
Qed.

Lemma pres_canStartPendingUpload wh u warehouse :
  Preserves R (canStartPendingUpload cfg clock wh u warehouse).
Proof. unfold canStartPendingUpload. repeat (frame_step || apply pres_Now). Qed.

Lemma pres_pendingUploadsLoop wh warehouse l pending jobs :
  Preserves R (pendingUploadsLoop cfg clock managerNew wh warehouse l pending jobs).
Proof.
  revert jobs. induction pending as [|u rest IH]; intros jobs; simpl.
  - apply (Preserves_ret R).
  - repeat (apply IH || frame_step || apply pres_store || apply pres_Now
            || apply pres_canStartPendingUpload || apply pres_setDestInProgress
            || apply pres_getStagingFiles || apply pres_newManager).
Qed.

Lemma pres_pendingPath wh warehouse pending :
  Preserves R (pendingPath cfg clock managerNew wh warehouse pending).
Proof.
  unfold pendingPath.
  repeat (frame_step || apply pres_alloc || apply pres_pendingUploadsLoop
          || apply pres_enqueueUploadJobs).
Qed.

(** What follows [getPendingStagingFiles] on the fresh path. *)
Lemma pres_fresh_tail wh warehouse files :
  Preserves R
    (if (length files =? 0)%nat then setDestInProgress warehouse false
     else uploadJobs ← batchLoop cfg clock managerNew (length files) wh warehouse files 0 [];
          enqueueUploadJobs uploadJobs warehouse).
Proof.
  repeat (frame_step || apply pres_setDestInProgress || apply pres_batchLoop
          || apply pres_enqueueUploadJobs).
Qed.
End FramePreserved.

(** * Frequency gate (C2) *)

Section FrequencyGate.
Variable cfg : Config.
Variable clock : nat → Time.
Variable managerNew : string → option string.

(** The window of the gate: the default [uploadFreqInS] when
    [syncFrequency] is unset, otherwise [syncFrequency] minutes. *)
Lemma freqInSOf_unset : freqInSOf cfg EmptyString = uploadFreqInS cfg.
Proof. reflexivity. Qed.

Lemma freqInSOf_minutes (syncFrequency : string) (m : Z) :
  syncFrequency ≠ EmptyString →
  fst (strconv.ParseInt syncFrequency) = m →
  Int64.in_range (m * 60) →
  freqInSOf cfg syncFrequency = m * 60.
Proof.
  intros Hne Hm Hr. unfold freqInSOf.
  destruct (String.eqb_spec syncFrequency EmptyString) as [->|_]; [done|].
  rewrite Hm. by apply Int64Facts.mul_in_range.
Qed.

Example freqInSOf_30_minutes : freqInSOf cfg "30" = 1800.
Proof. reflexivity. Qed.

(** Without wrap-around the gate compares the age of the last start with
    the window. *)
Lemma frequencyGateAdmits_age warehouse w lastExecTime :
  lastExecMap w !! connectionString warehouse = Some lastExecTime →
  Int64.in_range (Unix (clock (nowCalls w)) - lastExecTime) →
  frequencyGateAdmits cfg clock warehouse w = true ↔
  freqInSOf cfg (GetConfigValue "syncFrequency" warehouse)
    <= Unix (clock (nowCalls w)) - lastExecTime.
Proof.
  intros Hl Hr. unfold frequencyGateAdmits. rewrite Hl.
  rewrite Int64Facts.sub_in_range by done. apply Z.leb_le.
Qed.

(** The fresh path from the point where the gate has admitted the pair. *)
Lemma freshPath_admitted wh warehouse (w0 : World) :
  let key := connectionString warehouse in
  let t := Unix (clock (nowCalls w0)) in
  let r :=
    (setLastExec clock warehouse;;
     stagingFilesList ← getPendingStagingFiles warehouse;
     if (length stagingFilesList =? 0)%nat then setDestInProgress warehouse false
     else uploadJobs ← batchLoop cfg clock managerNew (length stagingFilesList)
                          wh warehouse stagingFilesList 0 [];
          enqueueUploadJobs uploadJobs warehouse) w0 in
  ∃ rest,
    trace (final r) =
      trace w0 ++ EvSetLastExec key t :: EvGetPendingStagingFiles warehouse :: rest ∧
    lastExecMap (final r) !! key = Some t.
Proof.
  intros key t r. subst r.
  rewrite bind_run. unfold setLastExec at 1.
  rewrite !bind_run. simpl.
  unfold getPendingStagingFiles at 1. rewrite !bind_run. simpl.
  match goal with
  | |- context [final (?c ?w3)] =>
      pose proof (pres_fresh_tail keepsLastExec cfg clock managerNew wh warehouse
        (map stagingFileOfRow (pendingStagingRows warehouse (db w0))) w3) as [Hl [rest Ht]]
  end.
  exists rest. split.
  - etrans; [exact Ht|]. simpl. by rewrite <- !app_assoc.
  - etrans; [apply (f_equal (λ m : gmap string Z, m !! key) Hl)|].
    simpl. apply lookup_insert_eq.
Qed.

(** C2: on the path taken when the binding has no pending upload
    (lines 541-589), uploads are created and enqueued only if no upload of
    the pair was started within the window of the gate: a pair that is not
    admitted is released with nothing created, enqueued or recorded.  The
    window is [uploadFreqInS] seconds when [syncFrequency] is unset and
    [syncFrequency] minutes otherwise (sixty times the number
    [strconv.ParseInt] reads, in [int64]).
    When the gate admits, [lastExec] of the pair is set to the current
    time first: the assignment precedes the fetch of the pending staging
    files and everything after it, and its value is still in place when
    the iteration ends, however it ends. *)
Theorem C2_frequency_gate_sets_lastExec_first wh warehouse w :
  let key := connectionString warehouse in
  let r := freshPath cfg clock managerNew wh warehouse w in
  freqInSOf cfg EmptyString = uploadFreqInS cfg ∧
  (∀ syncFrequency minutes,
     syncFrequency ≠ EmptyString →
     fst (strconv.ParseInt syncFrequency) = minutes →
     Int64.in_range (minutes * 60) →
     freqInSOf cfg syncFrequency = minutes * 60) ∧
  if frequencyGateAdmits cfg clock warehouse w then
    ∃ rest,
      trace (final r) =
        trace w ++ EvSetLastExec key (lastExecReading clock warehouse w)
          :: EvGetPendingStagingFiles warehouse :: rest ∧
      lastExecMap (final r) !! key = Some (lastExecReading clock warehouse w)
  else
    r = Ok tt (frequencyBlocked warehouse w).
Proof.
  intros key r. split; [apply freqInSOf_unset|]. split; [apply freqInSOf_minutes|].
  subst r.
  unfold frequencyGateAdmits, lastExecReading, freshPath, canStartUpload,
    uploadFrequencyExceeded.
  fold key. rewrite !bind_run. simpl.
  destruct (lastExecMap w !! key) as [lastExecTime|] eqn:Hl.
  - rewrite !bind_run. simpl.
    destruct (Z.leb_spec
                (freqInSOf cfg (GetConfigValue "syncFrequency" warehouse))
                (Int64.sub (Unix (clock (nowCalls w))) lastExecTime)) as [Hle|Hlt].
    + apply Z.ltb_ge in Hle. rewrite Hle. simpl.
      apply (freshPath_admitted wh warehouse (set_nowCalls (S (nowCalls w)) w)).
    + apply Z.ltb_lt in Hlt. rewrite Hlt. simpl. reflexivity.
  - simpl. apply (freshPath_admitted wh warehouse w).
Qed.
End FrequencyGate.

(** * Retry gate (C3) *)

Section RetryGate.
Variable cfg : Config.
Variable clock : nat → Time.
Variable managerNew : string → option string.

Lemma retryGate_spec now u :
  retryGate cfg now u = true ↔
  Upload_Attempts u < minRetryAttempts cfg ∨
  now - Upload_FirstAttemptAt u < retryTimeWindow cfg.
Proof. unfold retryGate. by rewrite orb_true_iff, !Z.ltb_lt. Qed.

Lemma store_run l u w : store l u w = Ok tt (set_heap (<[l := u]> (heap w)) w).
Proof. reflexivity. Qed.

Lemma canStartPendingUpload_run wh u warehouse w :
  canStartPendingUpload cfg clock wh u warehouse w =
  Ok (retryGate cfg (clock (nowCalls w)) u) (set_nowCalls (S (nowCalls w)) w).
Proof. reflexivity. Qed.

Lemma pendingUploadsLoop_cons wh warehouse pendingUpload u rest uploadJobs :
  pendingUploadsLoop cfg clock managerNew wh warehouse pendingUpload
    (u :: rest) uploadJobs =
  (store pendingUpload u;;
   can ← canStartPendingUpload cfg clock wh u warehouse;
   if negb can then
     setDestInProgress warehouse false;;
     mret uploadJobs
   else
     stagingFilesList ←
       getStagingFiles warehouse (Upload_StartStagingFileID u)
         (Upload_EndStagingFileID u);
     whManager_ ← newManager managerNew (destType wh);
     pendingUploadsLoop cfg clock managerNew wh warehouse pendingUpload rest
       (uploadJobs ++ [{| upload := pendingUpload;
                          stagingFiles := stagingFilesList;
                          warehouse := warehouse;
                          whManager := whManager_ |}])).
Proof. reflexivity. Qed.

(** C3: with the retry gate as the spec words it, the loop over the
    pending uploads admits the upload it considers iff its attempt count
    is below [minRetryAttempts] or its first attempt is less than
    [retryTimeWindow] old.  An admitted upload has its staging files
    loaded and its job appended; a rejected one ends the loop with the
    pair's [inProgress] bit cleared.  With the default
    [minRetryAttempts = 3] and [retryTimeWindow = 3h], five attempts and a
    first attempt ten minutes ago are admitted (and the job enqueued),
    five attempts and a first attempt four hours ago are rejected (nothing
    enqueued, [inProgress] cleared). *)
Theorem C3_retry_gate wh warehouse pendingUpload u rest uploadJobs w :
  let now := clock (nowCalls w) in
  let r := pendingUploadsLoop cfg clock managerNew wh warehouse pendingUpload
             (u :: rest) uploadJobs w in
  let w1 := set_nowCalls (S (nowCalls w))
              (set_heap (<[pendingUpload := u]> (heap w)) w) in
  (retryGate cfg now u = true ↔
     Upload_Attempts u < minRetryAttempts cfg ∨
     now - Upload_FirstAttemptAt u < retryTimeWindow cfg) ∧
  (if retryGate cfg now u then
     r = (stagingFilesList ←
            getStagingFiles warehouse (Upload_StartStagingFileID u)
              (Upload_EndStagingFileID u);
          whManager_ ← newManager managerNew (destType wh);
          pendingUploadsLoop cfg clock managerNew wh warehouse pendingUpload rest
            (uploadJobs ++ [{| upload := pendingUpload;
                               stagingFiles := stagingFilesList;
                               warehouse := warehouse;
                               whManager := whManager_ |}])) w1
   else
     r = Ok uploadJobs
           (set_inProgressMap
              (delete (connectionString warehouse) (inProgressMap w1)) w1)) ∧
  (∀ now' u',
     Upload_Attempts u' = 5 →
     (Upload_FirstAttemptAt u' = now' - 10 * Minute →
      retryGate loadConfig now' u' = true) ∧
     (Upload_FirstAttemptAt u' = now' - 4 * Hour →
      retryGate loadConfig now' u' = false)) ∧
  (∃ w', RetryScenario.tick
           (RetryScenario.retryWorld 5 (Scenario.startTime - 10 * Minute)) = Ok tt w' ∧
         RetryScenario.enqueued w' = [("D_ns"%string, 1%nat)] ∧
         inProgressMap w' !! connectionString (Scenario.binding "POSTGRES") = Some true) ∧
  (∃ w', RetryScenario.tick
           (RetryScenario.retryWorld 5 (Scenario.startTime - 4 * Hour)) = Ok tt w' ∧
         RetryScenario.enqueued w' = [] ∧
         inProgressMap w' !! connectionString (Scenario.binding "POSTGRES") = None).
Proof.
  intros now r w1. split; [apply retryGate_spec|]. split; [|split; [|split]].
  - subst r. rewrite pendingUploadsLoop_cons, bind_run, store_run, bind_run.
    rewrite canStartPendingUpload_run.
    change (nowCalls (set_heap _ w)) with (nowCalls w). fold now. fold w1.
    destruct (retryGate cfg now u); reflexivity.
  - intros now' u' Ha. unfold retryGate. rewrite Ha. split; intros ->.
    + apply orb_true_iff. right. apply Z.ltb_lt.
      unfold loadConfig, retryTimeWindow, Minute, Second. lia.
    + apply orb_false_iff. split; [reflexivity|]. apply Z.ltb_ge.
      unfold loadConfig, retryTimeWindow, Hour, Minute, Second. lia.
  - eexists. split; [vm_compute; reflexivity|]. split; vm_compute; reflexivity.
  - eexists. split; [vm_compute; reflexivity|]. split; vm_compute; reflexivity.
Qed.
End RetryGate.

(** * Jobs of the pending-uploads path (C4) *)

Section PendingJobs.
Variable cfg : Config.
Variable clock : nat → Time.
Variable managerNew : string → option string.

(** Every job the loop appends holds the address of the one loop
    variable, and when the loop returns that variable holds the upload
    the loop looked at last: the one it rejected, or the last of the
    list. *)
Lemma pendingUploadsLoop_shares_loop_variable wh warehouse pendingUpload
    pendingUploads :
  ∀ uploadJobs w uploadJobs' w',
    pendingUploadsLoop cfg clock managerNew wh warehouse pendingUpload
      pendingUploads uploadJobs w = Ok uploadJobs' w' →
    (pendingUpload < length (heap w))%nat →
    ∃ new, uploadJobs' = uploadJobs ++ new ∧
           Forall (λ job, upload job = pendingUpload) new ∧
           (length new ≤ length pendingUploads)%nat ∧
           (pendingUploads ≠ [] →
            heap w' !! pendingUpload =
            pendingUploads !! Nat.min (length new) (length pendingUploads - 1)).
Proof.
  induction pendingUploads as [|u rest IH];
    intros uploadJobs w uploadJobs' w' Hrun Hl.
  - injection Hrun as <- <-. exists []. rewrite app_nil_r. repeat split; done.
  - rewrite pendingUploadsLoop_cons, bind_run, store_run, bind_run in Hrun.
    rewrite canStartPendingUpload_run in Hrun.
    destruct (retryGate cfg _ u) eqn:Hgate; cbv beta iota in Hrun.
    + change (negb true) with false in Hrun. cbv iota in Hrun.
      rewrite bind_run in Hrun.
      destruct (getStagingFiles warehouse (Upload_StartStagingFileID u)
                  (Upload_EndStagingFileID u) _) as [files w2|msg w2|w2] eqn:Hfiles;
        [|done..].
      assert (heap w2 = <[pendingUpload := u]> (heap w)) as Hheap.
      { unfold getStagingFiles in Hfiles. rewrite !bind_run in Hfiles.
        simpl in Hfiles. by injection Hfiles as _ <-. }
      rewrite bind_run in Hrun. unfold newManager at 1 in Hrun.
      destruct (managerNew (destType wh)) as [m|]; [|done].
      change ((mret m : M string) w2) with (Ok m w2) in Hrun. cbv beta iota in Hrun.
      destruct rest as [|u' rest'].
      * injection Hrun as <- <-.
        exists [{| upload := pendingUpload; stagingFiles := files;
                   warehouse := warehouse; whManager := m |}].
        repeat split; [by repeat constructor|simpl; lia|].
        intros _. rewrite Hheap. simpl. by apply list_lookup_insert_eq.
      * apply IH in Hrun as (new & -> & Hall & Hlen & Hlast);
          [|rewrite Hheap, length_insert; exact Hl].
        exists ({| upload := pendingUpload; stagingFiles := files;
                   warehouse := warehouse; whManager := m |} :: new).
        rewrite <- app_assoc. repeat split; [by constructor|simpl in *; lia|].
        intros _. rewrite Hlast by done. simpl.
        by rewrite Nat.sub_0_r.
    + change (negb false) with true in Hrun. cbv iota in Hrun.
      injection Hrun as <- <-. exists []. rewrite app_nil_r.
      repeat split; [done|simpl; lia|].
      intros _. simpl. by apply list_lookup_insert_eq.
Qed.
End PendingJobs.

(** C4 (the code at the failing input): with two pending uploads, 1 covering
    [1..2] and 2 covering [3..4], both admitted by the retry gate, one batch
    of two jobs is enqueued.  The staging files of the jobs are those of
    ranges [1..2] and [3..4], but both jobs hold the same [upload] pointer,
    the address of the loop variable, which holds upload 2 when the batch
    is sent: no job of the batch refers to upload 1. *)
Theorem C4_pending_jobs_alias_the_loop_variable :
  ∃ w', PendingScenario.tick PendingScenario.twoPending = Ok tt w' ∧
        PendingScenario.enqueuedJobs w' =
          [[(0%nat, 2, 3, 4, [1; 2]); (0%nat, 2, 3, 4, [3; 4])]].
Proof. eexists. split; vm_compute; reflexivity. Qed.

(** * The job loop of a worker (C5) *)

Section JobLoop.
Variable run :
  UploadJobT → list UploadT → Database → list UploadT * Database * option string.

Lemma jobLoop_cons job rest w :
  jobLoop run (job :: rest) w =
  match run job (heap w) (db w) with
  | (h, d, None) =>
      jobLoop run rest
        (set_trace (trace w ++ successEvents job (Upload_ID (deref h (upload job))))
           (set_db d (set_heap h w)))
  | (h, d, Some _) =>
      Ok tt
        (set_trace (trace w ++ failureEvents job (Upload_ID (deref h (upload job))))
           (set_db d (set_heap h w)))
  end.
Proof.
  simpl. rewrite bind_run. unfold runJob.
  destruct (run job (heap w) (db w)) as [[h d] [msg|]];
    unfold recordDeliveryStatus; munfold; simpl;
    unfold set_trace, successEvents, failureEvents, destinationOf; simpl;
    rewrite <- !app_assoc; reflexivity.
Qed.

Lemma BatchRun_outcomes h d jobs outcomes events :
  BatchRun run h d jobs outcomes events →
  map fst outcomes `prefix_of` jobs ∧
  (∀ i job, outcomes !! i = Some (job, true) → S i = length outcomes) ∧
  (Forall (λ o, snd o = false) outcomes → map fst outcomes = jobs).
Proof.
  induction 1 as [h d|h d job rest h' d' outcomes events Hrun Hrest (IHp & IHf & IHa)
                 |h d job rest h' d' msg Hrun].
  - split; [done|]. split; [|done]. intros i job Hi. by rewrite lookup_nil in Hi.
  - split; [|split].
    + simpl. by apply prefix_cons.
    + intros [|i] job' Hi; simpl in Hi; [by injection Hi|].
      simpl. f_equal. by eapply IHf.
    + intros Hall. apply Forall_cons in Hall as [_ Hall]. simpl. f_equal. by apply IHa.
  - split; [|split].
    + simpl. apply prefix_cons, prefix_nil.
    + intros [|i] job' Hi; simpl in Hi; [done|by rewrite lookup_nil in Hi].
    + intros Hall. by apply Forall_cons in Hall as [? _].
Qed.

(** C5: the job loop of [handleUploadJobs] always returns.  It runs the
    jobs of the batch one after the other in batch order; the first job
    whose [run] returns an error is the last one run, the jobs after it
    are skipped.  For every job that was run the delivery status is
    recorded; the failure counter is incremented for the failed job only,
    and [onSuccessfulUpload] is called for the successful jobs only. *)
Theorem C5_batch_stops_at_first_failure jobs :
  ∀ w, ∃ w' outcomes events,
    jobLoop run jobs w = Ok tt w' ∧
    trace w' = trace w ++ events ∧
    BatchRun run (heap w) (db w) jobs outcomes events ∧
    map fst outcomes `prefix_of` jobs ∧
    (∀ i job, outcomes !! i = Some (job, true) → S i = length outcomes) ∧
    (Forall (λ o, snd o = false) outcomes → map fst outcomes = jobs).
Proof.
  assert (∀ w, ∃ w' outcomes events,
    jobLoop run jobs w = Ok tt w' ∧
    trace w' = trace w ++ events ∧
    BatchRun run (heap w) (db w) jobs outcomes events) as Hmain.
  { induction jobs as [|job rest IH]; intros w.
    - exists w, [], []. split; [done|]. split; [by rewrite app_nil_r|constructor].
    - rewrite jobLoop_cons.
      destruct (run job (heap w) (db w)) as [[h d] [msg|]] eqn:Hrun.
      + eexists _, [(job, true)], _. split; [done|]. split; [done|]. by econstructor.
      + destruct (IH (set_trace (trace w ++ successEvents job
                                   (Upload_ID (deref h (upload job))))
                        (set_db d (set_heap h w))))
          as (w' & outcomes & events & Hloop & Htrace & Hbatch).
        exists w', ((job, false) :: outcomes),
               (successEvents job (Upload_ID (deref h (upload job))) ++ events).
        split; [done|]. split.
        * rewrite Htrace. simpl. by rewrite <- app_assoc.
        * by econstructor. }
  intros w. destruct (Hmain w) as (w' & outcomes & events & Hloop & Htrace & Hbatch).
  exists w', outcomes, events.
  destruct (BatchRun_outcomes _ _ _ _ _ Hbatch) as (Hp & Hf & Ha).
  by repeat (split; [done|]).
Qed.
End JobLoop.

(** * The global cap on active workers (C6) *)

Module AdmissionFacts.
Import Admission.

Lemma slotsHeld_insert ws i p p' :
  ws !! i = Some p →
  slotsHeld (<[i := p']> ws) = slotsHeld ws - b2z (holdsSlot p) + b2z (holdsSlot p').
Proof.
  unfold slotsHeld. revert i. induction ws as [|q ws IH]; intros i Hi; [done|].
  destruct i as [|i]; simpl in *.
  - injection Hi as ->. destruct (holdsSlot p), (holdsSlot p'); simpl; lia.
  - specialize (IH i Hi). destruct (holdsSlot q); simpl; lia.
Qed.

Lemma slotsHeld_nonneg ws : 0 <= slotsHeld ws.
Proof. unfold slotsHeld. lia. Qed.

Lemma slotsHeld_app ws p : slotsHeld (ws ++ [p]) = slotsHeld ws + b2z (holdsSlot p).
Proof.
  unfold slotsHeld. rewrite List.filter_app, length_app. simpl.
  destruct (holdsSlot p); simpl; lia.
Qed.

(** A slot holder exists where one is looked up. *)
Lemma slotsHeld_pos ws i p :
  ws !! i = Some p → holdsSlot p = true → 1 <= slotsHeld ws.
Proof.
  unfold slotsHeld. revert i. induction ws as [|q ws IH]; intros i Hi Hp; [done|].
  destruct i as [|i]; simpl in *.
  - injection Hi as ->. rewrite Hp. simpl. lia.
  - specialize (IH i Hi Hp). destruct (holdsSlot q); simpl; lia.
Qed.

Lemma lookup_insert_cases (ws : list pc) i j p q :
  <[i := p]> ws !! j = Some q →
  (j = i ∧ q = p) ∨ (j ≠ i ∧ ws !! j = Some q).
Proof.
  intros H. destruct (decide (i = j)) as [->|Hne].
  - left. split; [done|].
    apply list_lookup_insert_Some in H as [(_ & -> & _)|[? _]]; done.
  - right. split; [done|]. by rewrite list_lookup_insert_ne in H.
Qed.

Section Preservation.
Variable noOfWorkers : Z.
Hypothesis noOfWorkers_range : 0 <= noOfWorkers <= Int64.max_int.

Lemma invariant_init : invariant noOfWorkers init.
Proof.
  unfold invariant, init. simpl. repeat split; [lia|..];
    intros; by rewrite lookup_nil in *.
Qed.

(** Another worker that is inside the critical section rules out that
    worker [i] is. *)
Ltac other_holder Hlock :=
  match goal with
  | Hj : ?ws !! ?j = Some ?q, Hi : ?ws !! ?i = Some ?p, Hne : ?j ≠ ?i |- _ =>
      let E1 := fresh in let E2 := fresh in
      pose proof (Hlock j q Hj ltac:(done)) as E1;
      pose proof (Hlock i p Hi ltac:(done)) as E2;
      congruence
  end.

Lemma invariant_stepWorker i s :
  invariant noOfWorkers s → invariant noOfWorkers (stepWorker noOfWorkers i s).
Proof.
  intros (Hcount & Hle & Hlock & Hcheck & Hincr).
  unfold stepWorker. destruct (workers s !! i) as [p|] eqn:Hi;
    [|by repeat split].
  pose proof (slotsHeld_insert (workers s) i p) as Hins.
  destruct p; unfold goto, lock, unlock, assign, invariant; simpl.
  - (* Idle *)
    rewrite (Hins Lock1 Hi). simpl.
    split; [lia|]. split; [done|]. repeat split.
    + intros j q Hj Hq. apply lookup_insert_cases in Hj as [[-> ->]|[Hne Hj]]; [done|eauto].
    + intros j a Hj. apply lookup_insert_cases in Hj as [[-> ?]|[Hne Hj]]; [done|eauto].
    + intros j Hj. apply lookup_insert_cases in Hj as [[-> ?]|[Hne Hj]]; [done|eauto].
  - (* Lock1 *)
    destruct (activeWorkerCountLock s) as [holder|] eqn:Hholder; simpl.
    { rewrite Hholder. by repeat split. }
    rewrite (Hins Read Hi). simpl.
    split; [lia|]. split; [done|]. repeat split.
    + intros j q Hj Hq. apply lookup_insert_cases in Hj as [[-> ->]|[Hne Hj]]; [done|].
      specialize (Hlock j q Hj Hq). congruence.
    + intros j a Hj. apply lookup_insert_cases in Hj as [[-> ?]|[Hne Hj]]; [done|eauto].
    + intros j Hj. apply lookup_insert_cases in Hj as [[-> ?]|[Hne Hj]]; [done|eauto].
  - (* Read *)
    rewrite (Hins (Check (activeWorkerCount s)) Hi). simpl.
    split; [lia|]. split; [done|]. repeat split.
    + intros j q Hj Hq. apply lookup_insert_cases in Hj as [[-> ->]|[Hne Hj]]; eauto.
    + intros j a Hj. apply lookup_insert_cases in Hj as [[-> ?]|[Hne Hj]]; [congruence|eauto].
    + intros j Hj. apply lookup_insert_cases in Hj as [[-> ?]|[Hne Hj]]; [done|eauto].
  - (* Check *)
    pose proof (Hcheck i _ Hi) as ->.
    destruct (Z.leb_spec noOfWorkers (activeWorkerCount s)) as [Hfull|Hfree]; simpl.
    + rewrite (Hins UnlockSleep Hi). simpl.
      split; [lia|]. split; [done|]. repeat split.
      * intros j q Hj Hq. apply lookup_insert_cases in Hj as [[-> ->]|[Hne Hj]]; eauto.
      * intros j a Hj. apply lookup_insert_cases in Hj as [[-> ?]|[Hne Hj]]; [done|eauto].
      * intros j Hj. apply lookup_insert_cases in Hj as [[-> ?]|[Hne Hj]]; [done|eauto].
    + rewrite (Hins Incr Hi). simpl.
      split; [lia|]. split; [done|]. repeat split.
      * intros j q Hj Hq. apply lookup_insert_cases in Hj as [[-> ->]|[Hne Hj]]; eauto.
      * intros j a Hj. apply lookup_insert_cases in Hj as [[-> ?]|[Hne Hj]]; [done|eauto].
      * intros j Hj. apply lookup_insert_cases in Hj as [[-> ?]|[Hne Hj]]; [done|eauto].
  - (* UnlockSleep *)
    rewrite (Hins Sleep Hi). simpl.
    split; [lia|]. split; [done|]. repeat split.
    + intros j q Hj Hq. apply lookup_insert_cases in Hj as [[-> ->]|[Hne Hj]]; [done|].
      other_holder Hlock.
    + intros j a Hj. apply lookup_insert_cases in Hj as [[-> ?]|[Hne Hj]]; [done|eauto].
    + intros j Hj. apply lookup_insert_cases in Hj as [[-> ?]|[Hne Hj]]; [done|eauto].
  - (* Sleep *)
    rewrite (Hins Lock1 Hi). simpl.
    split; [lia|]. split; [done|]. repeat split.
    + intros j q Hj Hq. apply lookup_insert_cases in Hj as [[-> ->]|[Hne Hj]]; [done|eauto].
    + intros j a Hj. apply lookup_insert_cases in Hj as [[-> ?]|[Hne Hj]]; [done|eauto].
    + intros j Hj. apply lookup_insert_cases in Hj as [[-> ?]|[Hne Hj]]; [done|eauto].
  - (* Incr *)
    pose proof (Hincr i Hi) as Hlt.
    pose proof (slotsHeld_nonneg (workers s)) as Hnn.
    rewrite Int64Facts.add_in_range
      by (unfold Int64.in_range, Int64.min_int, Int64.max_int in *; lia).
    rewrite (Hins Unlock1 Hi). simpl.
    split; [lia|]. split; [lia|]. repeat split.
    + intros j q Hj Hq. apply lookup_insert_cases in Hj as [[-> ->]|[Hne Hj]]; eauto.
    + intros j a Hj. apply lookup_insert_cases in Hj as [[-> ?]|[Hne Hj]]; [done|].
      other_holder Hlock.
    + intros j Hj. apply lookup_insert_cases in Hj as [[-> ?]|[Hne Hj]]; [done|].
      other_holder Hlock.
  - (* Unlock1 *)
    rewrite (Hins Run Hi). simpl.
    split; [lia|]. split; [done|]. repeat split.
    + intros j q Hj Hq. apply lookup_insert_cases in Hj as [[-> ->]|[Hne Hj]]; [done|].
      other_holder Hlock.
    + intros j a Hj. apply lookup_insert_cases in Hj as [[-> ?]|[Hne Hj]]; [done|eauto].
    + intros j Hj. apply lookup_insert_cases in Hj as [[-> ?]|[Hne Hj]]; [done|eauto].
  - (* Run *)
    rewrite (Hins Lock2 Hi). simpl.
    split; [lia|]. split; [done|]. repeat split.
    + intros j q Hj Hq. apply lookup_insert_cases in Hj as [[-> ->]|[Hne Hj]]; [done|eauto].
    + intros j a Hj. apply lookup_insert_cases in Hj as [[-> ?]|[Hne Hj]]; [done|eauto].
    + intros j Hj. apply lookup_insert_cases in Hj as [[-> ?]|[Hne Hj]]; [done|eauto].
  - (* Lock2 *)
    destruct (activeWorkerCountLock s) as [holder|] eqn:Hholder; simpl.
    { rewrite Hholder. by repeat split. }
    rewrite (Hins Decr Hi). simpl.
    split; [lia|]. split; [done|]. repeat split.
    + intros j q Hj Hq. apply lookup_insert_cases in Hj as [[-> ->]|[Hne Hj]]; [done|].
      specialize (Hlock j q Hj Hq). congruence.
    + intros j a Hj. apply lookup_insert_cases in Hj as [[-> ?]|[Hne Hj]]; [done|eauto].
    + intros j Hj. apply lookup_insert_cases in Hj as [[-> ?]|[Hne Hj]]; [done|eauto].
  - (* Decr *)
    pose proof (slotsHeld_pos (workers s) i Decr Hi eq_refl) as Hpos.
    rewrite Int64Facts.sub_in_range
      by (unfold Int64.in_range, Int64.min_int, Int64.max_int in *; lia).
    rewrite (Hins Unlock2 Hi). simpl.
    split; [lia|]. split; [lia|]. repeat split.
    + intros j q Hj Hq. apply lookup_insert_cases in Hj as [[-> ->]|[Hne Hj]]; eauto.
    + intros j a Hj. apply lookup_insert_cases in Hj as [[-> ?]|[Hne Hj]]; [done|].
      other_holder Hlock.
    + intros j Hj. apply lookup_insert_cases in Hj as [[-> ?]|[Hne Hj]]; [done|].
      other_holder Hlock.
  - (* Unlock2 *)
    rewrite (Hins Idle Hi). simpl.
    split; [lia|]. split; [done|]. repeat split.
    + intros j q Hj Hq. apply lookup_insert_cases in Hj as [[-> ->]|[Hne Hj]]; [done|].
      other_holder Hlock.
    + intros j a Hj. apply lookup_insert_cases in Hj as [[-> ?]|[Hne Hj]]; [done|eauto].
    + intros j Hj. apply lookup_insert_cases in Hj as [[-> ?]|[Hne Hj]]; [done|eauto].
Qed.

Lemma invariant_perform s a :
  invariant noOfWorkers s → invariant noOfWorkers (perform noOfWorkers s a).
Proof.
  destruct a as [|i]; [|apply invariant_stepWorker].
  intros (Hcount & Hle & Hlock & Hcheck & Hincr).
  unfold invariant, perform. simpl. rewrite slotsHeld_app. simpl.
  split; [lia|]. split; [done|].
  assert (∀ j q, (workers s ++ [Idle]) !! j = Some q →
                 q = Idle ∨ workers s !! j = Some q) as Happ.
  { intros j q Hj. apply lookup_app_Some in Hj as [Hj|[_ Hj]]; [by right|].
    left. destruct (j - length (workers s))%nat; simpl in Hj; [congruence|].
    by rewrite lookup_nil in Hj. }
  repeat split.
  - intros j q Hj Hq. apply Happ in Hj as [->|Hj]; [done|eauto].
  - intros j a Hj. apply Happ in Hj as [?|Hj]; [done|eauto].
  - intros j Hj. apply Happ in Hj as [?|Hj]; [done|eauto].
Qed.

Lemma exec_snoc schedule a :
  exec noOfWorkers (schedule ++ [a]) =
  perform noOfWorkers (exec noOfWorkers schedule) a.
Proof. unfold exec. by rewrite foldl_app. Qed.

Lemma invariant_exec schedule : invariant noOfWorkers (exec noOfWorkers schedule).
Proof.
  induction schedule as [|a schedule IH] using rev_ind.
  - apply invariant_init.
  - rewrite exec_snoc. by apply invariant_perform.
Qed.

(** The counter moves only at the increment and at the decrement. *)
Lemma perform_counter s a :
  activeWorkerCount (perform noOfWorkers s a) ≠ activeWorkerCount s →
  ∃ i, a = Step i ∧
       ((workers s !! i = Some Incr ∧
         activeWorkerCount (perform noOfWorkers s a) =
           Int64.add (activeWorkerCount s) 1) ∨
        (workers s !! i = Some Decr ∧
         activeWorkerCount (perform noOfWorkers s a) =
           Int64.sub (activeWorkerCount s) 1)).
Proof.
  destruct a as [|i]; simpl; [done|]. intros Hne. exists i. split; [done|].
  unfold stepWorker in *.
  destruct (workers s !! i) as [[]|]; simpl in *; try done;
    unfold lock in *;
    repeat match goal with
           | H : context [match ?x with _ => _ end] |- _ => destruct x; simpl in H
           end; try done; auto.
Qed.
End Preservation.
End AdmissionFacts.

(** C6: in every state the workers can reach, whatever the schedule,
    [activeWorkerCount] is at most [noOfWorkers] and equals the number of
    workers that have incremented it and not yet decremented it.  A worker
    about to increment holds the lock and the counter is strictly below
    [noOfWorkers]; a worker about to decrement (its batch is finished)
    holds the lock; and the counter changes at no other statement: by one
    up at the increment, by one down at the decrement.  [noOfWorkers] is a
    non-negative [int]. *)
Theorem C6_activeWorkerCount_at_most_noOfWorkers
    (noOfWorkers : Z) (schedule : list Admission.action) :
  0 <= noOfWorkers <= Int64.max_int →
  let s := Admission.exec noOfWorkers schedule in
  Admission.activeWorkerCount s <= noOfWorkers ∧
  Admission.activeWorkerCount s = Admission.slotsHeld (Admission.workers s) ∧
  (∀ i, Admission.workers s !! i = Some Admission.Incr →
        Admission.activeWorkerCountLock s = Some i ∧
        Admission.activeWorkerCount s < noOfWorkers) ∧
  (∀ i, Admission.workers s !! i = Some Admission.Decr →
        Admission.activeWorkerCountLock s = Some i ∧
        1 <= Admission.activeWorkerCount s) ∧
  (∀ a, let s' := Admission.perform noOfWorkers s a in
        Admission.activeWorkerCount s' ≠ Admission.activeWorkerCount s →
        ∃ i, a = Admission.Step i ∧
             ((Admission.workers s !! i = Some Admission.Incr ∧
               Admission.activeWorkerCount s' = Admission.activeWorkerCount s + 1) ∨
              (Admission.workers s !! i = Some Admission.Decr ∧
               Admission.activeWorkerCount s' = Admission.activeWorkerCount s - 1))).
Proof.
  intros Hrange s.
  destruct (AdmissionFacts.invariant_exec noOfWorkers Hrange schedule)
    as (Hcount & Hle & Hlock & Hcheck & Hincr).
  fold s in Hcount, Hle, Hlock, Hcheck, Hincr.
  split; [done|]. split; [done|]. split; [|split].
  - intros i Hi. split; [by eapply Hlock|by apply (Hincr i)].
  - intros i Hi. split; [by eapply Hlock|].
    rewrite Hcount.
    exact (AdmissionFacts.slotsHeld_pos _ i Admission.Decr Hi eq_refl).
  - intros a s' Hne.
    destruct (AdmissionFacts.perform_counter noOfWorkers s a Hne) as (i & -> & Hcase).
    exists i. split; [done|].
    pose proof (AdmissionFacts.slotsHeld_nonneg (Admission.workers s)) as Hnn.
    destruct Hcase as [[Hi Hs']|[Hi Hs']]; [left|right]; (split; [done|]);
      fold s' in Hs'; rewrite Hs'.
    + apply Int64Facts.add_in_range.
      specialize (Hincr i Hi).
      unfold Int64.in_range, Int64.min_int, Int64.max_int in *. lia.
    + apply Int64Facts.sub_in_range.
      pose proof (AdmissionFacts.slotsHeld_pos _ i _ Hi eq_refl).
      unfold Int64.in_range, Int64.min_int, Int64.max_int in *. lia.
Qed.

(** Two workers and one slot: worker 0 is admitted and runs its batch,
    worker 1 finds the counter at the cap and goes to sleep. *)
Lemma C6_witness_two_workers_one_slot :
  0 <= 1 <= Int64.max_int ∧
  let s := Admission.exec 1 Admission.contendedSchedule in
  Admission.activeWorkerCount s <= 1 ∧
  Admission.activeWorkerCount s = Admission.slotsHeld (Admission.workers s) ∧
  (∀ i, Admission.workers s !! i = Some Admission.Incr →
        Admission.activeWorkerCountLock s = Some i ∧
        Admission.activeWorkerCount s < 1) ∧
  (∀ i, Admission.workers s !! i = Some Admission.Decr →
        Admission.activeWorkerCountLock s = Some i ∧
        1 <= Admission.activeWorkerCount s) ∧
  (∀ a, let s' := Admission.perform 1 s a in
        Admission.activeWorkerCount s' ≠ Admission.activeWorkerCount s →
        ∃ i, a = Admission.Step i ∧
             ((Admission.workers s !! i = Some Admission.Incr ∧
               Admission.activeWorkerCount s' = Admission.activeWorkerCount s + 1) ∨
              (Admission.workers s !! i = Some Admission.Decr ∧
               Admission.activeWorkerCount s' = Admission.activeWorkerCount s - 1))).
Proof.
  split; [unfold Int64.max_int; lia|].
  apply (C6_activeWorkerCount_at_most_noOfWorkers 1 Admission.contendedSchedule).
  unfold Int64.max_int. lia.
Defined.

Example contendedSchedule_state :
  Admission.exec 1 Admission.contendedSchedule =
  {| Admission.activeWorkerCount := 1;
     Admission.activeWorkerCountLock := None;
     Admission.workers := [Admission.Run; Admission.Sleep] |}.
Proof. reflexivity. Qed.

(** * Interrupted destinations at router setup (C7) *)

Lemma isInterrupted_spec r :
  isInterrupted r = true ↔
  up_status r = ExportingDataState ∨ up_status r = ExportingDataFailedState.
Proof. unfold isInterrupted. by rewrite orb_true_iff, !String.eqb_eq. Qed.

Lemma markInRecovery_lookup rows : ∀ (m : gmap string bool) k,
  markInRecovery rows m !! k =
  if existsb (λ r, String.eqb (up_destination_id r) k) rows then Some true else m !! k.
Proof.
  unfold markInRecovery.
  induction rows as [|r rows IH]; intros m k; simpl; [done|].
  rewrite IH. destruct (existsb _ rows); [by rewrite orb_true_r|].
  rewrite orb_false_r. destruct (String.eqb_spec (up_destination_id r) k) as [->|Hne].
  - apply lookup_insert_eq.
  - by apply lookup_insert_ne.
Qed.

Lemma elem_of_interruptedRows wh d r :
  r ∈ interruptedRows wh d ↔
  r ∈ wh_uploads d ∧ up_destination_type r = destType wh ∧
  (up_status r = ExportingDataState ∨ up_status r = ExportingDataFailedState).
Proof.
  unfold interruptedRows.
  rewrite list_elem_of_In, filter_In, <- list_elem_of_In.
  by rewrite andb_true_iff, String.eqb_eq, isInterrupted_spec.
Qed.

(** C7 (as amended): for a destination type listed in
    [crashRecoverWarehouses] (which [loadConfig] sets to RS alone),
    [setInterruptedDestinations] records in [inRecoveryMap] the
    [destination_id] of every upload of that type whose status is
    ExportingData or ExportingDataFailed, and changes no entry of any other
    destination; for every other destination type it returns at once and
    records nothing. *)
Theorem C7_interrupted_destinations_for_crash_recover_types
    (cfg : Config) (wh : HandleT) (w : World) :
  crashRecoverWarehouses loadConfig = ["RS"%string] ∧
  if Contains (crashRecoverWarehouses cfg) (destType wh) then
    ∃ recovery,
      setInterruptedDestinations cfg wh w = Ok tt (set_inRecoveryMap recovery w) ∧
      (∀ r, r ∈ wh_uploads (db w) →
            up_destination_type r = destType wh →
            up_status r = ExportingDataState ∨ up_status r = ExportingDataFailedState →
            recovery !! up_destination_id r = Some true) ∧
      (∀ k, recovery !! k ≠ inRecoveryMap w !! k →
            ∃ r, r ∈ wh_uploads (db w) ∧ up_destination_id r = k ∧
                 up_destination_type r = destType wh ∧
                 (up_status r = ExportingDataState ∨
                  up_status r = ExportingDataFailedState))
  else
    setInterruptedDestinations cfg wh w = Ok tt w.
Proof.
  split; [reflexivity|]. unfold setInterruptedDestinations.
  destruct (Contains (crashRecoverWarehouses cfg) (destType wh)); simpl; [|done].
  exists (markInRecovery (interruptedRows wh (db w)) (inRecoveryMap w)).
  split; [done|]. split.
  - intros r Hr Ht Hs. rewrite markInRecovery_lookup.
    destruct (existsb _ _) eqn:E; [done|].
    assert (existsb (λ r', String.eqb (up_destination_id r') (up_destination_id r))
              (interruptedRows wh (db w)) = true) as E'; [|congruence].
    apply existsb_exists. exists r. split; [|apply String.eqb_refl].
    apply list_elem_of_In, elem_of_interruptedRows. done.
  - intros k Hk. rewrite markInRecovery_lookup in Hk.
    destruct (existsb _ _) eqn:E; [|done].
    apply existsb_exists in E as (r & Hin & Heq).
    apply String.eqb_eq in Heq.
    apply list_elem_of_In, elem_of_interruptedRows in Hin as (Hin & Ht & Hs).
    by exists r.
Qed.

(** C7 (as stated) fails: a POSTGRES router whose table holds an upload in
    ExportingData for destination D returns from setup with D absent from
    the recovery set. *)
Lemma C7_counterexample_postgres_not_recorded :
  (∃ r, r ∈ wh_uploads (db (RecoveryScenario.interruptedWorld "POSTGRES")) ∧
        up_destination_type r = "POSTGRES"%string ∧
        up_status r = ExportingDataState ∧
        up_destination_id r = "D"%string) ∧
  ∃ w', RecoveryScenario.afterSetup "POSTGRES" = Ok tt w' ∧
        inRecoveryMap w' !! "D"%string = None.
Proof.
  split.
  - eexists. split; [left|]. by repeat split.
  - eexists. split; reflexivity.
Qed.

Example setup_records_RS :
  ∃ w', RecoveryScenario.afterSetup "RS" = Ok tt w' ∧
        inRecoveryMap w' !! "D"%string = Some true.
Proof. eexists. split; reflexivity. Qed.

(** * Runs of the queries and of the loops of an iteration *)

Lemma getPendingUploads_run wh warehouse w :
  getPendingUploads wh warehouse w =
  Ok (map uploadOfRow (pendingUploadRows wh warehouse (db w)),
      0 <? Z.of_nat (length (map uploadOfRow (pendingUploadRows wh warehouse (db w)))))
     (set_trace (trace w ++ [EvGetPendingUploads warehouse]) w).
Proof. reflexivity. Qed.

Section PendingLoop.
Variable cfg : Config.
Variable clock : nat → Time.
Variable managerNew : string → option string.
Variable wh : HandleT.
Variable binding : WarehouseT.
Variable m : string.
Hypothesis manager_ok : managerNew (destType wh) = Some m.

Lemma getStagingFiles_run startID endID (w : World) :
  getStagingFiles binding startID endID w =
  Ok (stagingFilesInRange binding startID endID (db w))
     (set_trace (trace w ++ [EvGetStagingFiles binding startID endID]) w).
Proof. reflexivity. Qed.

(** The loop builds one job for each upload of the longest prefix the
    gate admits, with the staging files of that upload's range, and
    clears the pair's [inProgress] bit iff it stopped before the end; the
    only events are the queries for the staging files of the admitted
    uploads. *)
Lemma pendingUploadsLoop_prefix pendingUpload pendingUploads :
  ∀ uploadJobs w, ∃ new w',
    pendingUploadsLoop cfg clock managerNew wh binding pendingUpload
      pendingUploads uploadJobs w = Ok (uploadJobs ++ new) w' ∧
    length new = admittedCount cfg clock (nowCalls w) pendingUploads ∧
    db w' = db w ∧
    inProgressMap w' =
      (if decide (length new < length pendingUploads)%nat
       then delete (connectionString binding) (inProgressMap w)
       else inProgressMap w) ∧
    (∀ i job u, new !! i = Some job → pendingUploads !! i = Some u →
       stagingFiles job =
         stagingFilesInRange binding (Upload_StartStagingFileID u)
           (Upload_EndStagingFileID u) (db w) ∧
       warehouse job = binding ∧ whManager job = m ∧ upload job = pendingUpload) ∧
    trace w' =
      trace w ++ map (λ u, EvGetStagingFiles binding (Upload_StartStagingFileID u)
                             (Upload_EndStagingFileID u))
                   (take (length new) pendingUploads) ∧
    inRecoveryMap w' = inRecoveryMap w ∧
    lastExecMap w' = lastExecMap w.
Proof.
  induction pendingUploads as [|u rest IH]; intros uploadJobs w.
  - exists [], w. rewrite !app_nil_r.
    repeat split; try done; intros i job u Hjob; by rewrite lookup_nil in Hjob.
  - rewrite pendingUploadsLoop_cons, bind_run, store_run, bind_run.
    rewrite canStartPendingUpload_run.
    change (nowCalls (set_heap _ w)) with (nowCalls w).
    cbn [admittedCount].
    destruct (retryGate cfg (clock (nowCalls w)) u) eqn:Hgate; cbv beta iota.
    + change (negb true) with false. cbv iota.
      rewrite bind_run, getStagingFiles_run. cbv beta iota.
      rewrite bind_run. unfold newManager at 1. rewrite manager_ok.
      change ((mret m : M string) ?w0) with (Ok m w0). cbv beta iota.
      match goal with
      | |- context [pendingUploadsLoop _ _ _ _ _ _ rest ?acc ?w2] =>
          destruct (IH acc w2)
            as (new & w' & Hrun & Hlen & Hdb & Hprog & Hjobs & Htrace & Hrec & Hlast)
      end.
      eexists (_ :: new), w'. rewrite Hrun, <- app_assoc. split; [reflexivity|].
      split; [simpl; by rewrite Hlen|]. split; [by rewrite Hdb|]. split.
      { rewrite Hprog. cbn [length inProgressMap set_trace set_nowCalls set_heap].
        destruct (decide (length new < length rest)%nat),
                 (decide (S (length new) < S (length rest))%nat); done || lia. }
      split.
      { intros [|i] job u' Hjob Hu; simpl in Hjob, Hu.
        - injection Hjob as <-. injection Hu as <-. by repeat split.
        - destruct (Hjobs i job u' Hjob Hu) as (Hfiles & Hrest).
          split; [exact Hfiles|exact Hrest]. }
      split; [|split; [exact Hrec|exact Hlast]].
      rewrite Htrace. cbn [trace set_trace length take map].
      by rewrite <- app_assoc.
    + change (negb false) with true. cbv iota.
      exists [], (set_inProgressMap
                    (delete (connectionString binding) (inProgressMap w))
                    (set_nowCalls (S (nowCalls w))
                       (set_heap (<[pendingUpload := u]> (heap w)) w))).
      rewrite app_nil_r. split; [reflexivity|]. split; [reflexivity|].
      split; [reflexivity|]. split.
      { cbn [length]. destruct (decide (0 < S (length rest))%nat); [done|lia]. }
      split.
      { intros i job u' Hjob. by rewrite lookup_nil in Hjob. }
      cbn [length take map trace set_inProgressMap set_nowCalls set_heap].
      by rewrite app_nil_r.
Qed.
End PendingLoop.

Section FreshOutcome.
Variable cfg : Config.
Variable clock : nat → Time.
Variable managerNew : string → option string.

(** The two outcomes of the gate in front of the fresh path: a pair that
    is not admitted is released at once; for an admitted pair [lastExec]
    is set first and the pending staging files are fetched next. *)
Lemma freshPath_outcome wh warehouse w :
  let key := connectionString warehouse in
  let r := freshPath cfg clock managerNew wh warehouse w in
  if frequencyGateAdmits cfg clock warehouse w then
    ∃ rest,
      trace (final r) =
        trace w ++ EvSetLastExec key (lastExecReading clock warehouse w)
          :: EvGetPendingStagingFiles warehouse :: rest ∧
      lastExecMap (final r) !! key = Some (lastExecReading clock warehouse w)
  else
    r = Ok tt (frequencyBlocked warehouse w).
Proof.
  intros key r. subst r.
  unfold frequencyGateAdmits, lastExecReading, freshPath, canStartUpload,
    uploadFrequencyExceeded.
  fold key. rewrite !bind_run. simpl.
  destruct (lastExecMap w !! key) as [lastExecTime|] eqn:Hl.
  - rewrite !bind_run. simpl.
    destruct (Z.leb_spec
                (freqInSOf cfg (GetConfigValue "syncFrequency" warehouse))
                (Int64.sub (Unix (clock (nowCalls w))) lastExecTime)) as [Hle|Hlt].
    + apply Z.ltb_ge in Hle. rewrite Hle. simpl.
      apply (freshPath_admitted cfg clock managerNew wh warehouse
               (set_nowCalls (S (nowCalls w)) w)).
    + apply Z.ltb_lt in Hlt. rewrite Hlt. simpl. reflexivity.
  - simpl. apply (freshPath_admitted cfg clock managerNew wh warehouse w).
Qed.
End FreshOutcome.

(** * Crash recovery in the main loop (C8) *)

Section CrashRecovery.
Variable cfg : Config.
Variable clock : nat → Time.
Variable managerNew : string → option string.
Variable CrashRecover :
  string → WarehouseT → Database → Database * option string.

Lemma keepsRecovery_setLastExec warehouse :
  Preserves keepsRecovery (setLastExec clock warehouse).
Proof.
  intros w. unfold setLastExec. rewrite !bind_run. simpl.
  split; simpl; [done|]. by apply prefix_app_r.
Qed.

Lemma keepsRecovery_freshPath wh warehouse :
  Preserves keepsRecovery (freshPath cfg clock managerNew wh warehouse).
Proof.
  unfold freshPath, canStartUpload, uploadFrequencyExceeded.
  apply (Preserves_bind keepsRecovery).
  { apply (Preserves_bind keepsRecovery).
    - apply (Preserves_bind keepsRecovery); [apply Preserves_gets, _|].
      intros m. destruct (m !! connectionString warehouse).
      + apply (Preserves_bind keepsRecovery); [apply pres_Now, _|].
        intros now. apply Preserves_ret, _.
      + apply Preserves_ret, _.
    - intros b. apply Preserves_ret, _. }
  intros can. apply (Preserves_if keepsRecovery).
  - apply pres_setDestInProgress, _.
  - apply (Preserves_bind keepsRecovery); [apply keepsRecovery_setLastExec|].
    intros _. apply (Preserves_bind keepsRecovery).
    + apply pres_getPendingStagingFiles, _.
    + intros files. apply pres_fresh_tail, _.
Qed.

(** The iteration from [getPendingUploads] on (lines 504-590). *)
Lemma after_recovery wh warehouse w :
  let r :=
    ('(pendingUploads, ok) ← getPendingUploads wh warehouse;
     if (ok : bool) then pendingPath cfg clock managerNew wh warehouse pendingUploads
     else freshPath cfg clock managerNew wh warehouse) w in
  ∃ rest, trace (final r) = trace w ++ EvGetPendingUploads warehouse :: rest ∧
          inRecoveryMap (final r) = inRecoveryMap w.
Proof.
  intros r. subst r. rewrite bind_run.
  unfold getPendingUploads at 1. rewrite !bind_run. simpl.
  match goal with
  | |- context [final ((if ?b then ?c1 else ?c2) ?w3)] =>
      assert (keepsRecovery w3 (final ((if b then c1 else c2) w3))) as [Hrec [rest Ht]]
  end.
  { apply (Preserves_if keepsRecovery).
    - apply pres_pendingPath, _.
    - apply keepsRecovery_freshPath. }
  exists rest. split; [|exact Hrec].
  etrans; [exact Ht|]. simpl. by rewrite <- app_assoc.
Qed.

(** The iteration of a binding that is not in progress and whose
    destination is in the recovery set, up to the outcome of
    [CrashRecover]. *)
Lemma mainLoopWarehouse_in_recovery wh warehouse w m inRecovery :
  default false (inProgressMap w !! connectionString warehouse) = false →
  inRecoveryMap w !! Destination_ID (Destination warehouse) = Some inRecovery →
  managerNew (destType wh) = Some m →
  mainLoopWarehouse cfg clock managerNew CrashRecover wh warehouse w =
  match CrashRecover m warehouse (db w) with
  | (d, Some _) =>
      Ok tt
        (set_inProgressMap
           (delete (connectionString warehouse)
              (<[connectionString warehouse := true]> (inProgressMap w)))
           (set_trace (trace w ++ [EvCrashRecover warehouse true]) (set_db d w)))
  | (d, None) =>
      ('(pendingUploads, ok) ← getPendingUploads wh warehouse;
       if (ok : bool) then pendingPath cfg clock managerNew wh warehouse pendingUploads
       else freshPath cfg clock managerNew wh warehouse)
        (set_inRecoveryMap
           (delete (Destination_ID (Destination warehouse)) (inRecoveryMap w))
           (set_trace (trace w ++ [EvCrashRecover warehouse false])
              (set_db d
                 (set_inProgressMap
                    (<[connectionString warehouse := true]> (inProgressMap w)) w))))
  end.
Proof.
  intros Hprog Hrec Hm.
  unfold mainLoopWarehouse. rewrite bind_run.
  unfold isDestInProgress at 1, gets at 1. rewrite Hprog.
  rewrite bind_run. unfold setDestInProgress at 1, modify at 1.
  rewrite bind_run. unfold recoveryGate. rewrite bind_run.
  unfold gets at 1. cbn [inRecoveryMap set_inProgressMap]. rewrite Hrec.
  rewrite bind_run. unfold newManager. rewrite Hm.
  change ((mret m : M string) ?w) with (Ok m w). cbv beta iota.
  rewrite bind_run. unfold crashRecover at 1. cbn [db set_inProgressMap].
  destruct (CrashRecover m warehouse (db w)) as [d [msg|]]; reflexivity.
Qed.

(** The iteration of a binding that is not in progress, whose destination
    is not in the recovery set and that has no pending upload: it takes
    the fresh path. *)
Lemma mainLoopWarehouse_no_pending wh warehouse w :
  default false (inProgressMap w !! connectionString warehouse) = false →
  inRecoveryMap w !! Destination_ID (Destination warehouse) = None →
  pendingUploadRows wh warehouse (db w) = [] →
  mainLoopWarehouse cfg clock managerNew CrashRecover wh warehouse w =
  freshPath cfg clock managerNew wh warehouse
    (set_trace (trace w ++ [EvGetPendingUploads warehouse])
       (set_inProgressMap
          (<[connectionString warehouse := true]> (inProgressMap w)) w)).
Proof.
  intros Hprog Hrec Hpending.
  unfold mainLoopWarehouse. rewrite bind_run.
  unfold isDestInProgress at 1, gets at 1. rewrite Hprog.
  rewrite bind_run. unfold setDestInProgress at 1, modify at 1.
  rewrite bind_run. unfold recoveryGate. rewrite bind_run.
  unfold gets at 1. cbn [inRecoveryMap set_inProgressMap]. rewrite Hrec.
  change ((mret true : M bool) ?w) with (Ok true w). cbv beta iota.
  change (negb true) with false. cbv iota.
  rewrite bind_run. unfold getPendingUploads at 1. rewrite !bind_run.
  simpl. rewrite Hpending. reflexivity.
Qed.

(** The iteration of a warehouse that is not in progress, from the recovery
    gate on. *)
Lemma mainLoopWarehouse_not_in_progress wh warehouse (w : World) :
  default false (inProgressMap w !! connectionString warehouse) = false →
  mainLoopWarehouse cfg clock managerNew CrashRecover wh warehouse w =
  (proceed ← recoveryGate managerNew CrashRecover wh warehouse;
   if negb proceed then (mret tt : M unit)
   else
     '(pendingUploads, ok) ← getPendingUploads wh warehouse;
     if (ok : bool) then pendingPath cfg clock managerNew wh warehouse pendingUploads
     else freshPath cfg clock managerNew wh warehouse)
    (set_inProgressMap (<[connectionString warehouse := true]> (inProgressMap w)) w).
Proof.
  intros Hprog. unfold mainLoopWarehouse. rewrite bind_run.
  unfold isDestInProgress at 1, gets at 1. rewrite Hprog.
  rewrite bind_run. reflexivity.
Qed.

(** C8: a binding that is not in progress and whose destination is in the
    recovery set first has [CrashRecover] called, before pending uploads
    are looked up or uploads created.  If the call fails, the iteration
    ends there: only the driver's call happened, the destination is still
    in the recovery set and the pair's [inProgress] bit is cleared, so the
    next tick takes the same route.  If it succeeds, the destination is
    removed from the recovery set and the iteration goes on, in the same
    tick, exactly as the iteration of a binding that is not in recovery
    does on the tables the driver left.  Where the pair has pending
    uploads, they are taken by the pending-uploads path: one job for each
    leading upload the retry gate admits, holding the staging files of
    that upload's range, all sent to the pair's worker in one batch at the
    end of the iteration, with no event other than the queries in
    between; the pair is released iff an upload was refused.  Where it has
    none, the frequency gate decides as on any other tick. *)
Theorem C8_crash_recovery_before_scheduling wh binding w m inRecovery :
  default false (inProgressMap w !! connectionString binding) = false →
  inRecoveryMap w !! Destination_ID (Destination binding) = Some inRecovery →
  managerNew (destType wh) = Some m →
  let key := connectionString binding in
  let r := mainLoopWarehouse cfg clock managerNew CrashRecover wh binding w in
  match CrashRecover m binding (db w) with
  | (d, Some _) =>
      ∃ w', r = Ok tt w' ∧
            trace w' = trace w ++ [EvCrashRecover binding true] ∧
            inRecoveryMap w' = inRecoveryMap w ∧
            inProgressMap w' !! key = None ∧
            db w' = d ∧ heap w' = heap w ∧ lastExecMap w' = lastExecMap w
  | (d, None) =>
      let looked := recoveredAndLooked binding d w in
      (∃ rest,
         trace (final r) =
           trace w ++ EvCrashRecover binding false
             :: EvGetPendingUploads binding :: rest) ∧
      inRecoveryMap (final r) =
        delete (Destination_ID (Destination binding)) (inRecoveryMap w) ∧
      r = mainLoopWarehouse cfg clock managerNew CrashRecover wh binding
            (recoveredWorld binding d w) ∧
      ∃ pending ok,
        getPendingUploads wh binding
          (set_inProgressMap (<[key := true]> (inProgressMap w))
             (recoveredWorld binding d w)) = Ok (pending, ok) looked ∧
        (pending ≠ [] →
         ∃ jobs w',
           r = Ok tt w' ∧
           db w' = d ∧
           lastExecMap w' = lastExecMap w ∧
           length jobs = admittedCount cfg clock (nowCalls w) pending ∧
           (∀ i job u, jobs !! i = Some job → pending !! i = Some u →
              getStagingFiles binding (Upload_StartStagingFileID u)
                (Upload_EndStagingFileID u) looked
              = Ok (stagingFiles job)
                   (set_trace
                      (trace looked ++ [EvGetStagingFiles binding
                                          (Upload_StartStagingFileID u)
                                          (Upload_EndStagingFileID u)]) looked) ∧
              warehouse job = binding ∧ whManager job = m) ∧
           trace w' =
             trace looked
               ++ map (λ u, EvGetStagingFiles binding
                              (Upload_StartStagingFileID u)
                              (Upload_EndStagingFileID u))
                    (take (length jobs) pending)
               ++ (if decide (jobs = []) then []
                   else [EvEnqueue (workerIdentifier binding) jobs]) ∧
           inProgressMap w' !! key =
             (if decide (length jobs < length pending)%nat then None
              else Some true)) ∧
        (pending = [] →
         if frequencyGateAdmits cfg clock binding w then
           ∃ rest,
             trace (final r) =
               trace looked
                 ++ EvSetLastExec key (lastExecReading clock binding w)
                 :: EvGetPendingStagingFiles binding :: rest ∧
             lastExecMap (final r) !! key
               = Some (lastExecReading clock binding w)
         else
           r = Ok tt (frequencyBlocked binding looked))
  end.
Proof.
  intros Hprog Hrec Hm key r.
  pose proof (mainLoopWarehouse_in_recovery wh binding w m inRecovery
                Hprog Hrec Hm) as Hr.
  fold r in Hr.
  destruct (CrashRecover m binding (db w)) as [d [msg|]] eqn:Hcr.
  - eexists. split; [exact Hr|]. simpl.
    repeat split; try done. apply lookup_delete_eq.
  - intros looked.
    set (marked := set_inProgressMap (<[key := true]> (inProgressMap w))
                     (recoveredWorld binding d w)).
    assert (r = ('(pendingUploads, ok) ← getPendingUploads wh binding;
                 if (ok : bool)
                 then pendingPath cfg clock managerNew wh binding pendingUploads
                 else freshPath cfg clock managerNew wh binding) marked) as Hrun
      by exact Hr.
    split; [|split; [|split]].
    + rewrite Hrun.
      destruct (after_recovery wh binding marked) as (rest & Ht & _).
      exists rest. etrans; [exact Ht|]. simpl. by rewrite <- app_assoc.
    + rewrite Hrun.
      destruct (after_recovery wh binding marked) as (rest & _ & Hkeep).
      etrans; [exact Hkeep|]. done.
    + rewrite (mainLoopWarehouse_not_in_progress wh binding
                 (recoveredWorld binding d w) Hprog).
      rewrite bind_run. unfold recoveryGate. rewrite bind_run.
      unfold gets at 1. cbn [inRecoveryMap set_inProgressMap].
      change (inRecoveryMap (recoveredWorld binding d w))
        with (delete (Destination_ID (Destination binding)) (inRecoveryMap w)).
      rewrite lookup_delete_eq. exact Hrun.
    + set (pending := map uploadOfRow (pendingUploadRows wh binding d)).
      exists pending, (0 <? Z.of_nat (length pending)).
      split; [reflexivity|].
      assert (r = (if 0 <? Z.of_nat (length pending)
                   then pendingPath cfg clock managerNew wh binding pending
                   else freshPath cfg clock managerNew wh binding) looked)
        as Hlooked.
      { rewrite Hrun, bind_run, getPendingUploads_run. reflexivity. }
      split.
      * intros Hpending.
        assert ((0 <? Z.of_nat (length pending)) = true) as Hany.
        { apply Z.ltb_lt. destruct pending; [done|simpl; lia]. }
        rewrite Hany in Hlooked. unfold pendingPath in Hlooked.
        rewrite bind_run in Hlooked. unfold alloc at 1 in Hlooked.
        cbv beta iota in Hlooked. rewrite bind_run in Hlooked.
        match type of Hlooked with
        | context [pendingUploadsLoop _ _ _ _ _ ?l pending [] ?w1] =>
            destruct (pendingUploadsLoop_prefix cfg clock managerNew wh binding m
                        Hm l pending [] w1)
              as (jobs & w' & Hloop & Hlen & Hdb & Hinprog & Hjobs & Htrace
                  & _ & Hlast)
        end.
        cbn [app] in Hloop. rewrite Hloop in Hlooked.
        exists jobs.
        destruct jobs as [|job jobs].
        -- exists w'. split; [exact Hlooked|]. split; [exact Hdb|].
           split; [exact Hlast|]. split; [exact Hlen|]. split.
           { intros i job u Hjob. by rewrite lookup_nil in Hjob. }
           split.
           { rewrite Htrace. cbn [length take map]. by rewrite !app_nil_r. }
           rewrite Hinprog. cbn [length].
           destruct (decide (0 < length pending)%nat) as [_|Hno].
           ++ apply lookup_delete_eq.
           ++ destruct pending; [done|simpl in Hno; lia].
        -- eexists. split; [exact Hlooked|]. cbn [db set_trace].
           split; [exact Hdb|]. split; [exact Hlast|]. split; [exact Hlen|]. split.
           { intros i job' u Hjob Hu.
             destruct (Hjobs i job' u Hjob Hu) as (Hfiles & Hb & Hmgr & _).
             rewrite getStagingFiles_run, Hfiles. done. }
           split.
           { cbn [trace set_trace]. rewrite Htrace.
             destruct (decide (job :: jobs = [])); [done|].
             by rewrite <- app_assoc. }
           cbn [inProgressMap set_trace]. rewrite Hinprog.
           destruct (decide _); [apply lookup_delete_eq|apply lookup_insert_eq].
      * intros Hpending. rewrite Hpending in Hlooked. cbn in Hlooked.
        rewrite Hlooked.
        exact (freshPath_outcome cfg clock managerNew wh binding looked).
Qed.
End CrashRecovery.

(** The RS binding of the recovery scenario, whose interrupted upload is
    still pending: with a driver whose recovery fails the iteration ends
    after the driver's call; with a driver whose recovery succeeds the
    upload is enqueued in the same iteration. *)
Lemma C8_witness_recovery_outcomes :
  let w := RecoveryScenario.inRecoveryWorld in
  let key := connectionString (Scenario.binding "RS") in
  default false (inProgressMap w !! key) = false ∧
  inRecoveryMap w !! Destination_ID (Destination (Scenario.binding "RS")) = Some true ∧
  Scenario.managerNew (destType (Scenario.router "RS")) = Some "RS"%string ∧
  (∃ w', RecoveryScenario.tick Scenario.recoverFail w = Ok tt w' ∧
         trace w' = trace w ++ [EvCrashRecover (Scenario.binding "RS") true] ∧
         inRecoveryMap w' = inRecoveryMap w ∧
         inProgressMap w' !! key = None ∧
         db w' = db w ∧ heap w' = heap w ∧ lastExecMap w' = lastExecMap w) ∧
  (∃ job w', RecoveryScenario.tick Scenario.recoverOk w = Ok tt w' ∧
             inRecoveryMap w' !! "D"%string = None ∧
             map StagingFile_ID (stagingFiles job) = [1; 2; 3] ∧
             trace w' =
               [EvCrashRecover (Scenario.binding "RS") false;
                EvGetPendingUploads (Scenario.binding "RS");
                EvGetStagingFiles (Scenario.binding "RS") 1 3;
                EvEnqueue "D_ns" [job]] ∧
             inProgressMap w' !! key = Some true).
Proof.
  intros w key.
  split; [reflexivity|]. split; [reflexivity|]. split; [reflexivity|]. split.
  - exact (C8_crash_recovery_before_scheduling loadConfig Scenario.clock
             Scenario.managerNew Scenario.recoverFail (Scenario.router "RS")
             (Scenario.binding "RS") w "RS" true eq_refl eq_refl eq_refl).
  - destruct (C8_crash_recovery_before_scheduling loadConfig Scenario.clock
                Scenario.managerNew Scenario.recoverOk (Scenario.router "RS")
                (Scenario.binding "RS") w "RS" true eq_refl eq_refl eq_refl)
      as (_ & Hrec & _ & pending & ok & Hlook & Hpending & _).
    injection Hlook as <- _.
    destruct Hpending as (jobs & w' & Hrun & _ & _ & Hlen & Hjobs & Htrace & Hprog);
      [discriminate|].
    destruct jobs as [|job [|job' jobs]]; try discriminate Hlen.
    exists job, w'. split; [exact Hrun|].
    split.
    { pose proof (f_equal final Hrun) as Hfinal. cbn [final] in Hfinal.
      rewrite <- Hfinal.
      etransitivity;
        [exact (f_equal (λ mp : gmap string bool, mp !! "D"%string) Hrec)|].
      apply lookup_delete_eq. }
    split.
    { destruct (Hjobs 0%nat job _ eq_refl eq_refl) as (Hfiles & _).
      injection Hfiles as <-. reflexivity. }
    split; [exact Htrace|exact Hprog].
Defined.

(** S6: after a successful recovery the interrupted upload is picked up by
    the pending-uploads path in the same iteration. *)
Example recovered_upload_enqueued_same_tick :
  ∃ w', RecoveryScenario.tick Scenario.recoverOk RecoveryScenario.inRecoveryWorld
          = Ok tt w' ∧
        inRecoveryMap w' !! "D"%string = None ∧
        RetryScenario.enqueued w' = [("D_ns"%string, 1%nat)] ∧
        head (trace w') = Some (EvCrashRecover (Scenario.binding "RS") false).
Proof. eexists. split; [vm_compute; reflexivity|]. repeat split; vm_compute; reflexivity. Qed.

(** * Batches of fresh uploads (C9) *)

Section BatchLoop.
Variable cfg : Config.
Variable clock : nat → Time.
Variable managerNew : string → option string.
Variable wh : HandleT.
Variable binding : WarehouseT.
Variable m : string.
Variable files : list StagingFileT.
Variable w0 : World.

Let size : nat := Z.to_nat (stagingFilesBatchSize cfg).
Let len : Z := Z.of_nat (length files).

Hypothesis size_pos : 0 < stagingFilesBatchSize cfg <= Int64.max_int.
Hypothesis len_range : len <= 2 ^ 62.
Hypothesis manager_ok : managerNew (destType wh) = Some m.

Lemma batch_nonempty k :
  (k * size < length files)%nat →
  ∃ first last_, head (batchAt files size k) = Some first ∧
                 last (batchAt files size k) = Some last_.
Proof.
  intros Hk. unfold batchAt.
  assert (length (take size (drop (k * size) files)) ≠ 0%nat) as Hne.
  { rewrite length_take, length_drop. subst size. lia. }
  destruct (take size (drop (k * size) files)) as [|f l] eqn:E; [done|].
  exists f. destruct (last (f :: l)) as [x|] eqn:El; [by exists x|].
  by apply last_None in El.
Qed.

Lemma count_add k :
  (k * size < length files)%nat →
  Int64.add (Z.of_nat (k * size)) (stagingFilesBatchSize cfg)
  = Z.of_nat (S k * size).
Proof.
  intros Hk. subst size len.
  assert (Z.of_nat (S k * Z.to_nat (stagingFilesBatchSize cfg))
          = Z.of_nat (k * Z.to_nat (stagingFilesBatchSize cfg))
            + stagingFilesBatchSize cfg) as -> by lia.
  apply Int64Facts.add_in_range.
  unfold Int64.in_range, Int64.min_int, Int64.max_int in *.
  destruct k as [|k]; [simpl; lia|].
  assert (Z.to_nat (stagingFilesBatchSize cfg)
          ≤ S k * Z.to_nat (stagingFilesBatchSize cfg))%nat by lia.
  lia.
Qed.

Lemma slice_batch k (w : World) :
  (k * size < length files)%nat →
  slice files (Z.of_nat (k * size))
    (if len <=? Z.of_nat (S k * size) then len else Z.of_nat (S k * size)) w
  = Ok (batchAt files size k) w.
Proof.
  intros Hk. unfold slice, batchAt. fold len.
  destruct (Z.leb_spec len (Z.of_nat (S k * size))) as [Hlast|Hmore].
  - assert ((0 <=? Z.of_nat (k * size)) && (Z.of_nat (k * size) <=? len)
            && (len <=? len) = true) as ->.
    { rewrite !andb_true_iff, !Z.leb_le. subst len. lia. }
    change ((mret ?x : M (list StagingFileT)) w) with (Ok x w). f_equal.
    rewrite Nat2Z.id.
    rewrite !take_ge; [done|rewrite length_drop; subst len; lia..].
  - assert ((0 <=? Z.of_nat (k * size))
            && (Z.of_nat (k * size) <=? Z.of_nat (S k * size))
            && (Z.of_nat (S k * size) <=? len) = true) as ->.
    { rewrite !andb_true_iff, !Z.leb_le. subst len. lia. }
    change ((mret ?x : M (list StagingFileT)) w) with (Ok x w). f_equal.
    rewrite Nat2Z.id. f_equal. lia.
Qed.

Lemma initUpload_run chunk first last_ (w : World) :
  head chunk = Some first → last chunk = Some last_ →
  initUpload clock wh binding chunk w =
  Ok (newUpload wh binding (wh_uploads_id_seq (db w)) first last_)
     (set_trace
        (trace w ++ [EvInitUpload binding
                       (newUpload wh binding (wh_uploads_id_seq (db w)) first last_)])
        (set_db (insertUpload
                   (newUploadRow wh binding (wh_uploads_id_seq (db w)) first last_
                      (clock (nowCalls w))) (db w))
           (set_nowCalls (S (nowCalls w)) w))).
Proof. intros Hf Hl. unfold initUpload. rewrite Hf, Hl. reflexivity. Qed.

Lemma alloc_run u (w : World) :
  alloc u w = Ok (length (heap w)) (set_heap (heap w ++ [u]) w).
Proof. reflexivity. Qed.

(** The state after one more batch. *)
Lemma batchWorld_S k first last_ :
  head (batchAt files size k) = Some first →
  last (batchAt files size k) = Some last_ →
  let w := batchWorld clock wh binding files size w0 k in
  let u := newUpload wh binding (wh_uploads_id_seq (db w)) first last_ in
  set_heap (heap w ++ [u])
    (set_trace (trace w ++ [EvInitUpload binding u])
       (set_db (insertUpload
                  (newUploadRow wh binding (wh_uploads_id_seq (db w)) first last_
                     (clock (nowCalls w))) (db w))
          (set_nowCalls (S (nowCalls w)) w)))
  = batchWorld clock wh binding files size w0 (S k).
Proof.
  intros Hfirst Hlast w u. subst w u.
  unfold batchWorld, set_heap, set_trace, set_db, set_nowCalls, insertUpload.
  cbn [db heap inProgressMap inRecoveryMap lastExecMap nowCalls trace
       wh_uploads wh_staging_files wh_uploads_id_seq].
  assert (uploadAt wh binding files size w0 k
          = newUpload wh binding (wh_uploads_id_seq (db w0) + Z.of_nat k) first last_)
    as Hupload by (unfold uploadAt, firstOf, lastOf; by rewrite Hfirst, Hlast).
  assert (rowAt clock wh binding files size w0 k
          = newUploadRow wh binding (wh_uploads_id_seq (db w0) + Z.of_nat k)
              first last_ (clock (nowCalls w0 + k)))
    as Hrow by (unfold rowAt, firstOf, lastOf; by rewrite Hfirst, Hlast).
  rewrite !seq_S, !map_app.
  cbn [map Nat.add].
  rewrite Hupload, Hrow, <- !app_assoc.
  f_equal; [f_equal; lia|lia].
Qed.

Lemma jobs_S k :
  map (jobAt binding m files size w0) (seq 0 k)
    ++ [ {| upload := length (heap (batchWorld clock wh binding files size w0 k));
            stagingFiles := batchAt files size k;
            warehouse := binding;
            whManager := m |} ]
  = map (jobAt binding m files size w0) (seq 0 (S k)).
Proof.
  rewrite seq_S, map_app. cbn [map Nat.add]. f_equal. unfold jobAt. f_equal.
  f_equal. cbn [heap batchWorld]. by rewrite length_app, length_map, length_seq.
Qed.

(** One iteration of the loop. *)
Lemma batchLoop_iteration fuel k :
  (k * size < length files)%nat →
  batchLoop cfg clock managerNew (S fuel) wh binding files (Z.of_nat (k * size))
    (map (jobAt binding m files size w0) (seq 0 k))
    (batchWorld clock wh binding files size w0 k)
  = if len <=? Z.of_nat (S k * size)
    then Ok (map (jobAt binding m files size w0) (seq 0 (S k)))
            (batchWorld clock wh binding files size w0 (S k))
    else batchLoop cfg clock managerNew fuel wh binding files
           (Z.of_nat (S k * size))
           (map (jobAt binding m files size w0) (seq 0 (S k)))
           (batchWorld clock wh binding files size w0 (S k)).
Proof.
  intros Hk.
  destruct (batch_nonempty k Hk) as (first & last_ & Hfirst & Hlast).
  cbn [batchLoop]. fold len. rewrite (count_add k Hk).
  rewrite bind_run, (slice_batch k _ Hk).
  rewrite bind_run, (initUpload_run _ first last_ _ Hfirst Hlast).
  rewrite bind_run. unfold newManager. rewrite manager_ok.
  change ((mret m : M string) ?w) with (Ok m w). cbv beta iota.
  rewrite bind_run, alloc_run.
  cbn [heap set_trace set_db set_nowCalls].
  rewrite (batchWorld_S k first last_ Hfirst Hlast), jobs_S.
  by destruct (len <=? Z.of_nat (S k * size)).
Qed.

Lemma batchWorld_0 : batchWorld clock wh binding files size w0 0 = w0.
Proof.
  unfold batchWorld. cbn [seq map]. rewrite !app_nil_r, Z.add_0_r, Nat.add_0_r.
  destruct w0 as [[] ? ? ? ? ? ?]. reflexivity.
Qed.

(** With enough fuel the loop returns, after [n] batches where [n] is
    the least number of batches of [size] files that cover the list. *)
Lemma batchLoop_run fuel : ∀ k,
  (k * size < length files)%nat →
  (length files ≤ (k + fuel) * size)%nat →
  ∃ n, (k < n)%nat ∧
       ((n - 1) * size < length files ≤ n * size)%nat ∧
       batchLoop cfg clock managerNew fuel wh binding files (Z.of_nat (k * size))
         (map (jobAt binding m files size w0) (seq 0 k))
         (batchWorld clock wh binding files size w0 k)
       = Ok (map (jobAt binding m files size w0) (seq 0 n))
            (batchWorld clock wh binding files size w0 n).
Proof.
  induction fuel as [|fuel IH]; intros k Hk Hfuel; [lia|].
  rewrite (batchLoop_iteration fuel k Hk).
  destruct (Z.leb_spec len (Z.of_nat (S k * size))) as [Hdone|Hmore].
  - exists (S k). split; [lia|]. split; [|done]. subst len.
    replace (S k - 1)%nat with k by lia. lia.
  - destruct (IH (S k)) as (n & Hn & Hbounds & Hrun); [subst len; lia..|].
    exists n. split; [lia|]. by split.
Qed.
End BatchLoop.

(** In a list sorted by a key, the keys of a run of consecutive elements lie
    between those of the run's first and last element. *)
Lemma sorted_run_between {A} (key : A → Z) (l : list A) (i n : nat)
    (first last_ x : A) :
  StronglySorted (key_le key) l →
  head (take n (drop i l)) = Some first →
  last (take n (drop i l)) = Some last_ →
  x ∈ take n (drop i l) →
  key first <= key x <= key last_.
Proof.
  intros Hsorted Hfirst Hlast Hx.
  assert (StronglySorted (key_le key) (take n (drop i l))) as Hrun.
  { rewrite <- (take_drop i l) in Hsorted.
    apply StronglySorted_app_1_r in Hsorted.
    rewrite <- (take_drop n (drop i l)) in Hsorted.
    by apply StronglySorted_app_1_l in Hsorted. }
  destruct (take n (drop i l)) as [|y run] eqn:E; [done|].
  injection Hfirst as ->. split.
  - apply StronglySorted_cons in Hrun as [Hall _].
    apply elem_of_cons in Hx as [->|Hx]; [unfold key_le; lia|].
    rewrite Forall_forall in Hall. by apply Hall.
  - apply last_Some in Hlast as [run' Hrun'].
    rewrite Hrun' in Hrun, Hx.
    apply elem_of_app in Hx as [Hx|Hx].
    + eapply (StronglySorted_app_1_elem_of (key_le key)); [exact Hrun|exact Hx|left].
    + apply list_elem_of_singleton in Hx as ->. lia.
Qed.

Lemma pending_files_sorted warehouse d :
  StronglySorted (key_le StagingFile_ID)
    (map stagingFileOfRow (pendingStagingRows warehouse d)).
Proof. apply StronglySorted_map_key. simpl. apply (order_by_sorted sf_id). Qed.

(** Consecutive batches of [size] files put together give the list back. *)
Lemma concat_batches {A} (l : list A) (size : nat) : ∀ n,
  (0 < size)%nat → (length l ≤ n * size)%nat →
  concat (map (λ i, take size (drop (i * size) l)) (seq 0 n)) = l.
Proof.
  intros n Hsize. revert l.
  induction n as [|n IH]; intros l Hlen.
  - simpl in Hlen. destruct l; [done|simpl in Hlen; lia].
  - rewrite <- cons_seq, <- fmap_S_seq. cbn [map concat].
    change (take size (drop (0 * size) l)) with (take size l).
    change (map ?f (S <$> ?x)) with (f <$> (S <$> x)).
    rewrite <- list_fmap_compose.
    transitivity (take size l ++ drop size l); [|apply take_drop].
    f_equal.
    etransitivity; [|apply (IH (drop size l))].
    + f_equal. apply list_fmap_ext. intros j i Hj. cbn [compose].
      rewrite drop_drop. reflexivity.
    + rewrite length_drop. simpl in Hlen. lia.
Qed.

Section FreshBatches.
Variable cfg : Config.
Variable clock : nat → Time.
Variable managerNew : string → option string.

(** The fresh path of an admitted pair: the batch loop starts in
    [afterGate]. *)
Lemma freshPath_admitted_run wh warehouse w :
  frequencyGateAdmits cfg clock warehouse w = true →
  let files := map stagingFileOfRow (pendingStagingRows warehouse (db w)) in
  freshPath cfg clock managerNew wh warehouse w =
  (if (length files =? 0)%nat then setDestInProgress warehouse false
   else uploadJobs ← batchLoop cfg clock managerNew (length files) wh warehouse files 0 [];
        enqueueUploadJobs uploadJobs warehouse) (afterGate clock warehouse w).
Proof.
  intros Hgate files.
  assert (∀ w1 : World,
    db w1 = db w →
    (setLastExec clock warehouse;;
     stagingFilesList ← getPendingStagingFiles warehouse;
     if (length stagingFilesList =? 0)%nat then setDestInProgress warehouse false
     else uploadJobs ← batchLoop cfg clock managerNew (length stagingFilesList)
                          wh warehouse stagingFilesList 0 [];
          enqueueUploadJobs uploadJobs warehouse) w1
    = (if (length files =? 0)%nat then setDestInProgress warehouse false
       else uploadJobs ← batchLoop cfg clock managerNew (length files) wh warehouse files 0 [];
            enqueueUploadJobs uploadJobs warehouse)
        (set_trace (trace w1 ++ [EvSetLastExec (connectionString warehouse)
                                   (Unix (clock (nowCalls w1)));
                                 EvGetPendingStagingFiles warehouse])
           (set_lastExecMap
              (<[connectionString warehouse := Unix (clock (nowCalls w1))]>
                 (lastExecMap w1))
              (set_nowCalls (S (nowCalls w1)) w1)))) as Htail.
  { intros w1 Hdb. rewrite bind_run. unfold setLastExec at 1.
    rewrite !bind_run. simpl.
    unfold getPendingStagingFiles at 1. rewrite !bind_run. simpl.
    rewrite Hdb. fold files. f_equal.
    unfold set_trace. simpl. by rewrite <- app_assoc. }
  unfold frequencyGateAdmits in Hgate.
  unfold freshPath, canStartUpload, uploadFrequencyExceeded, afterGate, lastExecReading.
  rewrite !bind_run. simpl.
  destruct (lastExecMap w !! connectionString warehouse) as [lastExecTime|] eqn:Hl.
  - rewrite !bind_run. simpl.
    apply Z.leb_le, Z.ltb_ge in Hgate. rewrite Hgate. simpl.
    rewrite Htail by done. reflexivity.
  - simpl. rewrite Htail by done. reflexivity.
Qed.

(** C9: when the gate admits a pair with pending staging files (and no
    pending upload), the fresh path cuts the files, in id order, into [n]
    consecutive batches of [stagingFilesBatchSize] files, the last one
    holding what is left.  For the i-th batch it inserts one upload row in
    Waiting whose range runs from the id of the batch's first file to the
    id of its last, and builds one job with its own upload record; all
    jobs are sent to the pair's worker in a single batch, after the last
    upload has been created.  The ids of a batch's files lie within the
    range of its upload. *)
Theorem C9_fresh_uploads_in_batches wh binding m w :
  let size := Z.to_nat (stagingFilesBatchSize cfg) in
  let files := map stagingFileOfRow (pendingStagingRows binding (db w)) in
  let w0 := afterGate clock binding w in
  0 < stagingFilesBatchSize cfg <= Int64.max_int →
  managerNew (destType wh) = Some m →
  frequencyGateAdmits cfg clock binding w = true →
  files ≠ [] →
  Z.of_nat (length files) <= 2 ^ 62 →
  ∃ n jobs w',
    freshPath cfg clock managerNew wh binding w = Ok tt w' ∧
    ((n - 1) * size < length files ≤ n * size)%nat ∧
    length jobs = n ∧
    StronglySorted (key_le StagingFile_ID) files ∧
    concat (map stagingFiles jobs) = files ∧
    (∀ i job, jobs !! i = Some job →
       stagingFiles job = take size (drop (i * size) files) ∧
       upload job = (length (heap w) + i)%nat ∧
       warehouse job = binding ∧
       ∃ first last_ u row,
         head (stagingFiles job) = Some first ∧
         last (stagingFiles job) = Some last_ ∧
         (∀ f, f ∈ stagingFiles job →
               StagingFile_ID first <= StagingFile_ID f <= StagingFile_ID last_) ∧
         heap w' !! upload job = Some u ∧
         Upload_ID u = wh_uploads_id_seq (db w) + Z.of_nat i ∧
         Upload_Status u = WaitingState ∧
         Upload_StartStagingFileID u = StagingFile_ID first ∧
         Upload_EndStagingFileID u = StagingFile_ID last_ ∧
         Upload_SourceID u = Source_ID (Source binding) ∧
         Upload_DestinationID u = Destination_ID (Destination binding) ∧
         Upload_DestinationType u = destType wh ∧
         Upload_Namespace u = Namespace binding ∧
         Upload_Attempts u = 0 ∧
         wh_uploads (db w') !! (length (wh_uploads (db w)) + i)%nat = Some row ∧
         up_id row = wh_uploads_id_seq (db w) + Z.of_nat i ∧
         up_status row = WaitingState ∧
         up_start_staging_file_id row = StagingFile_ID first ∧
         up_end_staging_file_id row = StagingFile_ID last_ ∧
         up_source_id row = Source_ID (Source binding) ∧
         up_destination_id row = Destination_ID (Destination binding) ∧
         up_destination_type row = destType wh ∧
         up_namespace row = Namespace binding ∧
         up_created_at row = clock (nowCalls w0 + i) ∧
         u = newUpload wh binding (wh_uploads_id_seq (db w) + Z.of_nat i)
               first last_ ∧
         row = newUploadRow wh binding (wh_uploads_id_seq (db w) + Z.of_nat i)
                 first last_ (clock (nowCalls w0 + i))) ∧
    length (wh_uploads (db w')) = (length (wh_uploads (db w)) + n)%nat ∧
    trace w' =
      trace w0 ++ map (λ job, EvInitUpload binding (deref (heap w') (upload job))) jobs
        ++ [EvEnqueue (workerIdentifier binding) jobs].
Proof.
  intros size files w0 Hsize Hm Hgate Hfiles Hlen.
  rewrite (freshPath_admitted_run wh binding w Hgate). fold files w0.
  assert (0 < length files)%nat as Hpos by (destruct files; [done|simpl; lia]).
  assert ((length files =? 0)%nat = false) as -> by (apply Nat.eqb_neq; lia).
  destruct (batchLoop_run cfg clock managerNew wh binding m files w0
              Hsize Hlen Hm (length files) 0) as (n & Hn & Hbounds & Hrun).
  { simpl. lia. }
  { simpl. subst size. nia. }
  rewrite batchWorld_0 in Hrun. cbn [seq map Nat.mul] in Hrun.
  change (Z.of_nat 0) with 0 in Hrun.
  fold size in Hrun, Hbounds.
  rewrite bind_run, Hrun.
  set (jobs := map (jobAt binding m files size w0) (seq 0 n)).
  set (w1 := batchWorld clock wh binding files size w0 n).
  exists n, jobs, (set_trace (trace w1 ++ [EvEnqueue (workerIdentifier binding) jobs]) w1).
  split; [reflexivity|]. split; [exact Hbounds|].
  split; [subst jobs; by rewrite length_map, length_seq|].
  assert (∀ i, (i < n)%nat →
            heap w1 !! (length (heap w) + i)%nat
            = Some (uploadAt wh binding files size w0 i)) as Hheap.
  { intros i Hi. subst w1. cbn [heap batchWorld].
    change (heap w0) with (heap w).
    rewrite lookup_app_r by lia.
    replace (length (heap w) + i - length (heap w))%nat with i by lia.
    rewrite list_lookup_fmap, lookup_seq_lt by done. reflexivity. }
  split; [apply pending_files_sorted|].
  split.
  { subst jobs. rewrite map_map. cbn [stagingFiles jobAt].
    apply (concat_batches files size n); [subst size; lia|lia]. }
  split; [|split].
  - intros i job Hjob. subst jobs.
    rewrite list_lookup_fmap in Hjob.
    destruct (seq 0 n !! i) as [j|] eqn:Hseq; [|done].
    apply lookup_seq in Hseq as [-> Hi]. simpl in Hjob. injection Hjob as <-.
    cbn [stagingFiles upload warehouse jobAt].
    split; [reflexivity|]. split; [reflexivity|]. split; [reflexivity|].
    destruct (batch_nonempty cfg files Hsize i) as (first & last_ & Hfirst & Hlast).
    { fold size. destruct n as [|n']; [lia|].
      replace (S n' - 1)%nat with n' in Hbounds by lia.
      assert (i * size ≤ n' * size)%nat by (apply Nat.mul_le_mono_r; lia). lia. }
    fold size in Hfirst, Hlast.
    exists first, last_,
      (newUpload wh binding (wh_uploads_id_seq (db w) + Z.of_nat i) first last_),
      (newUploadRow wh binding (wh_uploads_id_seq (db w) + Z.of_nat i)
         first last_ (clock (nowCalls w0 + i))).
    split; [exact Hfirst|]. split; [exact Hlast|]. split.
    { intros f Hf. unfold batchAt in *.
      by eapply (sorted_run_between StagingFile_ID files (i * size) size);
        [apply pending_files_sorted|..]. }
    split.
    { pose proof (Hheap i Hi) as Hh.
      unfold uploadAt, firstOf, lastOf in Hh. rewrite Hfirst, Hlast in Hh.
      exact Hh. }
    do 9 (split; [reflexivity|]).
    split.
    { subst w1. cbn [db set_trace batchWorld wh_uploads].
      change (db w0) with (db w).
      rewrite lookup_app_r by lia.
      replace (length (wh_uploads (db w)) + i - length (wh_uploads (db w)))%nat
        with i by lia.
      rewrite list_lookup_fmap, lookup_seq_lt by done. simpl.
      unfold rowAt, firstOf, lastOf. by rewrite Hfirst, Hlast. }
    repeat split; reflexivity.
  - subst w1. cbn [db set_trace batchWorld wh_uploads].
    change (db w0) with (db w).
    by rewrite length_app, length_map, length_seq.
  - cbn [trace set_trace heap]. rewrite app_assoc. f_equal.
    change (trace w1)
      with (trace w0 ++ map (λ i, EvInitUpload binding (uploadAt wh binding files size w0 i))
                            (seq 0 n)).
    f_equal. subst jobs. rewrite map_map. apply map_ext_in.
    intros i Hi%in_seq. unfold deref.
    pose proof (Hheap i ltac:(lia)) as Hh.
    change (heap w1 !! upload (jobAt binding m files size w0 i)
            = Some (uploadAt wh binding files size w0 i)) in Hh.
    by rewrite Hh.
Qed.
End FreshBatches.

(** S2: 500 staging files and [stagingFilesBatchSize = 200]. *)
Lemma C9_witness_500_files_in_batches_of_200 :
  let cfg := ChunkScenario.config in
  let wh := Scenario.router "POSTGRES" in
  let binding := Scenario.binding "POSTGRES" in
  let w := ChunkScenario.seeded in
  let size := Z.to_nat (stagingFilesBatchSize cfg) in
  let files := map stagingFileOfRow (pendingStagingRows binding (db w)) in
  let w0 := afterGate Scenario.clock binding w in
  0 < stagingFilesBatchSize cfg <= Int64.max_int ∧
  Scenario.managerNew (destType wh) = Some "POSTGRES"%string ∧
  frequencyGateAdmits cfg Scenario.clock binding w = true ∧
  files ≠ [] ∧
  Z.of_nat (length files) <= 2 ^ 62 ∧
  ∃ n jobs w',
    freshPath cfg Scenario.clock Scenario.managerNew wh binding w = Ok tt w' ∧
    ((n - 1) * size < length files ≤ n * size)%nat ∧
    length jobs = n ∧
    StronglySorted (key_le StagingFile_ID) files ∧
    concat (map stagingFiles jobs) = files ∧
    (∀ i job, jobs !! i = Some job →
       stagingFiles job = take size (drop (i * size) files) ∧
       upload job = (length (heap w) + i)%nat ∧
       warehouse job = binding ∧
       ∃ first last_ u row,
         head (stagingFiles job) = Some first ∧
         last (stagingFiles job) = Some last_ ∧
         (∀ f, f ∈ stagingFiles job →
               StagingFile_ID first <= StagingFile_ID f <= StagingFile_ID last_) ∧
         heap w' !! upload job = Some u ∧
         Upload_ID u = wh_uploads_id_seq (db w) + Z.of_nat i ∧
         Upload_Status u = WaitingState ∧
         Upload_StartStagingFileID u = StagingFile_ID first ∧
         Upload_EndStagingFileID u = StagingFile_ID last_ ∧
         Upload_SourceID u = Source_ID (Source binding) ∧
         Upload_DestinationID u = Destination_ID (Destination binding) ∧
         Upload_DestinationType u = destType wh ∧
         Upload_Namespace u = Namespace binding ∧
         Upload_Attempts u = 0 ∧
         wh_uploads (db w') !! (length (wh_uploads (db w)) + i)%nat = Some row ∧
         up_id row = wh_uploads_id_seq (db w) + Z.of_nat i ∧
         up_status row = WaitingState ∧
         up_start_staging_file_id row = StagingFile_ID first ∧
         up_end_staging_file_id row = StagingFile_ID last_ ∧
         up_source_id row = Source_ID (Source binding) ∧
         up_destination_id row = Destination_ID (Destination binding) ∧
         up_destination_type row = destType wh ∧
         up_namespace row = Namespace binding ∧
         up_created_at row = Scenario.clock (nowCalls w0 + i) ∧
         u = newUpload wh binding (wh_uploads_id_seq (db w) + Z.of_nat i)
               first last_ ∧
         row = newUploadRow wh binding (wh_uploads_id_seq (db w) + Z.of_nat i)
                 first last_ (Scenario.clock (nowCalls w0 + i))) ∧
    length (wh_uploads (db w')) = (length (wh_uploads (db w)) + n)%nat ∧
    trace w' =
      trace w0 ++ map (λ job, EvInitUpload binding (deref (heap w') (upload job))) jobs
        ++ [EvEnqueue (workerIdentifier binding) jobs].
Proof.
  intros cfg wh binding w size files w0.
  assert (0 < stagingFilesBatchSize cfg <= Int64.max_int) as H1
    by (unfold Int64.max_int; simpl; lia).
  assert (Scenario.managerNew (destType wh) = Some "POSTGRES"%string) as H2 by reflexivity.
  assert (frequencyGateAdmits cfg Scenario.clock binding w = true) as H3 by reflexivity.
  assert (files ≠ []) as H4 by (vm_compute; discriminate).
  assert (Z.of_nat (length files) <= 2 ^ 62) as H5 by (vm_compute; discriminate).
  split; [exact H1|]. split; [exact H2|]. split; [exact H3|].
  split; [exact H4|]. split; [exact H5|].
  exact (C9_fresh_uploads_in_batches cfg Scenario.clock Scenario.managerNew wh binding
           "POSTGRES" w H1 H2 H3 H4 H5).
Defined.

(** S2, by evaluation of one iteration of the main loop: three uploads
    covering [1..200], [201..400] and [401..500], one batch of three jobs. *)
Example S2_three_uploads_one_batch :
  ∃ w', ChunkScenario.tick ChunkScenario.seeded = Ok tt w' ∧
        ChunkScenario.uploads w' =
          [(1, 1, 200, WaitingState); (2, 201, 400, WaitingState);
           (3, 401, 500, WaitingState)] ∧
        PendingScenario.enqueuedJobs w' =
          [[(0%nat, 1, 1, 200, map Z.of_nat (seq 1 200));
            (1%nat, 2, 201, 400, map Z.of_nat (seq 201 200));
            (2%nat, 3, 401, 500, map Z.of_nat (seq 401 100))]].
Proof. eexists. split; [vm_compute; reflexivity|]. split; vm_compute; reflexivity. Qed.

(** * Namespace of a ClickHouse destination (C10) *)

Section Namespace.
Variable ToProviderCase : string → string → string.
Variable ToSafeNamespace : string → string → string.
Variable GetNamespace : SourceT → DestinationT → Database → string * bool.
Variable TrimSpace : string → string.

(** C10: for destination type CLICKHOUSE, [getNamespace] returns
    [Config["database"]] as it is whenever the config is a map whose
    [database] key holds a string: none of the sanitising helpers, the
    recorded namespace or the source name takes part.  In every other
    case (the config is not a map, the key is absent, or its value is not
    a string) it panics; it never returns a value or an error then. *)
Theorem C10_clickhouse_namespace_is_database_verbatim
    (config : Iface) (source : SourceT) (destination : DestinationT) (w : World) :
  let r := getNamespace ToProviderCase ToSafeNamespace GetNamespace TrimSpace
             config source destination "CLICKHOUSE" w in
  match config with
  | IMap configMap =>
      match configMap !! "database"%string with
      | Some (IString database) => r = Ok database w
      | _ => ∃ msg, r = Panicked msg w
      end
  | _ => ∃ msg, r = Panicked msg w
  end.
Proof.
  intros r. subst r. unfold getNamespace.
  destruct config as [| | | | |configMap]; try (by eexists).
  change (String.eqb "CLICKHOUSE" "CLICKHOUSE") with true. cbv iota.
  destruct (configMap !! "database"%string) as [[| | |database| |]|];
    first [reflexivity | by eexists].
Qed.
End Namespace.

Example clickhouse_database_kept :
  ∀ w, getNamespace (λ _ s, s) (λ _ s, s) (λ _ _ _, ("recorded"%string, true)) (λ s, s)
         (IMap {[ "database"%string := IString " My-DB "%string;
                  "namespace"%string := IString "other"%string ]})
         Scenario.src (Scenario.dst "CLICKHOUSE") "CLICKHOUSE" w
       = Ok " My-DB "%string w.
Proof. reflexivity. Qed.

Example clickhouse_database_missing_panics :
  ∀ w, ∃ msg,
    getNamespace (λ _ s, s) (λ _ s, s) (λ _ _ _, ("recorded"%string, true)) (λ s, s)
      (IMap {[ "namespace"%string := IString "other"%string ]})
      Scenario.src (Scenario.dst "CLICKHOUSE") "CLICKHOUSE" w
    = Panicked msg w.
Proof. intros w. eexists. reflexivity. Qed.

(** * Keys of the registries *)

Lemma append_separator_inj (c : ascii) (s1 s2 t1 t2 : string) :
  lacks c s1 = true → lacks c s2 = true →
  s1 +:+ String c t1 = s2 +:+ String c t2 →
  s1 = s2 ∧ t1 = t2.
Proof.
  revert s2. induction s1 as [|a s1 IH]; intros [|b s2] H1 H2 Heq; simpl in *.
  - by injection Heq.
  - injection Heq as <- _. apply andb_true_iff in H2 as [H2 _].
    by rewrite Ascii.eqb_refl in H2.
  - injection Heq as -> _. apply andb_true_iff in H1 as [H1 _].
    by rewrite Ascii.eqb_refl in H1.
  - injection Heq as -> Heq.
    apply andb_true_iff in H1 as [_ H1]. apply andb_true_iff in H2 as [_ H2].
    destruct (IH s2 H1 H2 Heq) as [-> ->]. done.
Qed.

(** X1: [connectionString] tells pairs apart: two bindings whose source ids
    hold no colon have the same key only if they have the same source id
    and the same destination id. *)
Theorem connectionString_inj (a b : WarehouseT) :
  lacks ":" (Source_ID (Source a)) = true →
  lacks ":" (Source_ID (Source b)) = true →
  connectionString a = connectionString b →
  Source_ID (Source a) = Source_ID (Source b) ∧
  Destination_ID (Destination a) = Destination_ID (Destination b).
Proof.
  intros Ha Hb Heq. unfold connectionString in Heq. simpl in Heq.
  injection Heq as Heq.
  apply (append_separator_inj ":" _ _ _ _ Ha Hb) in Heq as [Hs Hd].
  split; [done|]. by injection Hd.
Qed.

Lemma connectionString_inj_witness :
  lacks ":" (Source_ID (Source KeyScenario.first)) = true ∧
  lacks ":" (Source_ID (Source KeyScenario.otherNamespace)) = true ∧
  connectionString KeyScenario.first = connectionString KeyScenario.otherNamespace ∧
  Source_ID (Source KeyScenario.first) = Source_ID (Source KeyScenario.otherNamespace) ∧
  Destination_ID (Destination KeyScenario.first)
    = Destination_ID (Destination KeyScenario.otherNamespace).
Proof.
  split; [reflexivity|]. split; [reflexivity|]. split; [reflexivity|].
  apply (connectionString_inj KeyScenario.first KeyScenario.otherNamespace);
    reflexivity.
Defined.

(** Without the condition on the ids two different pairs can share a key. *)
Example connectionString_collision :
  connectionString (KeyScenario.bindingOf "a:destination:b" "c" "ns")
  = connectionString (KeyScenario.bindingOf "a" "b:destination:c" "ns").
Proof. reflexivity. Qed.

(** X2: [workerIdentifier] tells workers apart: two bindings whose
    destination ids hold no underscore have the same worker name only if
    they have the same destination id and the same namespace. *)
Theorem workerIdentifier_inj (a b : WarehouseT) :
  lacks "_" (Destination_ID (Destination a)) = true →
  lacks "_" (Destination_ID (Destination b)) = true →
  workerIdentifier a = workerIdentifier b →
  Destination_ID (Destination a) = Destination_ID (Destination b) ∧
  Namespace a = Namespace b.
Proof.
  intros Ha Hb Heq. unfold workerIdentifier in Heq.
  by apply (append_separator_inj "_" _ _ _ _ Ha Hb) in Heq.
Qed.

Lemma workerIdentifier_inj_witness :
  lacks "_" (Destination_ID (Destination KeyScenario.first)) = true ∧
  lacks "_" (Destination_ID (Destination KeyScenario.otherSource)) = true ∧
  workerIdentifier KeyScenario.first = workerIdentifier KeyScenario.otherSource ∧
  Destination_ID (Destination KeyScenario.first)
    = Destination_ID (Destination KeyScenario.otherSource) ∧
  Namespace KeyScenario.first = Namespace KeyScenario.otherSource.
Proof.
  split; [reflexivity|]. split; [reflexivity|]. split; [reflexivity|].
  apply (workerIdentifier_inj KeyScenario.first KeyScenario.otherSource);
    reflexivity.
Defined.

(** X3: the in-progress registry is read back as it was written: after
    [setDestInProgress a starting], [isDestInProgress b] reports [starting]
    for a binding with the key of [a], and what it reported before for a
    binding with another key. *)
Theorem setDestInProgress_then_isDestInProgress
    (a b : WarehouseT) (starting : bool) (w : World) :
  (setDestInProgress a starting;; isDestInProgress b) w =
    Ok (if decide (connectionString a = connectionString b) then starting
        else default false (inProgressMap w !! connectionString b))
       (final (setDestInProgress a starting w)).
Proof.
  rewrite bind_run. unfold setDestInProgress, isDestInProgress. munfold.
  destruct starting; simpl; f_equal.
  - destruct (decide (connectionString a = connectionString b)) as [->|Hne].
    + by rewrite lookup_insert_eq.
    + by rewrite lookup_insert_ne.
  - destruct (decide (connectionString a = connectionString b)) as [->|Hne].
    + by rewrite lookup_delete_eq.
    + by rewrite lookup_delete_ne.
Qed.

(** * Queries on the metadata tables *)

Lemma uploadOfPair_spec dtype warehouse r :
  uploadOfPair dtype warehouse r = true ↔
  up_destination_type r = dtype ∧
  up_source_id r = Source_ID (Source warehouse) ∧
  up_destination_id r = Destination_ID (Destination warehouse).
Proof.
  unfold uploadOfPair. rewrite !andb_true_iff, !String.eqb_eq. tauto.
Qed.

Lemma isTerminal_spec r :
  isTerminal r = true ↔
  up_status r = ExportedDataState ∨ up_status r = AbortedState.
Proof. unfold isTerminal. by rewrite orb_true_iff, !String.eqb_eq. Qed.

Lemma pendingOf_spec dtype warehouse r :
  uploadOfPair dtype warehouse r && negb (isTerminal r) = true ↔
  pendingOf dtype warehouse r.
Proof.
  unfold pendingOf. rewrite andb_true_iff, uploadOfPair_spec, negb_true_iff.
  rewrite <- not_true_iff_false, isTerminal_spec. tauto.
Qed.

(** X4: [getStagingFiles] returns, in ascending id order, exactly the
    staging files of the binding's pair whose id lies in the inclusive
    range [startID..endID]; it returns none when [endID < startID]; it
    changes nothing but the trace. *)
Theorem getStagingFiles_range (warehouse : WarehouseT) (startID endID : Z) (w : World) :
  ∃ rows,
    getStagingFiles warehouse startID endID w =
      Ok (map (λ r, {| StagingFile_ID := sf_id r;
                       StagingFile_Location := sf_location r;
                       StagingFile_FirstEventAt := zeroTime;
                       StagingFile_LastEventAt := zeroTime |}) rows)
         (set_trace (trace w ++ [EvGetStagingFiles warehouse startID endID]) w) ∧
    rows ≡ₚ filter (λ r, (startID <= sf_id r <= endID) ∧ ofPair warehouse r)
              (wh_staging_files (db w)) ∧
    StronglySorted (key_le sf_id) rows ∧
    (endID < startID → rows = []).
Proof.
  eexists. split; [reflexivity|].
  assert (order_by sf_id
            (List.filter
               (λ r, (startID <=? sf_id r) && (sf_id r <=? endID) &&
                     stagingFileOfPair warehouse r) (wh_staging_files (db w)))
          ≡ₚ filter (λ r, (startID <= sf_id r <= endID) ∧ ofPair warehouse r)
               (wh_staging_files (db w))) as Hperm.
  { rewrite order_by_perm.
    rewrite (List_filter_stdpp _
               (λ r, (startID <= sf_id r <= endID) ∧ ofPair warehouse r)); [done|].
    intros r. rewrite !andb_true_iff, !Z.leb_le, stagingFileOfPair_spec. tauto. }
  split; [exact Hperm|]. split; [apply order_by_sorted|].
  intros Hempty.
  assert (filter (λ r, (startID <= sf_id r <= endID) ∧ ofPair warehouse r)
            (wh_staging_files (db w)) = []) as Hnil.
  { clear Hperm. induction (wh_staging_files (db w)) as [|r l IH]; [done|].
    rewrite filter_cons. destruct (decide _) as [[? _]|_]; [lia|exact IH]. }
  rewrite Hnil in Hperm. by apply Permutation_nil_r in Hperm.
Qed.

(** X5: [getPendingUploads] returns, in ascending id order, exactly the
    uploads of the binding's pair and of the router's destination type whose
    status is neither Exported nor Aborted, and its flag is true iff there
    is at least one; it changes nothing but the trace. *)
Theorem getPendingUploads_pending (wh : HandleT) (warehouse : WarehouseT) (w : World) :
  ∃ rows ok,
    getPendingUploads wh warehouse w =
      Ok (map uploadOfRow rows, ok)
         (set_trace (trace w ++ [EvGetPendingUploads warehouse]) w) ∧
    rows ≡ₚ filter (pendingOf (destType wh) warehouse) (wh_uploads (db w)) ∧
    StronglySorted (key_le up_id) rows ∧
    (ok = true ↔ ∃ r, r ∈ wh_uploads (db w) ∧ pendingOf (destType wh) warehouse r).
Proof.
  exists (pendingUploadRows wh warehouse (db w)). eexists. split; [reflexivity|].
  assert (pendingUploadRows wh warehouse (db w)
          ≡ₚ filter (pendingOf (destType wh) warehouse) (wh_uploads (db w))) as Hperm.
  { unfold pendingUploadRows. rewrite order_by_perm.
    rewrite (List_filter_stdpp _ (pendingOf (destType wh) warehouse)); [done|].
    intros r. apply pendingOf_spec. }
  split; [exact Hperm|]. split; [apply order_by_sorted|].
  rewrite Z.ltb_lt, length_map.
  change (db (set_trace _ w)) with (db w). split.
  - intros Hlen. destruct (pendingUploadRows wh warehouse (db w)) as [|r rows] eqn:E;
      [try rewrite E in Hlen; simpl in Hlen; lia|].
    exists r.
    assert (r ∈ filter (pendingOf (destType wh) warehouse) (wh_uploads (db w))) as Hr
      by (rewrite <- Hperm; left).
    apply list_elem_of_filter in Hr. tauto.
  - intros (r & Hin & Hp).
    assert (r ∈ pendingUploadRows wh warehouse (db w)) as Hr
      by (rewrite Hperm; by apply list_elem_of_filter).
    destruct (pendingUploadRows wh warehouse (db w)) as [|r0 rows];
      [by apply elem_of_nil in Hr|].
    rewrite length_cons. lia.
Qed.

Lemma newUploadRow_pending wh warehouse uploadID first last_ now :
  pendingOf (destType wh) warehouse
    (newUploadRow wh warehouse uploadID first last_ now).
Proof. unfold pendingOf. simpl. repeat split; done. Qed.

Lemma newUploadRow_not_terminal wh warehouse uploadID first last_ now :
  isTerminal (newUploadRow wh warehouse uploadID first last_ now) = false.
Proof. reflexivity. Qed.

(** X6: [initUpload] and the queries that follow it.  On an empty list of
    staging files [initUpload] panics and leaves the tables as they were.
    On a list with first file [first] and last file [last_] it takes the
    next value of the id sequence, inserts one row in Waiting covering
    [first.ID..last_.ID], and returns that upload; the next
    [getPendingUploads] of the same router and binding reports the upload
    (so its flag is true), and the threshold read by
    [getPendingStagingFiles] has not moved. *)
Theorem initUpload_then_pending (clock : nat → Time) (wh : HandleT)
    (warehouse : WarehouseT) (files : list StagingFileT) (w : World) :
  match head files, last files with
  | Some first, Some last_ =>
      ∃ u w1 uploads w2,
        initUpload clock wh warehouse files w = Ok u w1 ∧
        Upload_ID u = wh_uploads_id_seq (db w) ∧
        wh_uploads_id_seq (db w1) = wh_uploads_id_seq (db w) + 1 ∧
        Upload_Status u = WaitingState ∧
        Upload_StartStagingFileID u = StagingFile_ID first ∧
        Upload_EndStagingFileID u = StagingFile_ID last_ ∧
        length (wh_uploads (db w1)) = S (length (wh_uploads (db w))) ∧
        getPendingUploads wh warehouse w1 = Ok (uploads, true) w2 ∧
        (∃ u', u' ∈ uploads ∧
               Upload_ID u' = Upload_ID u ∧
               Upload_Status u' = WaitingState ∧
               Upload_StartStagingFileID u' = StagingFile_ID first ∧
               Upload_EndStagingFileID u' = StagingFile_ID last_ ∧
               Upload_Attempts u' = 0) ∧
        lastStagingFileIDOf warehouse (db w1) = lastStagingFileIDOf warehouse (db w)
  | _, _ =>
      initUpload clock wh warehouse files w = Panicked "index out of range" w
  end.
Proof.
  destruct (head files) as [first|] eqn:Hfirst;
    [|by unfold initUpload; rewrite Hfirst].
  destruct (last files) as [last_|] eqn:Hlast;
    [|by unfold initUpload; rewrite Hfirst, Hlast].
  set (row := newUploadRow wh warehouse (wh_uploads_id_seq (db w)) first last_
                (clock (nowCalls w))).
  pose proof (initUpload_run clock wh warehouse files first last_ w Hfirst Hlast)
    as Hinit. fold row in Hinit.
  set (w1 := set_trace _ _) in Hinit.
  set (rows1 := pendingUploadRows wh warehouse (db w1)).
  assert (row ∈ rows1) as Hrow.
  { unfold rows1, pendingUploadRows. apply elem_of_order_by.
    apply list_elem_of_In, filter_In. split.
    - subst w1. cbn [db set_trace set_db wh_uploads insertUpload].
      apply in_or_app. right. by left.
    - apply pendingOf_spec, newUploadRow_pending. }
  assert (getPendingUploads wh warehouse w1 =
          Ok (map uploadOfRow rows1, true)
             (set_trace (trace w1 ++ [EvGetPendingUploads warehouse]) w1)) as Hpending.
  { rewrite getPendingUploads_run. fold rows1.
    f_equal. f_equal. apply Z.ltb_lt. rewrite length_map.
    destruct rows1 as [|r0 rows]; [by apply elem_of_nil in Hrow|].
    rewrite length_cons. lia. }
  exists (newUpload wh warehouse (wh_uploads_id_seq (db w)) first last_), w1,
         (map uploadOfRow rows1),
         (set_trace (trace w1 ++ [EvGetPendingUploads warehouse]) w1).
  split; [exact Hinit|].
  subst w1. cbn [db set_trace set_db insertUpload wh_uploads wh_uploads_id_seq].
  repeat (split; [done|]).
  split; [by rewrite length_app, Nat.add_comm|].
  split; [exact Hpending|]. split.
  - exists (uploadOfRow row). split; [|by repeat split].
    apply list_elem_of_fmap_2. exact Hrow.
  - unfold lastStagingFileIDOf. cbn [wh_uploads insertUpload].
    rewrite List.filter_app. cbn [List.filter].
    fold row. change (isTerminal row) with false.
    by rewrite andb_false_r, app_nil_r.
Qed.

(** * Edges of the fresh path *)

Section FreshEdges.
Variable cfg : Config.
Variable clock : nat → Time.
Variable managerNew : string → option string.

(** X7: a pair the gate admits but that has no pending staging file is
    released with no upload created and nothing sent to its worker, yet
    its [lastExec] has been set: the next attempt has to wait for the
    window again. *)
Theorem freshPath_without_files wh warehouse w :
  frequencyGateAdmits cfg clock warehouse w = true →
  pendingStagingRows warehouse (db w) = [] →
  ∃ w',
    freshPath cfg clock managerNew wh warehouse w = Ok tt w' ∧
    db w' = db w ∧ heap w' = heap w ∧
    trace w' = trace w ++ [EvSetLastExec (connectionString warehouse)
                             (lastExecReading clock warehouse w);
                           EvGetPendingStagingFiles warehouse] ∧
    inProgressMap w' !! connectionString warehouse = None ∧
    lastExecMap w' !! connectionString warehouse
      = Some (lastExecReading clock warehouse w).
Proof.
  intros Hgate Hrows.
  rewrite (freshPath_admitted_run cfg clock managerNew wh warehouse w Hgate).
  rewrite Hrows. cbn [map length Nat.eqb].
  eexists. split; [reflexivity|].
  cbn [final db heap trace inProgressMap lastExecMap set_inProgressMap afterGate].
  repeat (split; [reflexivity|]). split.
  - apply lookup_delete_eq.
  - apply lookup_insert_eq.
Qed.

(** X8: with a [stagingFilesBatchSize] that is zero or negative, an
    admitted pair with pending staging files makes the main loop panic in
    the first pass of the batch loop, before any upload is created and
    before anything is sent to the worker. *)
Theorem freshPath_non_positive_batch_size wh warehouse w :
  frequencyGateAdmits cfg clock warehouse w = true →
  pendingStagingRows warehouse (db w) ≠ [] →
  Int64.min_int <= stagingFilesBatchSize cfg <= 0 →
  ∃ msg,
    freshPath cfg clock managerNew wh warehouse w
      = Panicked msg (afterGate clock warehouse w).
Proof.
  intros Hgate Hrows Hsize.
  rewrite (freshPath_admitted_run cfg clock managerNew wh warehouse w Hgate).
  set (files := map stagingFileOfRow (pendingStagingRows warehouse (db w))).
  assert (0 < length files)%nat as Hpos.
  { subst files. rewrite length_map.
    destruct (pendingStagingRows warehouse (db w)); [done|simpl; lia]. }
  assert ((length files =? 0)%nat = false) as -> by (apply Nat.eqb_neq; lia).
  rewrite bind_run.
  destruct (length files) as [|fuel] eqn:Elen; [lia|].
  cbn [batchLoop]. rewrite Elen.
  assert (Int64.add 0 (stagingFilesBatchSize cfg) = stagingFilesBatchSize cfg) as ->.
  { apply Int64Facts.add_in_range.
    unfold Int64.in_range, Int64.min_int, Int64.max_int in *. simpl. lia. }
  assert ((Z.of_nat (S fuel) <=? stagingFilesBatchSize cfg) = false) as ->
    by (apply Z.leb_gt; lia).
  rewrite bind_run. unfold slice. rewrite Elen.
  destruct (Z.leb_spec 0 (stagingFilesBatchSize cfg)) as [Hzero|Hneg].
  - assert (stagingFilesBatchSize cfg = 0) as -> by lia.
    cbn. by eexists.
  - cbn. by eexists.
Qed.

Lemma freshPath_blocked_run wh warehouse w lastExecTime :
  lastExecMap w !! connectionString warehouse = Some lastExecTime →
  Int64.sub (Unix (clock (nowCalls w))) lastExecTime
    < freqInSOf cfg (GetConfigValue "syncFrequency" warehouse) →
  freshPath cfg clock managerNew wh warehouse w
    = Ok tt (frequencyBlocked warehouse w).
Proof.
  intros Hl Hlt. unfold freshPath, canStartUpload, uploadFrequencyExceeded.
  rewrite !bind_run. simpl. rewrite Hl. rewrite !bind_run. simpl.
  apply Z.ltb_lt in Hlt. rewrite Hlt. reflexivity.
Qed.

(** X9: the window starts at the admission.  After an iteration of the
    fresh path that admitted the pair, however that iteration ended, a
    further attempt made while less than the window has elapsed since the
    recorded start is refused: it creates nothing, sends nothing and
    clears the pair's [inProgress] bit. *)
Theorem freshPath_refused_within_window wh warehouse w :
  let w' := final (freshPath cfg clock managerNew wh warehouse w) in
  let elapsed := Unix (clock (nowCalls w')) - lastExecReading clock warehouse w in
  frequencyGateAdmits cfg clock warehouse w = true →
  0 <= elapsed < freqInSOf cfg (GetConfigValue "syncFrequency" warehouse) →
  elapsed <= Int64.max_int →
  freshPath cfg clock managerNew wh warehouse w' = Ok tt (frequencyBlocked warehouse w') ∧
  db (frequencyBlocked warehouse w') = db w' ∧
  trace (frequencyBlocked warehouse w') = trace w' ∧
  inProgressMap (frequencyBlocked warehouse w') !! connectionString warehouse = None.
Proof.
  intros w' elapsed Hgate Helapsed Hmax.
  assert (lastExecMap w' !! connectionString warehouse
          = Some (lastExecReading clock warehouse w)) as Hlast.
  { subst w'.
    rewrite (freshPath_admitted_run cfg clock managerNew wh warehouse w Hgate).
    match goal with
    | |- context [final (?c ?w0)] =>
        pose proof (pres_fresh_tail keepsLastExec cfg clock managerNew wh warehouse
                      (map stagingFileOfRow (pendingStagingRows warehouse (db w))) w0)
          as [Hl _]
    end.
    rewrite Hl. cbn [lastExecMap afterGate]. apply lookup_insert_eq. }
  split; [|split; [reflexivity|split; [reflexivity|]]].
  - apply (freshPath_blocked_run wh warehouse w' _ Hlast).
    rewrite Int64Facts.sub_in_range; [fold elapsed; lia|].
    fold elapsed. unfold Int64.in_range, Int64.min_int. lia.
  - cbn [inProgressMap frequencyBlocked set_inProgressMap]. apply lookup_delete_eq.
Qed.
End FreshEdges.

Lemma freshPath_without_files_witness :
  frequencyGateAdmits loadConfig Scenario.clock (Scenario.binding "POSTGRES")
    FreshScenario.idle = true ∧
  pendingStagingRows (Scenario.binding "POSTGRES") (db FreshScenario.idle) = [] ∧
  ∃ w',
    freshPath loadConfig Scenario.clock Scenario.managerNew
      (Scenario.router "POSTGRES") (Scenario.binding "POSTGRES") FreshScenario.idle
      = Ok tt w' ∧
    db w' = db FreshScenario.idle ∧ heap w' = heap FreshScenario.idle ∧
    trace w' = trace FreshScenario.idle
                 ++ [EvSetLastExec (connectionString (Scenario.binding "POSTGRES"))
                       (lastExecReading Scenario.clock (Scenario.binding "POSTGRES")
                          FreshScenario.idle);
                     EvGetPendingStagingFiles (Scenario.binding "POSTGRES")] ∧
    inProgressMap w' !! connectionString (Scenario.binding "POSTGRES") = None ∧
    lastExecMap w' !! connectionString (Scenario.binding "POSTGRES")
      = Some (lastExecReading Scenario.clock (Scenario.binding "POSTGRES")
                FreshScenario.idle).
Proof.
  split; [reflexivity|]. split; [reflexivity|].
  apply (freshPath_without_files loadConfig Scenario.clock Scenario.managerNew
           (Scenario.router "POSTGRES") (Scenario.binding "POSTGRES")
           FreshScenario.idle); reflexivity.
Defined.

Lemma freshPath_non_positive_batch_size_witness :
  frequencyGateAdmits FreshScenario.zeroBatch Scenario.clock
    (Scenario.binding "POSTGRES") FreshScenario.threeFiles = true ∧
  pendingStagingRows (Scenario.binding "POSTGRES") (db FreshScenario.threeFiles) ≠ [] ∧
  Int64.min_int <= stagingFilesBatchSize FreshScenario.zeroBatch <= 0 ∧
  ∃ msg,
    freshPath FreshScenario.zeroBatch Scenario.clock Scenario.managerNew
      (Scenario.router "POSTGRES") (Scenario.binding "POSTGRES")
      FreshScenario.threeFiles
    = Panicked msg (afterGate Scenario.clock (Scenario.binding "POSTGRES")
                      FreshScenario.threeFiles).
Proof.
  assert (pendingStagingRows (Scenario.binding "POSTGRES")
            (db FreshScenario.threeFiles) ≠ []) as Hrows by (vm_compute; discriminate).
  assert (Int64.min_int <= stagingFilesBatchSize FreshScenario.zeroBatch <= 0) as Hsize
    by (unfold Int64.min_int; simpl; lia).
  split; [reflexivity|]. split; [exact Hrows|]. split; [exact Hsize|].
  exact (freshPath_non_positive_batch_size FreshScenario.zeroBatch Scenario.clock
           Scenario.managerNew (Scenario.router "POSTGRES")
           (Scenario.binding "POSTGRES") FreshScenario.threeFiles
           eq_refl Hrows Hsize).
Defined.

Lemma freshPath_refused_within_window_witness :
  let cfg := loadConfig in
  let wh := Scenario.router "POSTGRES" in
  let warehouse := Scenario.binding "POSTGRES" in
  let w := FreshScenario.threeFiles in
  let w' := final (freshPath cfg Scenario.clock Scenario.managerNew wh warehouse w) in
  let elapsed := Unix (Scenario.clock (nowCalls w'))
                 - lastExecReading Scenario.clock warehouse w in
  frequencyGateAdmits cfg Scenario.clock warehouse w = true ∧
  0 <= elapsed < freqInSOf cfg (GetConfigValue "syncFrequency" warehouse) ∧
  elapsed <= Int64.max_int ∧
  freshPath cfg Scenario.clock Scenario.managerNew wh warehouse w'
    = Ok tt (frequencyBlocked warehouse w') ∧
  db (frequencyBlocked warehouse w') = db w' ∧
  trace (frequencyBlocked warehouse w') = trace w' ∧
  inProgressMap (frequencyBlocked warehouse w') !! connectionString warehouse = None.
Proof.
  intros cfg wh warehouse w w' elapsed.
  assert (0 <= elapsed < freqInSOf cfg (GetConfigValue "syncFrequency" warehouse))
    as Helapsed by (vm_compute; split; [discriminate|reflexivity]).
  assert (elapsed <= Int64.max_int) as Hmax by (vm_compute; discriminate).
  split; [reflexivity|]. split; [exact Helapsed|]. split; [exact Hmax|].
  exact (freshPath_refused_within_window cfg Scenario.clock Scenario.managerNew
           wh warehouse w eq_refl Helapsed Hmax).
Defined.

(** * The pending-uploads path *)

Section PendingPath.
Variable cfg : Config.
Variable clock : nat → Time.
Variable managerNew : string → option string.
Variable wh : HandleT.
Variable binding : WarehouseT.
Variable m : string.
Hypothesis manager_ok : managerNew (destType wh) = Some m.

(** X10: where a manager exists for the router's destination type, the
    loop over the pending uploads returns.  It builds jobs for the
    longest leading run of uploads the retry gate admits, one job per
    upload and in the same order; the staging files of the i-th job are
    those [getStagingFiles] selects for the range of the i-th pending
    upload.  The tables are not written, and the pair's [inProgress] bit
    is cleared iff an upload was refused. *)
Theorem pendingUploadsLoop_jobs_for_admitted_prefix pendingUpload pendingUploads w :
  ∃ jobs w',
    pendingUploadsLoop cfg clock managerNew wh binding pendingUpload
      pendingUploads [] w = Ok jobs w' ∧
    length jobs = admittedCount cfg clock (nowCalls w) pendingUploads ∧
    db w' = db w ∧
    inProgressMap w' =
      (if decide (length jobs < length pendingUploads)%nat
       then delete (connectionString binding) (inProgressMap w)
       else inProgressMap w) ∧
    (∀ i job u, jobs !! i = Some job → pendingUploads !! i = Some u →
       getStagingFiles binding (Upload_StartStagingFileID u)
         (Upload_EndStagingFileID u) w
       = Ok (stagingFiles job)
            (set_trace (trace w ++ [EvGetStagingFiles binding
                                      (Upload_StartStagingFileID u)
                                      (Upload_EndStagingFileID u)]) w) ∧
       warehouse job = binding ∧ whManager job = m).
Proof.
  destruct (pendingUploadsLoop_prefix cfg clock managerNew wh binding m manager_ok
              pendingUpload pendingUploads [] w)
    as (jobs & w' & Hrun & Hlen & Hdb & Hprog & Hjobs & _).
  exists jobs, w'. repeat (split; [done|]).
  intros i job u Hjob Hu. destruct (Hjobs i job u Hjob Hu) as (Hfiles & Hb & Hm & _).
  rewrite getStagingFiles_run, Hfiles. done.
Qed.

(** X11: when the retry gate admits the first pending uploads and refuses
    a later one, the jobs of the admitted uploads are still sent to the
    worker, in one batch, while the pair's [inProgress] bit has been
    cleared: the next iteration of the main loop does not skip the pair
    although its worker has a batch to run. *)
Theorem pendingPath_refusal_after_admission pendingUploads w :
  let admitted := admittedCount cfg clock (nowCalls w) pendingUploads in
  (0 < admitted < length pendingUploads)%nat →
  ∃ jobs w',
    pendingPath cfg clock managerNew wh binding pendingUploads w = Ok tt w' ∧
    length jobs = admitted ∧
    last (trace w') = Some (EvEnqueue (workerIdentifier binding) jobs) ∧
    inProgressMap w' !! connectionString binding = None.
Proof.
  intros admitted Hadmitted. unfold pendingPath.
  rewrite bind_run. unfold alloc at 1. cbv beta iota. rewrite bind_run.
  match goal with
  | |- context [pendingUploadsLoop _ _ _ _ _ ?l pendingUploads [] ?w1] =>
      destruct (pendingUploadsLoop_prefix cfg clock managerNew wh binding m
                  manager_ok l pendingUploads [] w1)
        as (jobs & w' & Hrun & Hlen & Hdb & Hprog & Hjobs & _)
  end.
  change (nowCalls (set_heap _ w)) with (nowCalls w) in Hlen. fold admitted in Hlen.
  cbn [app] in Hrun. rewrite Hrun.
  assert ((length jobs =? 0)%nat = false) as -> by (apply Nat.eqb_neq; lia).
  exists jobs. eexists. split; [reflexivity|]. split; [exact Hlen|]. split.
  - cbn [trace set_trace]. by rewrite last_snoc.
  - cbn [inProgressMap set_trace]. rewrite Hprog.
    destruct (decide _); [apply lookup_delete_eq|lia].
Qed.
End PendingPath.

Lemma pendingUploadsLoop_jobs_for_admitted_prefix_witness :
  Scenario.managerNew (destType (Scenario.router "POSTGRES")) = Some "POSTGRES"%string ∧
  ∃ jobs w',
    pendingUploadsLoop loadConfig Scenario.clock Scenario.managerNew
      (Scenario.router "POSTGRES") (Scenario.binding "POSTGRES") 0%nat
      (MixedScenario.pending PendingScenario.twoPending) [] PendingScenario.twoPending
    = Ok jobs w' ∧
    length jobs = 2%nat.
Proof.
  split; [reflexivity|].
  destruct (pendingUploadsLoop_jobs_for_admitted_prefix loadConfig Scenario.clock
              Scenario.managerNew (Scenario.router "POSTGRES")
              (Scenario.binding "POSTGRES") "POSTGRES" eq_refl 0%nat
              (MixedScenario.pending PendingScenario.twoPending)
              PendingScenario.twoPending) as (jobs & w' & Hrun & Hlen & _).
  exists jobs, w'. split; [exact Hrun|]. rewrite Hlen. reflexivity.
Defined.

Lemma pendingPath_refusal_after_admission_witness :
  let pending := MixedScenario.pending MixedScenario.freshThenExhausted in
  let w := MixedScenario.freshThenExhausted in
  Scenario.managerNew (destType (Scenario.router "POSTGRES")) = Some "POSTGRES"%string ∧
  (0 < admittedCount loadConfig Scenario.clock (nowCalls w) pending < length pending)%nat ∧
  ∃ jobs w',
    pendingPath loadConfig Scenario.clock Scenario.managerNew
      (Scenario.router "POSTGRES") (Scenario.binding "POSTGRES") pending w = Ok tt w' ∧
    length jobs = admittedCount loadConfig Scenario.clock (nowCalls w) pending ∧
    last (trace w') = Some (EvEnqueue (workerIdentifier (Scenario.binding "POSTGRES")) jobs) ∧
    inProgressMap w' !! connectionString (Scenario.binding "POSTGRES") = None.
Proof.
  intros pending w.
  assert (0 < admittedCount loadConfig Scenario.clock (nowCalls w) pending
          < length pending)%nat as Hadmitted by (vm_compute; lia).
  split; [reflexivity|]. split; [exact Hadmitted|].
  exact (pendingPath_refusal_after_admission loadConfig Scenario.clock
           Scenario.managerNew (Scenario.router "POSTGRES")
           (Scenario.binding "POSTGRES") "POSTGRES" eq_refl pending w Hadmitted).
Defined.

(** * One iteration of the main loop *)

Lemma bind_Ok_inv {A B} (c : M A) (k : A → M B) (w w' : World) (b : B) :
  (c ≫= k) w = Ok b w' → ∃ a w1, c w = Ok a w1 ∧ k a w1 = Ok b w'.
Proof.
  rewrite bind_run. destruct (c w) as [a w1|msg w1|w1]; [|done..].
  intros H. by exists a, w1.
Qed.

Section Iteration.
Variable cfg : Config.
Variable clock : nat → Time.
Variable managerNew : string → option string.
Variable CrashRecover :
  string → WarehouseT → Database → Database * option string.
Variable wh : HandleT.
Variable binding : WarehouseT.

Lemma initUpload_Ok_inProgress files u (w w' : World) :
  initUpload clock wh binding files w = Ok u w' →
  inProgressMap w' = inProgressMap w.
Proof.
  unfold initUpload. destruct (head files), (last files); try done.
  intros H. injection H as _ <-. reflexivity.
Qed.

(** A batch loop that returns has appended at least one job and has not
    touched [inProgressMap]. *)
Lemma batchLoop_Ok fuel files : ∀ count acc (w : World) jobs w',
  batchLoop cfg clock managerNew fuel wh binding files count acc w = Ok jobs w' →
  (length acc < length jobs)%nat ∧ inProgressMap w' = inProgressMap w.
Proof.
  induction fuel as [|fuel IH]; intros count acc w jobs w' Hrun; [done|].
  cbn [batchLoop] in Hrun.
  apply bind_Ok_inv in Hrun as (chunk & w1 & Hslice & Hrun).
  assert (w1 = w) as ->.
  { unfold slice in Hslice. destruct (_ && _); [|done]. by injection Hslice. }
  apply bind_Ok_inv in Hrun as (u & w2 & Hinit & Hrun).
  apply initUpload_Ok_inProgress in Hinit.
  apply bind_Ok_inv in Hrun as (mgr & w3 & Hmgr & Hrun).
  assert (w3 = w2) as ->.
  { unfold newManager in Hmgr. destruct (managerNew _); [|done]. by injection Hmgr. }
  apply bind_Ok_inv in Hrun as (l & w4 & Halloc & Hrun).
  assert (inProgressMap w4 = inProgressMap w2) as Hw4
    by (injection Halloc as _ <-; reflexivity).
  destruct (_ <=? _).
  - injection Hrun as <- <-. rewrite length_app. simpl.
    split; [lia|congruence].
  - apply IH in Hrun as [Hlen Hprog]. rewrite length_app in Hlen. simpl in Hlen.
    split; [lia|congruence].
Qed.

(** A loop over pending uploads that returns without a new job has
    refused the first upload and cleared the pair's bit. *)
Lemma pendingUploadsLoop_Ok l pending : ∀ acc (w : World) jobs w',
  pendingUploadsLoop cfg clock managerNew wh binding l pending acc w = Ok jobs w' →
  (length acc ≤ length jobs)%nat ∧
  (length jobs = length acc → pending ≠ [] →
   inProgressMap w' !! connectionString binding = None).
Proof.
  induction pending as [|u rest IH]; intros acc w jobs w' Hrun.
  - injection Hrun as <- <-. by split.
  - rewrite pendingUploadsLoop_cons, bind_run, store_run, bind_run in Hrun.
    rewrite canStartPendingUpload_run in Hrun.
    destruct (retryGate cfg _ u); cbv beta iota in Hrun.
    + change (negb true) with false in Hrun. cbv iota in Hrun.
      apply bind_Ok_inv in Hrun as (files & w1 & _ & Hrun).
      apply bind_Ok_inv in Hrun as (mgr & w2 & _ & Hrun).
      apply IH in Hrun as [Hlen _]. rewrite length_app in Hlen. simpl in Hlen.
      split; [lia|]. intros Heq. lia.
    + change (negb false) with true in Hrun. cbv iota in Hrun.
      injection Hrun as <- <-. split; [done|]. intros _ _.
      apply lookup_delete_eq.
Qed.

(** X12: an iteration of the main loop that starts with the pair not in
    progress and returns has either cleared the pair's [inProgress] bit
    again or ended by sending a non-empty batch to the pair's worker: a
    pair is never left marked in progress with nothing for its worker to
    run. *)
Theorem mainLoopWarehouse_releases_or_enqueues (w w' : World) :
  default false (inProgressMap w !! connectionString binding) = false →
  mainLoopWarehouse cfg clock managerNew CrashRecover wh binding w = Ok tt w' →
  inProgressMap w' !! connectionString binding = None ∨
  ∃ jobs, jobs ≠ [] ∧
          last (trace w') = Some (EvEnqueue (workerIdentifier binding) jobs).
Proof.
  intros Hprog Hrun. unfold mainLoopWarehouse in Hrun.
  rewrite bind_run in Hrun. unfold isDestInProgress at 1, gets at 1 in Hrun.
  rewrite Hprog in Hrun. rewrite bind_run in Hrun.
  unfold setDestInProgress at 1, modify at 1 in Hrun.
  apply bind_Ok_inv in Hrun as (proceed & w1 & Hgate & Hrun).
  destruct proceed; cbn [negb] in Hrun.
  - (* the iteration goes on *)
    apply bind_Ok_inv in Hrun as ([pending ok] & w2 & Hpending & Hrun).
    rewrite getPendingUploads_run in Hpending. injection Hpending as <- <- <-.
    set (rows := pendingUploadRows wh binding (db w1)) in *.
    destruct (0 <? Z.of_nat (length (map uploadOfRow rows))) eqn:Hany.
    + (* pending uploads *)
      unfold pendingPath in Hrun.
      apply bind_Ok_inv in Hrun as (l & w3 & _ & Hrun).
      apply bind_Ok_inv in Hrun as (jobs & w4 & Hloop & Hrun).
      apply pendingUploadsLoop_Ok in Hloop as [_ Hcleared].
      destruct jobs as [|job jobs]; cbn [length Nat.eqb] in Hrun.
      * injection Hrun as <-. left. apply Hcleared; [done|].
        intros Hnil. rewrite Hnil in Hany. done.
      * injection Hrun as <-. right. exists (job :: jobs). split; [done|].
        cbn [trace set_trace]. by rewrite last_snoc.
    + (* no pending upload *)
      destruct (frequencyGateAdmits cfg clock binding
                  (set_trace (trace w1 ++ [EvGetPendingUploads binding]) w1))
        eqn:Hadmit.
      * rewrite (freshPath_admitted_run cfg clock managerNew wh binding _ Hadmit)
          in Hrun.
        destruct (length _ =? 0)%nat.
        -- injection Hrun as <-. left. apply lookup_delete_eq.
        -- apply bind_Ok_inv in Hrun as (jobs & w5 & Hbatch & Hrun).
           apply batchLoop_Ok in Hbatch as [Hlen _].
           injection Hrun as <-. right. exists jobs. split.
           ++ intros ->. simpl in Hlen. lia.
           ++ cbn [trace set_trace]. by rewrite last_snoc.
      * unfold frequencyGateAdmits in Hadmit.
        destruct (lastExecMap _ !! connectionString binding) as [t|] eqn:Hl; [|done].
        apply Z.leb_gt in Hadmit.
        rewrite (freshPath_blocked_run cfg clock managerNew wh binding _ t Hl Hadmit)
          in Hrun.
        injection Hrun as <-. left. apply lookup_delete_eq.
  - (* crash recovery failed *)
    injection Hrun as <-. left.
    unfold recoveryGate in Hgate.
    apply bind_Ok_inv in Hgate as (recovery & w2 & Hrec & Hgate).
    destruct recovery as [inRecovery|]; [|done].
    apply bind_Ok_inv in Hgate as (mgr & w3 & _ & Hgate).
    apply bind_Ok_inv in Hgate as (err & w4 & _ & Hgate).
    destruct err; [|done].
    injection Hgate as <-. apply lookup_delete_eq.
Qed.

(** X13: an iteration of the main loop, however it ends, leaves the
    recovery set as it was or removes the destination of its binding from
    it, and it removes the destination only after [CrashRecover] has
    succeeded for the binding; it never adds a destination and never
    removes another one. *)
Theorem mainLoopWarehouse_recovery_set (w : World) :
  let r := mainLoopWarehouse cfg clock managerNew CrashRecover wh binding w in
  inRecoveryMap (final r) = inRecoveryMap w ∨
  (inRecoveryMap (final r)
     = delete (Destination_ID (Destination binding)) (inRecoveryMap w) ∧
   ∃ mgr d, managerNew (destType wh) = Some mgr ∧
            CrashRecover mgr binding (db w) = (d, None)).
Proof.
  intros r. subst r.
  destruct (default false (inProgressMap w !! connectionString binding)) eqn:Hprog.
  { left. unfold mainLoopWarehouse. rewrite bind_run.
    unfold isDestInProgress at 1, gets at 1. by rewrite Hprog. }
  destruct (inRecoveryMap w !! Destination_ID (Destination binding))
    as [inRecovery|] eqn:Hrec.
  - destruct (managerNew (destType wh)) as [mgr|] eqn:Hm.
    + rewrite (mainLoopWarehouse_in_recovery cfg clock managerNew CrashRecover
                 wh binding w mgr inRecovery Hprog Hrec Hm).
      destruct (CrashRecover mgr binding (db w)) as [d [msg|]] eqn:Hcr.
      * by left.
      * right. split; [|by exists mgr, d].
        match goal with
        | |- context [final (_ ?w2)] =>
            destruct (after_recovery cfg clock managerNew wh binding w2)
              as (rest & _ & Hkeep)
        end.
        exact Hkeep.
    + left. rewrite (mainLoopWarehouse_not_in_progress cfg clock managerNew CrashRecover
                       wh binding w Hprog).
      rewrite bind_run. unfold recoveryGate. rewrite bind_run.
      unfold gets at 1. cbn [inRecoveryMap set_inProgressMap]. rewrite Hrec.
      rewrite bind_run. unfold newManager. by rewrite Hm.
  - left. rewrite (mainLoopWarehouse_not_in_progress cfg clock managerNew CrashRecover
                       wh binding w Hprog).
    rewrite bind_run. unfold recoveryGate. rewrite bind_run.
    unfold gets at 1. cbn [inRecoveryMap set_inProgressMap]. rewrite Hrec.
    change ((mret true : M bool) ?w0) with (Ok true w0). cbv beta iota.
    change (negb true) with false. cbv iota.
    match goal with
    | |- context [final (_ ?w2)] =>
        destruct (after_recovery cfg clock managerNew wh binding w2)
          as (rest & _ & Hkeep)
    end.
    exact Hkeep.
Qed.

Lemma forWarehouses_in_progress (ws : list WarehouseT) (w : World) :
  Forall (λ b, inProgressMap w !! connectionString b = Some true) ws →
  forWarehouses cfg clock managerNew CrashRecover wh ws w = Ok tt w.
Proof.
  induction 1 as [|b ws Hb _ IH]; [done|].
  cbn [forWarehouses]. rewrite bind_run.
  unfold mainLoopWarehouse. rewrite bind_run.
  unfold isDestInProgress at 1, gets at 1. rewrite Hb. exact IH.
Qed.

(** X14: an iteration of the outer loop does nothing at all (no query, no
    clock reading, no change of any registry) when the router is disabled
    or when every one of its bindings is in progress. *)
Theorem mainLoopTick_idle (w : World) :
  isEnabled wh = false ∨
  Forall (λ b, inProgressMap w !! connectionString b = Some true) (warehouses wh) →
  mainLoopTick cfg clock managerNew CrashRecover wh w = Ok tt w.
Proof.
  unfold mainLoopTick. intros [Hdisabled|Hbusy].
  - by rewrite Hdisabled.
  - destruct (isEnabled wh); [|done]. by apply forWarehouses_in_progress.
Qed.
End Iteration.

Lemma mainLoopWarehouse_releases_or_enqueues_witness :
  let binding := Scenario.binding "POSTGRES" in
  let r := mainLoopWarehouse loadConfig Scenario.clock Scenario.managerNew
             Scenario.recoverOk (Scenario.router "POSTGRES") binding
             FreshScenario.threeFiles in
  default false (inProgressMap FreshScenario.threeFiles !! connectionString binding)
    = false ∧
  r = Ok tt (final r) ∧
  (inProgressMap (final r) !! connectionString binding = None ∨
   ∃ jobs, jobs ≠ [] ∧
           last (trace (final r)) = Some (EvEnqueue (workerIdentifier binding) jobs)).
Proof.
  intros binding r.
  assert (r = Ok tt (final r)) as Hr by (vm_compute; reflexivity).
  split; [reflexivity|]. split; [exact Hr|].
  exact (mainLoopWarehouse_releases_or_enqueues loadConfig Scenario.clock
           Scenario.managerNew Scenario.recoverOk (Scenario.router "POSTGRES")
           binding FreshScenario.threeFiles (final r) eq_refl Hr).
Defined.

Lemma mainLoopTick_idle_witness :
  (isEnabled (Scenario.router "POSTGRES") = false ∨
   Forall (λ b, inProgressMap BusyScenario.busy !! connectionString b = Some true)
     (warehouses (Scenario.router "POSTGRES"))) ∧
  BusyScenario.tick (Scenario.router "POSTGRES") BusyScenario.busy
    = Ok tt BusyScenario.busy.
Proof.
  assert (Forall (λ b, inProgressMap BusyScenario.busy !! connectionString b = Some true)
            (warehouses (Scenario.router "POSTGRES"))) as Hbusy
    by (repeat constructor).
  split; [by right|].
  apply (mainLoopTick_idle loadConfig Scenario.clock Scenario.managerNew
           Scenario.recoverOk (Scenario.router "POSTGRES") BusyScenario.busy).
  by right.
Defined.

(** * The worker goroutine *)

Section WorkerIteration.
Variable run :
  UploadJobT → list UploadT → Database → list UploadT * Database * option string.

(** The job loop returns and acts on the heap, the database and the trace
    alone. *)
Lemma jobLoop_registries jobs : ∀ w,
  ∃ w', jobLoop run jobs w = Ok tt w' ∧
        inProgressMap w' = inProgressMap w ∧
        inRecoveryMap w' = inRecoveryMap w ∧
        lastExecMap w' = lastExecMap w ∧
        nowCalls w' = nowCalls w.
Proof.
  induction jobs as [|job rest IH]; intros w.
  - by exists w.
  - rewrite jobLoop_cons.
    destruct (run job (heap w) (db w)) as [[h d] [msg|]].
    + eexists. split; [reflexivity|]. done.
    + destruct (IH (set_trace
                      (trace w ++ successEvents job (Upload_ID (deref h (upload job))))
                      (set_db d (set_heap h w)))) as (w' & -> & ? & ? & ? & ?).
      by exists w'.
Qed.

Variable cfg : Config.
Variable others : nat → Z.

(** The admission loop lets the worker in at the first pass that reads a
    counter below [noOfWorkers]. *)
Lemma admissionLoop_admitted k : ∀ fuel pass count (w : World),
  (∀ j, (j < k)%nat → noOfWorkers cfg <= observedCount others pass count j) →
  observedCount others pass count k < noOfWorkers cfg →
  (k < fuel)%nat →
  admissionLoop cfg others fuel pass count w
  = Ok ((pass + S k)%nat, Int64.add (observedCount others pass count k) 1) w.
Proof.
  induction k as [|k IH]; intros fuel pass count w Hbusy Hfree Hfuel;
    (destruct fuel as [|fuel]; [lia|]); cbn [admissionLoop observedCount] in *.
  - apply Z.leb_gt in Hfree. rewrite Hfree.
    replace (pass + 1)%nat with (S pass) by lia. reflexivity.
  - assert ((noOfWorkers cfg <=? Int64.add count (others pass)) = true) as ->.
    { apply Z.leb_le. apply (Hbusy 0%nat). lia. }
    rewrite (IH fuel (S pass) (Int64.add count (others pass)) w).
    + replace (S pass + S k)%nat with (pass + S (S k))%nat by lia. reflexivity.
    + intros j Hj. apply (Hbusy (S j)). lia.
    + exact Hfree.
    + lia.
Qed.

(** While every pass reads a counter at or above [noOfWorkers] the loop
    goes on, leaving everything as it is. *)
Lemma admissionLoop_waiting fuel : ∀ pass count (w : World),
  (∀ j, (j < fuel)%nat → noOfWorkers cfg <= observedCount others pass count j) →
  admissionLoop cfg others fuel pass count w = OutOfFuel w.
Proof.
  induction fuel as [|fuel IH]; intros pass count w Hbusy; [reflexivity|].
  cbn [admissionLoop].
  assert ((noOfWorkers cfg <=? Int64.add count (others pass)) = true) as ->.
  { apply Z.leb_le. apply (Hbusy 0%nat). lia. }
  apply IH. intros j Hj. apply (Hbusy (S j)). lia.
Qed.

(** X15: one iteration of a worker goroutine.  Let the worker read a
    counter at or above [noOfWorkers] at its first [k] passes through the
    admission loop of [handleUploadJobs] and a counter below it at the
    next pass.  Up to that pass the iteration has done nothing: no job
    has run and the pair is still in progress.  From that pass on, and
    where every [job.run] returns, the iteration on a non-empty batch
    returns whether or not a job fails; the counter has been incremented
    at the admission and decremented after the job loop, and the only
    effect on the registries is that the [inProgress] entry of the pair
    of the FIRST job is removed; the recovery set, the last-execution
    times and the clock are untouched.  On an empty batch the admitted
    worker panics at [jobs[0]], before anything else is changed. *)
Theorem initWorkerIteration_releases_first_pair (first : UploadJobT)
    (rest : list UploadJobT) (activeWorkerCount : Z) (w : World) (k : nat) :
  (∀ j, (j < k)%nat →
        noOfWorkers cfg <= observedCount others 0 activeWorkerCount j) →
  observedCount others 0 activeWorkerCount k < noOfWorkers cfg →
  (∀ fuel uploads, (fuel ≤ k)%nat →
     initWorkerIteration cfg run others fuel uploads activeWorkerCount w
     = OutOfFuel w) ∧
  (∀ fuel, (k < fuel)%nat →
     (∃ w',
        initWorkerIteration cfg run others fuel (first :: rest) activeWorkerCount w
        = Ok (Int64.sub
                (Int64.add
                   (Int64.add (observedCount others 0 activeWorkerCount k) 1)
                   (others (S k))) 1) w' ∧
        inProgressMap w'
          = delete (connectionString (warehouse first)) (inProgressMap w) ∧
        inRecoveryMap w' = inRecoveryMap w ∧
        lastExecMap w' = lastExecMap w ∧
        nowCalls w' = nowCalls w) ∧
     initWorkerIteration cfg run others fuel [] activeWorkerCount w
     = Panicked "index out of range" w).
Proof.
  intros Hbusy Hfree. split.
  - intros fuel uploads Hfuel.
    unfold initWorkerIteration, handleUploadJobs. rewrite !bind_run.
    rewrite admissionLoop_waiting; [reflexivity|].
    intros j Hj. apply Hbusy. lia.
  - intros fuel Hfuel.
    pose proof (admissionLoop_admitted k fuel 0%nat activeWorkerCount w
                  Hbusy Hfree Hfuel) as Hadmitted.
    split.
    + unfold initWorkerIteration, handleUploadJobs, handleUploadJobsBody.
      destruct (jobLoop_registries (first :: rest) w)
        as (w1 & Hrun & Hp & Hr & Hl & Hn).
      rewrite !bind_run, Hadmitted. cbv beta match.
      rewrite bind_run, Hrun.
      eexists. split; [reflexivity|].
      unfold setDestInProgress, modify. cbn. by rewrite Hp.
    + unfold initWorkerIteration, handleUploadJobs, handleUploadJobsBody.
      rewrite !bind_run, Hadmitted. reflexivity.
Qed.
End WorkerIteration.

Lemma initWorkerIteration_releases_first_pair_witness :
  let cfg := loadConfig in
  let others := WorkerScenario.others in
  let key := connectionString (Scenario.binding "POSTGRES") in
  (∀ j, (j < 1)%nat → noOfWorkers cfg <= observedCount others 0 0 j) ∧
  observedCount others 0 0 1 < noOfWorkers cfg ∧
  initWorkerIteration cfg WorkerScenario.run others 1 [WorkerScenario.job] 0
    WorkerScenario.busy = OutOfFuel WorkerScenario.busy ∧
  ∃ w', initWorkerIteration cfg WorkerScenario.run others 2 [WorkerScenario.job] 0
          WorkerScenario.busy = Ok 7 w' ∧
        inProgressMap WorkerScenario.busy !! key = Some true ∧
        inProgressMap w' !! key = None.
Proof.
  intros cfg others key.
  assert (∀ j, (j < 1)%nat → noOfWorkers cfg <= observedCount others 0 0 j) as Hbusy.
  { intros j Hj. assert (j = 0%nat) as -> by lia. vm_compute. discriminate. }
  assert (observedCount others 0 0 1 < noOfWorkers cfg) as Hfree by reflexivity.
  destruct (initWorkerIteration_releases_first_pair WorkerScenario.run cfg others
              WorkerScenario.job [] 0 WorkerScenario.busy 1 Hbusy Hfree)
    as [Hwait Hdone].
  split; [exact Hbusy|]. split; [exact Hfree|].
  split; [apply Hwait; lia|].
  destruct (Hdone 2%nat ltac:(lia)) as [(w' & Hrun & Hprog & _) _].
  exists w'. split; [exact Hrun|]. split; [reflexivity|].
  rewrite Hprog. apply lookup_delete_eq.
Defined.

(** * Router setup run again *)

Lemma markInRecovery_twice rows (m : gmap string bool) :
  markInRecovery rows (markInRecovery rows m) = markInRecovery rows m.
Proof.
  apply map_eq. intros k. rewrite !markInRecovery_lookup.
  by destruct (existsb _ rows).
Qed.

(** X16: [setInterruptedDestinations] never removes a destination from the
    recovery set, touches nothing but the recovery set, and running it a
    second time on the same tables changes nothing. *)
Theorem setInterruptedDestinations_idempotent (cfg : Config) (wh : HandleT)
    (w : World) :
  let w1 := final (setInterruptedDestinations cfg wh w) in
  setInterruptedDestinations cfg wh w = Ok tt w1 ∧
  setInterruptedDestinations cfg wh w1 = Ok tt w1 ∧
  dom (inRecoveryMap w) ⊆ dom (inRecoveryMap w1) ∧
  db w1 = db w ∧ inProgressMap w1 = inProgressMap w ∧
  lastExecMap w1 = lastExecMap w ∧ trace w1 = trace w.
Proof.
  unfold setInterruptedDestinations.
  destruct (Contains (crashRecoverWarehouses cfg) (destType wh)); cbn [negb].
  - munfold. cbn. repeat split.
    + by rewrite markInRecovery_twice.
    + intros k. rewrite !elem_of_dom, markInRecovery_lookup.
      destruct (existsb _ _); [by eexists|done].
  - cbn. by destruct w.
Qed.

(** * Admission with no slot to give *)

Module StarvedFacts.
Import Admission Starved.

Section NoSlots.
Variable noOfWorkers : Z.
Hypothesis no_slot : noOfWorkers <= 0.

Lemma starved_stepWorker i s : starved s → starved (stepWorker noOfWorkers i s).
Proof.
  intros [Hcount Hall]. unfold stepWorker.
  destruct (workers s !! i) as [p|] eqn:Hi; [|done].
  pose proof (proj1 (Forall_lookup _ _) Hall i p Hi) as Hp.
  destruct p; try discriminate Hp; cbn in Hp;
    unfold goto, lock, unlock, assign;
    try (split; [exact Hcount|]; cbn; by apply Forall_insert).
  - destruct (activeWorkerCountLock s); [done|].
    split; [exact Hcount|]. cbn. by apply Forall_insert.
  - split; [exact Hcount|]. cbn. apply Forall_insert; [done|].
    cbn. rewrite Hcount. reflexivity.
  - apply Z.eqb_eq in Hp. subst activeWorkers.
    destruct (noOfWorkers <=? 0) eqn:Hle; [|apply Z.leb_gt in Hle; lia].
    split; [exact Hcount|]. cbn. by apply Forall_insert.
Qed.

Lemma starved_exec schedule : starved (exec noOfWorkers schedule).
Proof.
  unfold exec. induction schedule as [|a schedule IH] using rev_ind.
  - split; [done|]. constructor.
  - rewrite foldl_snoc. destruct a as [|i].
    + destruct IH as [Hcount Hall]. split; [exact Hcount|].
      cbn. apply Forall_app. split; [exact Hall|]. by constructor.
    + by apply starved_stepWorker.
Qed.
End NoSlots.
End StarvedFacts.

(** X17: when [noOfWorkers] is zero or negative no worker ever gets past
    the admission loop of [handleUploadJobs]: under every schedule the
    counter stays at 0 and every worker is waiting for its channel, taking
    the lock, comparing, or sleeping; no job loop is ever entered. *)
Theorem no_worker_admitted_without_slots (noOfWorkers : Z)
    (schedule : list Admission.action) :
  noOfWorkers <= 0 →
  Admission.activeWorkerCount (Admission.exec noOfWorkers schedule) = 0 ∧
  ∀ i p, Admission.workers (Admission.exec noOfWorkers schedule) !! i = Some p →
         Starved.waiting p = true ∧ p ≠ Admission.Incr ∧ p ≠ Admission.Run.
Proof.
  intros no_slot.
  destruct (StarvedFacts.starved_exec noOfWorkers no_slot schedule) as [Hcount Hall].
  split; [exact Hcount|].
  intros i p Hi.
  pose proof (proj1 (Forall_lookup _ _) Hall i p Hi) as Hp.
  split; [exact Hp|]. split; intros ->; discriminate Hp.
Qed.

Lemma no_worker_admitted_without_slots_witness :
  0 <= 0 ∧
  Admission.activeWorkerCount (Admission.exec 0 Admission.contendedSchedule) = 0 ∧
  ∀ i p, Admission.workers (Admission.exec 0 Admission.contendedSchedule) !! i = Some p →
         Starved.waiting p = true ∧ p ≠ Admission.Incr ∧ p ≠ Admission.Run.
Proof.
  split; [lia|].
  apply (no_worker_admitted_without_slots 0); lia.
Defined.

(** * The monitor of destination routers *)

Section MonitorFacts.
Variable cfg : Config.

Lemma setInterruptedDestinations_returns (wh : HandleT) (w : World) :
  ∃ w', setInterruptedDestinations cfg wh w = Ok tt w'.
Proof.
  unfold setInterruptedDestinations. destruct (negb _); by eexists.
Qed.

Lemma Setup_run (whType : string) (w : World) :
  ∃ w', Setup cfg whType w
        = Ok {| destType := whType; warehouses := []; isEnabled := true |} w'.
Proof.
  unfold Setup.
  destruct (setInterruptedDestinations_returns
              {| destType := whType; warehouses := []; isEnabled := false |} w)
    as [w' Hw'].
  exists w'. change (?c;; ?k) with (c ≫= λ _, k). by rewrite bind_run, Hw'.
Qed.

Lemma visited_nil st : visited [] st st.
Proof.
  split; [|split].
  - intros k. rewrite elem_of_nil. tauto.
  - intros k. rewrite elem_of_nil. tauto.
  - exists []. rewrite app_nil_r. split; [done|]. split; [constructor|].
    intros k. rewrite elem_of_nil. tauto.
Qed.

Lemma visited_app names1 names2 st st1 st2 :
  visited names1 st st1 → visited names2 st1 st2 →
  visited (names1 ++ names2) st st2.
Proof.
  intros (Hen1 & Hr1 & new1 & Hs1 & Hnd1 & Hnew1)
         (Hen2 & Hr2 & new2 & Hs2 & Hnd2 & Hnew2).
  split; [|split].
  - intros k. rewrite Hen2, Hen1, elem_of_app. tauto.
  - intros k. rewrite Hr2, Hr1, elem_of_app. tauto.
  - exists (new1 ++ new2). split; [by rewrite Hs2, Hs1, app_assoc|]. split.
    + apply NoDup_app. split; [done|]. split; [|done].
      intros k Hk1 Hk2. apply Hnew1 in Hk1 as (_ & Hin & Hwd).
      apply Hnew2 in Hk2 as (Hnone & _).
      assert (is_Some (dstToWhRouter st1.1 !! k)) as [wh Hwh]
        by (apply Hr1; right; done).
      congruence.
    + intros k. rewrite !elem_of_app, Hnew1, Hnew2. split.
      * intros [(Hnone & Hin & Hwd)|(Hnone & Hin & Hwd)]; [tauto|].
        split; [|tauto].
        destruct (dstToWhRouter st.1 !! k) as [wh|] eqn:Hk; [|done].
        assert (is_Some (dstToWhRouter st1.1 !! k)) as [wh1 Hwh1]
          by (apply Hr1; left; by eexists).
        congruence.
      * intros (Hnone & [Hin|Hin] & Hwd); [tauto|].
        destruct (dstToWhRouter st1.1 !! k) as [wh1|] eqn:Hk1; [|tauto].
        assert (is_Some (dstToWhRouter st1.1 !! k)) as Hsome by (by eexists).
        apply Hr1 in Hsome as [[wh Hwh]|[Hin1 _]]; [congruence|tauto].
Qed.

(** One destination of the config event. *)
Lemma monitorDestination_run destination st (w : World) :
  declaredRouters st.1 → seenEnabled st →
  ∃ st' w', monitorDestination cfg destination st w = Ok st' w' ∧
            declaredRouters st'.1 ∧ seenEnabled st' ∧
            visited [DestinationDefinition_Name destination] st st'.
Proof.
  destruct st as [mon en]. intros Hdecl Hseen. unfold monitorDestination.
  set (name := DestinationDefinition_Name destination). cbn [fst snd] in *.
  destruct (Contains WarehouseDestinations name) eqn:Hwd.
  - destruct (dstToWhRouter mon !! name) as [wh|] eqn:Hname.
    + eexists _, w. split; [reflexivity|].
      unfold declaredRouters, seenEnabled, visited in *.
      cbn [fst snd dstToWhRouter started] in *.
      split; [|split; [|split; [|split]]].
      * intros k [wh' Hk]. destruct (decide (k = name)) as [->|Hne]; [done|].
        rewrite lookup_insert_ne in Hk by done. apply Hdecl. by eexists.
      * intros k wh' Hk Hen. cbn [fst snd dstToWhRouter] in *.
        destruct (decide (k = name)) as [->|Hne].
        -- rewrite lookup_insert_eq in Hk. by injection Hk as <-.
        -- rewrite lookup_insert_ne in Hk by done.
           rewrite lookup_insert_ne in Hen by done. by apply (Hseen k).
      * intros k. rewrite list_elem_of_singleton.
        destruct (decide (k = name)) as [->|Hne].
        -- rewrite lookup_insert_eq. split; [by right|by eexists].
        -- rewrite lookup_insert_ne by done. split; [by left|].
           by intros [?|?].
      * intros k. rewrite list_elem_of_singleton.
        destruct (decide (k = name)) as [->|Hne].
        -- rewrite lookup_insert_eq, Hname.
           split; [intros _; left; by eexists|intros _; by eexists].
        -- rewrite lookup_insert_ne by done. split; [by left|].
           by intros [?|[? _]].
      * exists []. rewrite app_nil_r. split; [done|]. split; [constructor|].
        intros k. rewrite elem_of_nil, list_elem_of_singleton.
        split; [done|]. intros (Hnone & -> & _). congruence.
    + destruct (Setup_run name w) as [w' Hsetup].
      eexists _, w'. split; [by rewrite bind_run, Hsetup|].
      unfold declaredRouters, seenEnabled, visited in *.
      cbn [fst snd dstToWhRouter started] in *.
      split; [|split; [|split; [|split]]].
      * intros k [wh' Hk]. destruct (decide (k = name)) as [->|Hne]; [done|].
        rewrite lookup_insert_ne in Hk by done. apply Hdecl. by eexists.
      * intros k wh' Hk Hen. cbn [fst snd dstToWhRouter] in *.
        destruct (decide (k = name)) as [->|Hne].
        -- rewrite lookup_insert_eq in Hk. by injection Hk as <-.
        -- rewrite lookup_insert_ne in Hk by done.
           rewrite lookup_insert_ne in Hen by done. by apply (Hseen k).
      * intros k. rewrite list_elem_of_singleton.
        destruct (decide (k = name)) as [->|Hne].
        -- rewrite lookup_insert_eq. split; [by right|by eexists].
        -- rewrite lookup_insert_ne by done. split; [by left|].
           by intros [?|?].
      * intros k. rewrite list_elem_of_singleton.
        destruct (decide (k = name)) as [->|Hne].
        -- rewrite lookup_insert_eq. split; [by right|by eexists].
        -- rewrite lookup_insert_ne by done. split; [by left|].
           by intros [?|[? _]].
      * exists [name]. split; [done|]. split; [apply NoDup_singleton|].
        intros k. rewrite list_elem_of_singleton.
        split; [by intros ->|by intros (_ & -> & _)].
  - eexists _, w. split; [reflexivity|].
    unfold declaredRouters, seenEnabled, visited in *.
    cbn [fst snd dstToWhRouter started] in *.
    split; [done|]. split; [|split; [|split]].
    + intros k wh' Hk Hen. cbn [fst snd] in *.
      destruct (decide (k = name)) as [->|Hne].
      * assert (Contains WarehouseDestinations name = true) as Hyes
          by (apply Hdecl; by eexists).
        congruence.
      * rewrite lookup_insert_ne in Hen by done. by apply (Hseen k).
    + intros k. rewrite list_elem_of_singleton.
      destruct (decide (k = name)) as [->|Hne].
      * rewrite lookup_insert_eq. split; [by right|by eexists].
      * rewrite lookup_insert_ne by done. split; [by left|]. by intros [?|?].
    + intros k. rewrite list_elem_of_singleton. split; [by left|].
      intros [?|[-> Hyes]]; [done|congruence].
    + exists []. rewrite app_nil_r. split; [done|]. split; [constructor|].
      intros k. rewrite elem_of_nil, list_elem_of_singleton.
      split; [done|]. intros (_ & -> & Hyes). congruence.
Qed.

Lemma monitorDestinations_run destinations : ∀ st (w : World),
  declaredRouters st.1 → seenEnabled st →
  ∃ st' w', monitorDestinations cfg destinations st w = Ok st' w' ∧
            declaredRouters st'.1 ∧ seenEnabled st' ∧
            visited (map DestinationDefinition_Name destinations) st st'.
Proof.
  induction destinations as [|destination rest IH]; intros st w Hdecl Hseen.
  - exists st, w. split; [done|]. split; [done|]. split; [done|].
    apply visited_nil.
  - destruct (monitorDestination_run destination st w Hdecl Hseen)
      as (st1 & w1 & Hrun1 & Hdecl1 & Hseen1 & Hvis1).
    destruct (IH st1 w1 Hdecl1 Hseen1) as (st2 & w2 & Hrun2 & Hdecl2 & Hseen2 & Hvis2).
    exists st2, w2. split; [|split; [done|split; [done|]]].
    + cbn [monitorDestinations]. by rewrite bind_run, Hrun1.
    + apply (visited_app [_] _ st st1 st2 Hvis1 Hvis2).
Qed.

Lemma monitorSources_run sources : ∀ st (w : World),
  declaredRouters st.1 → seenEnabled st →
  ∃ st' w', monitorSources cfg sources st w = Ok st' w' ∧
            declaredRouters st'.1 ∧ seenEnabled st' ∧
            visited (definitionNames sources) st st'.
Proof.
  induction sources as [|source rest IH]; intros st w Hdecl Hseen.
  - exists st, w. split; [done|]. split; [done|]. split; [done|].
    apply visited_nil.
  - destruct (monitorDestinations_run source.2 st w Hdecl Hseen)
      as (st1 & w1 & Hrun1 & Hdecl1 & Hseen1 & Hvis1).
    destruct (IH st1 w1 Hdecl1 Hseen1) as (st2 & w2 & Hrun2 & Hdecl2 & Hseen2 & Hvis2).
    exists st2, w2. split; [|split; [done|split; [done|]]].
    + cbn [monitorSources]. by rewrite bind_run, Hrun1.
    + apply (visited_app _ _ st st1 st2 Hvis1 Hvis2).
Qed.

Lemma disableMissing_lookup en routers k :
  disableMissing en routers !! k =
  (λ wh, match en !! k with None => Disable wh | Some _ => wh end)
    <$> routers !! k.
Proof.
  unfold disableMissing. rewrite map_lookup_imap.
  by destruct (routers !! k).
Qed.

Lemma seenEnabled_start mon : seenEnabled (mon, ∅).
Proof. intros k wh _ [b Hb]. cbn in Hb. by rewrite lookup_empty in Hb. Qed.

(** X18: after a config event has been processed, [monitorDestRouters]
    holds a router for every declared destination type it held before or
    that occurs in the event, and each router is enabled exactly when its
    type occurs in the event: routers of absent types are disabled, never
    removed.  Precondition (an invariant of the loop, kept by this very
    iteration): every router belongs to a type of
    [WarehouseDestinations]. *)
Theorem monitorDestRouters_enables_present_types (sources : SourcesT)
    (mon : MonitorT) (w : World) :
  declaredRouters mon →
  ∃ mon' w',
    monitorDestRoutersIteration cfg sources mon w = Ok mon' w' ∧
    declaredRouters mon' ∧
    (∀ k, is_Some (dstToWhRouter mon' !! k) ↔
          is_Some (dstToWhRouter mon !! k) ∨
          (k ∈ definitionNames sources ∧
           Contains WarehouseDestinations k = true)) ∧
    (∀ k wh, dstToWhRouter mon' !! k = Some wh →
             (isEnabled wh = true ↔ k ∈ definitionNames sources)).
Proof.
  intros Hdecl.
  destruct (monitorSources_run sources (mon, ∅) w Hdecl (seenEnabled_start mon))
    as ([mon1 en1] & w1 & Hrun & Hdecl1 & Hseen1 & Hen & Hr & _).
  cbn [fst snd] in *.
  eexists _, w1. split; [unfold monitorDestRoutersIteration; by rewrite bind_run, Hrun|].
  cbn [fst snd dstToWhRouter].
  assert (∀ k, is_Some (disableMissing en1 (dstToWhRouter mon1) !! k) ↔
               is_Some (dstToWhRouter mon1 !! k)) as Hsame.
  { intros k. rewrite disableMissing_lookup. apply fmap_is_Some. }
  split; [|split].
  - intros k Hk. apply Hdecl1. by apply Hsame.
  - intros k. by rewrite Hsame, Hr.
  - intros k wh Hk. rewrite disableMissing_lookup in Hk.
    destruct (dstToWhRouter mon1 !! k) as [wh1|] eqn:Hk1; [|done].
    injection Hk as <-.
    specialize (Hen k). rewrite lookup_empty in Hen.
    destruct (en1 !! k) as [b|] eqn:Hb.
    + assert (k ∈ definitionNames sources) as Hin.
      { destruct (proj1 Hen) as [[? ?]|?]; [by eexists|done|done]. }
      split; [done|]. intros _. apply (Hseen1 k wh1 Hk1).
      cbn [snd]. rewrite Hb. by eexists.
    + split; [done|]. intros Hin.
      destruct (proj2 Hen (or_intror Hin)) as [? ?]. done.
Qed.

(** X19: while processing a config event [monitorDestRouters] calls
    [Setup], which starts the config subscriber and the main loop of a
    router, exactly for the declared destination types of the event that
    had no router before, and once for each, however often the type
    occurs in the event; routers that exist are never set up again. *)
Theorem monitorDestRouters_sets_up_once (sources : SourcesT)
    (mon : MonitorT) (w : World) :
  declaredRouters mon →
  ∃ mon' w' new,
    monitorDestRoutersIteration cfg sources mon w = Ok mon' w' ∧
    started mon' = started mon ++ new ∧ NoDup new ∧
    ∀ k, k ∈ new ↔ dstToWhRouter mon !! k = None ∧
                    k ∈ definitionNames sources ∧
                    Contains WarehouseDestinations k = true.
Proof.
  intros Hdecl.
  destruct (monitorSources_run sources (mon, ∅) w Hdecl (seenEnabled_start mon))
    as ([mon1 en1] & w1 & Hrun & _ & _ & _ & _ & new & Hstarted & Hnd & Hnew).
  cbn [fst snd] in *.
  eexists _, w1, new.
  split; [unfold monitorDestRoutersIteration; by rewrite bind_run, Hrun|].
  done.
Qed.
End MonitorFacts.

Lemma declaredRouters_running : declaredRouters MonitorScenario.running.
Proof.
  intros k [wh Hk]. unfold MonitorScenario.running in Hk. cbn [dstToWhRouter] in Hk.
  apply lookup_singleton_Some in Hk as [<- _]. reflexivity.
Qed.

Lemma monitorDestRouters_enables_present_types_witness :
  declaredRouters MonitorScenario.running ∧
  ∃ mon' w',
    monitorDestRoutersIteration loadConfig MonitorScenario.event
      MonitorScenario.running MonitorScenario.world = Ok mon' w' ∧
    declaredRouters mon' ∧
    (∀ k, is_Some (dstToWhRouter mon' !! k) ↔
          is_Some (dstToWhRouter MonitorScenario.running !! k) ∨
          (k ∈ definitionNames MonitorScenario.event ∧
           Contains WarehouseDestinations k = true)) ∧
    (∀ k wh, dstToWhRouter mon' !! k = Some wh →
             (isEnabled wh = true ↔ k ∈ definitionNames MonitorScenario.event)).
Proof.
  split; [exact declaredRouters_running|].
  exact (monitorDestRouters_enables_present_types loadConfig MonitorScenario.event
           MonitorScenario.running MonitorScenario.world declaredRouters_running).
Defined.

Lemma monitorDestRouters_sets_up_once_witness :
  declaredRouters MonitorScenario.running ∧
  ∃ mon' w' new,
    monitorDestRoutersIteration loadConfig MonitorScenario.event
      MonitorScenario.running MonitorScenario.world = Ok mon' w' ∧
    started mon' = started MonitorScenario.running ++ new ∧ NoDup new ∧
    ∀ k, k ∈ new ↔ dstToWhRouter MonitorScenario.running !! k = None ∧
                    k ∈ definitionNames MonitorScenario.event ∧
                    Contains WarehouseDestinations k = true.
Proof.
  split; [exact declaredRouters_running|].
  exact (monitorDestRouters_sets_up_once loadConfig MonitorScenario.event
           MonitorScenario.running MonitorScenario.world declaredRouters_running).
Defined.

(** The scenario evaluated: the postgres router is set up and enabled, the
    redshift router is disabled and kept, the webhook gets no router. *)
Example monitor_scenario_outcome :
  let r := monitorDestRoutersIteration loadConfig MonitorScenario.event
             MonitorScenario.running MonitorScenario.world in
  ∃ mon' w', r = Ok mon' w' ∧
    started mon' = ["RS"; "POSTGRES"]%string ∧
    isEnabled <$> dstToWhRouter mon' !! "RS"%string = Some false ∧
    isEnabled <$> dstToWhRouter mon' !! "POSTGRES"%string = Some true ∧
    dstToWhRouter mon' !! "WEBHOOK"%string = None.
Proof.
  eexists _, _. split; [reflexivity|]. vm_compute. done.
Qed.

(** * The config subscriber of a router *)

Lemma subscribed_refl sub : subscribed [] sub sub.
Proof.
  exists []. rewrite app_nil_r. repeat split; try done. cbn.
  symmetry. apply (right_id_L ∅ (∪)).
Qed.

Lemma subscribed_app pairs1 pairs2 sub sub1 sub2 :
  subscribed pairs1 sub sub1 → subscribed pairs2 sub1 sub2 →
  subscribed (pairs1 ++ pairs2) sub sub2.
Proof.
  intros (new1 & Hw1 & Hp1 & Ht1 & Hc1 & Hd1 & He1)
         (new2 & Hw2 & Hp2 & Ht2 & Hc2 & Hd2 & He2).
  exists (new1 ++ new2). split; [by rewrite Hw2, Hw1, app_assoc|].
  split; [by rewrite map_app, Hp1, Hp2|]. split.
  { apply Forall_app. split; [done|]. by rewrite <- Hd1. }
  split; [|split; congruence].
  rewrite Hc2, Hc1, map_app, list_to_set_app_L.
  symmetry. apply (assoc_L (∪)).
Qed.

Section SubscriberFacts.
Variable ToProviderCase : string → string → string.
Variable ToSafeNamespace : string → string → string.
Variable GetNamespace : SourceT → DestinationT → Database → string * bool.
Variable TrimSpace : string → string.
Variable IDResolutionEnabled : bool.
Variable IdentityEnabledWarehouses : list string.
Variable shouldPopulateHistoricIdentities : bool.
Variable setupIdentityTables : WarehouseT → M unit.
Variable populateHistoricIdentities : WarehouseT → M unit.

Lemma subscribeDestination_Ok source destination sub (w w' : World) sub' :
  subscribeDestination ToProviderCase ToSafeNamespace GetNamespace TrimSpace
    IDResolutionEnabled IdentityEnabledWarehouses shouldPopulateHistoricIdentities
    setupIdentityTables populateHistoricIdentities
    source destination sub w = Ok sub' w' →
  subscribed
    (map (pair source)
       (List.filter (λ d, String.eqb (DestinationDefinition_Name d)
                            (destType (handle sub))) [destination]))
    sub sub'.
Proof.
  cbn [List.filter]. unfold subscribeDestination.
  destruct (String.eqb _ _).
  - intros Hrun. cbv zeta in Hrun.
    apply bind_Ok_inv in Hrun as (namespace & w1 & _ & Hrun).
    change (?c;; ?k) with (c ≫= λ _, k) in Hrun.
    apply bind_Ok_inv in Hrun as ([] & w2 & _ & Hrun).
    injection Hrun as Hsub _.
    set (warehouse := {| Source := source; Destination := destination;
                         Namespace := namespace;
                         Type_ := destType (handle sub) |}) in *.
    set (admitted := if bool_decide _ then _ else _) in Hsub.
    assert (handle sub' = handle admitted ∧
            workerChannelMap sub' = workerChannelMap admitted) as [Hh Hc].
    { rewrite <- Hsub.
      repeat match goal with
             | |- context [match ?x with _ => _ end] => destruct x
             end; done. }
    assert (handle admitted = handle (appendWarehouse warehouse sub) ∧
            workerChannelMap admitted
              = workerChannelMap sub ∪ {[ workerIdentifier warehouse ]}) as [Hh' Hc'].
    { subst admitted. destruct (bool_decide _) eqn:Hd; (split; [reflexivity|]).
      - apply bool_decide_eq_true in Hd.
        change (workerChannelMap (appendWarehouse warehouse sub))
          with (workerChannelMap sub) in *.
        apply set_eq. intros k. rewrite elem_of_union, elem_of_singleton.
        split; [tauto|]. intros [? | ->]; done.
      - change (workerChannelMap (addWorker ?n ?s))
          with ({[ n ]} ∪ workerChannelMap s).
        change (workerChannelMap (appendWarehouse warehouse sub))
          with (workerChannelMap sub).
        apply set_eq. intros k. rewrite !elem_of_union, elem_of_singleton. tauto. }
    exists [warehouse]. rewrite Hh, Hc, Hh', Hc'. cbn.
    repeat split; try done.
    + by repeat constructor.
    + apply set_eq. intros k.
      rewrite !elem_of_union, elem_of_singleton, elem_of_empty. tauto.
  - intros Hrun. injection Hrun as <- _. apply subscribed_refl.
Qed.

Lemma subscribeDestinations_Ok source destinations : ∀ sub (w w' : World) sub',
  subscribeDestinations ToProviderCase ToSafeNamespace GetNamespace TrimSpace
    IDResolutionEnabled IdentityEnabledWarehouses shouldPopulateHistoricIdentities
    setupIdentityTables populateHistoricIdentities
    source destinations sub w = Ok sub' w' →
  subscribed
    (map (pair source)
       (List.filter (λ d, String.eqb (DestinationDefinition_Name d)
                            (destType (handle sub))) destinations))
    sub sub'.
Proof.
  induction destinations as [|destination rest IH]; intros sub w w' sub' Hrun.
  - injection Hrun as <- _. apply subscribed_refl.
  - cbn [subscribeDestinations] in Hrun.
    apply bind_Ok_inv in Hrun as (sub1 & w1 & Hstep & Hrun).
    apply subscribeDestination_Ok in Hstep. apply IH in Hrun.
    assert (destType (handle sub1) = destType (handle sub)) as Hd
      by (destruct Hstep as (? & _ & _ & _ & _ & ? & _); done).
    rewrite Hd in Hrun.
    pose proof (subscribed_app _ _ _ _ _ Hstep Hrun) as Hall.
    rewrite <- map_app in Hall.
    change (destination :: rest) with ([destination] ++ rest).
    by rewrite List.filter_app.
Qed.

Lemma subscribeSources_Ok sources : ∀ sub (w w' : World) sub',
  subscribeSources ToProviderCase ToSafeNamespace GetNamespace TrimSpace
    IDResolutionEnabled IdentityEnabledWarehouses shouldPopulateHistoricIdentities
    setupIdentityTables populateHistoricIdentities
    sources sub w = Ok sub' w' →
  subscribed (pairsOfType (destType (handle sub)) sources) sub sub'.
Proof.
  induction sources as [|[source destinations] rest IH]; intros sub w w' sub' Hrun.
  - injection Hrun as <- _. apply subscribed_refl.
  - cbn [subscribeSources fst snd] in Hrun.
    apply bind_Ok_inv in Hrun as (sub1 & w1 & Hstep & Hrun).
    assert (subscribed
              (map (pair source)
                 (List.filter (λ d, String.eqb (DestinationDefinition_Name d)
                                      (destType (handle sub))) destinations))
              sub sub1) as Hfirst.
    { destruct destinations as [|destination destinations].
      - injection Hstep as <- _. apply subscribed_refl.
      - by apply subscribeDestinations_Ok in Hstep. }
    apply IH in Hrun.
    assert (destType (handle sub1) = destType (handle sub)) as Hd
      by (destruct Hfirst as (? & _ & _ & _ & _ & ? & _); done).
    rewrite Hd in Hrun.
    apply (subscribed_app _ _ _ _ _ Hfirst Hrun).
Qed.

(** X20: when [backendConfigSubscriber] has processed a config event, the
    bindings of the router are rebuilt from the event alone: they are, in
    the order of the event, the (source, destination) pairs whose
    destination definition is the router's type, each of that type; every
    binding has a worker under its [workerIdentifier], and the workers are
    those there were before together with those of the new bindings: no
    worker is ever removed, and the router's type and enabled flag are
    not touched. *)
Theorem backendConfigSubscriber_rebuilds_bindings (sources : SourcesT)
    (sub sub' : SubscriberT) (w w' : World) :
  backendConfigSubscriberIteration ToProviderCase ToSafeNamespace GetNamespace
    TrimSpace IDResolutionEnabled IdentityEnabledWarehouses
    shouldPopulateHistoricIdentities setupIdentityTables
    populateHistoricIdentities sources sub w = Ok sub' w' →
  map (λ b, (Source b, Destination b)) (warehouses (handle sub'))
    = pairsOfType (destType (handle sub)) sources ∧
  Forall (λ b, Type_ b = destType (handle sub) ∧
               workerIdentifier b ∈ workerChannelMap sub')
    (warehouses (handle sub')) ∧
  workerChannelMap sub'
    = workerChannelMap sub
      ∪ list_to_set (map workerIdentifier (warehouses (handle sub'))) ∧
  destType (handle sub') = destType (handle sub) ∧
  isEnabled (handle sub') = isEnabled (handle sub).
Proof.
  unfold backendConfigSubscriberIteration. intros Hrun.
  apply subscribeSources_Ok in Hrun as (new & Hw & Hp & Ht & Hc & Hd & He).
  cbn in Hw, Hp, Ht, Hc, Hd, He. subst new.
  repeat split; try done.
  apply Forall_forall. intros b Hb. split.
  - by apply (proj1 (Forall_forall _ _) Ht).
  - rewrite Hc. apply elem_of_union_r, elem_of_list_to_set, list_elem_of_fmap.
    by exists b.
Qed.
End SubscriberFacts.

Lemma backendConfigSubscriber_rebuilds_bindings_witness :
  ∃ sub' w',
    SubscriberScenario.iteration (Scenario.world [] []) = Ok sub' w' ∧
    map (λ b, (Source b, Destination b)) (warehouses (handle sub'))
      = [(Scenario.src, Scenario.dst "POSTGRES")] ∧
    workerChannelMap sub' = {[ "D0_old"%string; "D_events"%string ]}.
Proof.
  eexists _, _. split; [reflexivity|].
  destruct (backendConfigSubscriber_rebuilds_bindings (λ _ s, s) (λ _ s, s)
              (λ _ _ _, (EmptyString, false)) (λ s, s)
              false [] false (λ _, mret tt) (λ _, mret tt)
              SubscriberScenario.event SubscriberScenario.before _
              (Scenario.world [] []) _ eq_refl) as (Hp & _ & Hc & _).
  split; [exact Hp|]. etransitivity; [exact Hc|]. vm_compute. reflexivity.
Defined.
